(** * Catalog container and binned statistics of ml-cl-euclid

    A shallow embedding of [tools/catalog.py] (class [Catalog]) and of the
    calculation part of [tools/plot_tools.py] (function [binned_plot]),
    together with the properties of the two persistence paths, of
    indexing, of concatenation and of the percentile binning.

    Python values are modelled by value, objects that are shared or
    updated in place (Catalog instances, metadata dictionaries, files)
    live in an explicit store.  Console output ([print]) and drawing calls
    are not modelled. *)

From Stdlib Require Import ZArith String Ascii List Lia.
From Stdlib Require Import Floats.SpecFloat.
From stdpp Require Import base option list gmap strings pretty.

Local Open Scope string_scope.
Local Open Scope list_scope.
Local Open Scope Z_scope.

(** ** Python outcomes *)

(** The exception classes the modelled code and its libraries raise. *)
Inductive pyexc :=
| Exception (msg : string)
| IndexError
| TypeError
| KeyError
| ValueError
| AttributeError
| OverflowError
| FileNotFoundError.

(** A call returns, raises, or leaves the part of numpy and pandas
    behaviour that this development fixes ([Unmodelled]): behaviour that
    differs between library versions or that involves Python objects
    outside the data model. *)
Inductive outcome (A : Type) :=
| Ok (a : A)
| Raise (e : pyexc)
| Unmodelled.

Arguments Ok {A} a.
Arguments Raise {A} e.
Arguments Unmodelled {A}.

#[global] Instance outcome_ret : MRet outcome := fun A a => Ok a.
#[global] Instance outcome_bind : MBind outcome := fun A B f m =>
  match m with
  | Ok a => f a
  | Raise e => Raise e
  | Unmodelled => Unmodelled
  end.

(** [for x in l: acc = body acc x], stopping at the first exception. *)
Fixpoint foldM {A S : Type} (body : S -> A -> outcome S) (s : S) (l : list A)
  : outcome S :=
  match l with
  | [] => Ok s
  | x :: l' => s' ← body s x; foldM body s' l'
  end.

(** A list comprehension whose element expression may raise. *)
Fixpoint forM {A B : Type} (f : A -> outcome B) (l : list A)
  : outcome (list B) :=
  match l with
  | [] => Ok []
  | x :: l' => y ← f x; ys ← forM f l'; Ok (y :: ys)
  end.

(** ** Numeric cells *)

(** Element types of the columns: numpy's ['<i8'] and ['<f8']. *)
Inductive ntype := I8 | F8.

#[global] Instance ntype_eq_dec : EqDecision ntype.
Proof. solve_decision. Defined.

(** A float64 is an IEEE-754 binary64 value ([spec_float] with precision
    53 and maximal exponent 1024). *)
Definition float64 := spec_float.

Inductive cell :=
| CInt (z : Z)
| CFlt (f : float64).

(** [float(z)]: the binary64 nearest to the integer [z], ties to even. *)
Definition f64_of_Z (z : Z) : float64 := binary_normalize 53 1024 z 0 false.

Definition f64_nan : float64 := S754_nan.

(** The integer part of a finite float, truncated toward zero. *)
Definition f64_trunc (f : float64) : option Z :=
  match f with
  | S754_zero _ => Some 0
  | S754_finite s m e =>
      let a := if 0 <=? e then Z.pos m * 2 ^ e else Z.pos m / 2 ^ (- e) in
      Some (if s then - a else a)
  | S754_infinity _ | S754_nan => None
  end.

(** Python's [int(x)] on a numpy scalar. *)
Definition py_int (c : cell) : outcome Z :=
  match c with
  | CInt z => Ok z
  | CFlt (S754_nan) => Raise ValueError
  | CFlt (S754_infinity _) => Raise OverflowError
  | CFlt f => match f64_trunc f with Some z => Ok z | None => Unmodelled end
  end.

Definition int64_min : Z := - 2 ^ 63.

(** The cast numpy applies when a value is stored into an array of element
    type [ty].  A float that has no int64 counterpart is stored as the
    smallest int64 (x86-64). *)
Definition astype (ty : ntype) (c : cell) : cell :=
  match ty, c with
  | I8, CInt _ => c
  | F8, CFlt _ => c
  | F8, CInt z => CFlt (f64_of_Z z)
  | I8, CFlt f =>
      match f64_trunc f with
      | Some z => if (int64_min <=? z) && (z <? 2 ^ 63) then CInt z
                  else CInt int64_min
      | None => CInt int64_min
      end
  end.

(** The fill value of [np.zeros]. *)
Definition zero_of (ty : ntype) : cell :=
  match ty with
  | I8 => CInt 0
  | F8 => CFlt (S754_zero false)
  end.

Definition cell_typed (ty : ntype) (c : cell) : bool :=
  match ty, c with
  | I8, CInt _ => true
  | F8, CFlt _ => true
  | _, _ => false
  end.

(** ** Named, typed columns *)

(** One field of a structured array, or one column of a data frame. *)
Record column := Column {
  c_name : string;
  c_type : ntype;
  c_data : list cell
}.

Definition col_descr (c : column) : string * ntype := (c_name c, c_type c).

Definition find_col (x : string) (cols : list column) : option column :=
  List.find (fun c => String.eqb (c_name c) x) cols.

Definition count_col (x : string) (cols : list column) : nat :=
  length (List.filter (fun c => String.eqb (c_name c) x) cols).

(** ** numpy: one-dimensional structured arrays *)

(** A galaxy table: [sa_len] records, stored field by field. *)
Record sarray := SArray {
  sa_len : nat;
  sa_cols : list column
}.

(** [t.dtype.descr] *)
Definition sa_descr (t : sarray) : list (string * ntype) :=
  map col_descr (sa_cols t).

(** [t.dtype.names] *)
Definition sa_names (t : sarray) : list string := map c_name (sa_cols t).

(** [t[f]] *)
Definition sa_getitem (t : sarray) (f : string) : outcome (list cell) :=
  match find_col f (sa_cols t) with
  | Some c => Ok (c_data c)
  | None => Raise ValueError
  end.

(** [np.zeros(shape=(k,), dtype=dt)] *)
Definition np_zeros_table (k : nat) (dt : list (string * ntype)) : sarray :=
  SArray k (map (fun d => Column (fst d) (snd d) (repeat (zero_of (snd d)) k)) dt).

(** The values written by [dst[...] = src] into [n] slots: the source
    itself when the lengths agree, its single element repeated when the
    source has length one (broadcasting), an error otherwise. *)
Definition broadcast_to (n : nat) (src : list cell) : outcome (list cell) :=
  if Nat.eqb (length src) n then Ok src
  else match src with
       | [c] => Ok (repeat c n)
       | _ => Raise ValueError
       end.

(** Replace the first entry called [f] of a list of named entries; numpy
    raises [ValueError] when there is no field of that name. *)
Fixpoint set_named {A : Type} (name : A -> string) (f : string)
  (upd : A -> outcome A) (l : list A) : outcome (list A) :=
  match l with
  | [] => Raise ValueError
  | c :: l' =>
      if String.eqb (name c) f
      then c' ← upd c; Ok (c' :: l')
      else cs ← set_named name f upd l'; Ok (c :: cs)
  end.

(** [t[f] = src] *)
Definition sa_setitem (t : sarray) (f : string) (src : list cell)
  : outcome sarray :=
  cols ← set_named c_name f (fun c =>
            vals ← broadcast_to (sa_len t) src;
            Ok (Column (c_name c) (c_type c) (map (astype (c_type c)) vals)))
          (sa_cols t);
  Ok (SArray (sa_len t) cols).

(** Representation invariant of a structured array with the record
    layout [dt]: at least one field, distinct non-empty field names,
    full columns, cells of the field's element type. *)
Record valid_table (dt : list (string * ntype)) (t : sarray) : Prop := {
  vt_descr : sa_descr t = dt;
  vt_len : Forall (fun c => length (c_data c) = sa_len t) (sa_cols t);
  vt_typed : Forall (fun c => forallb (cell_typed (c_type c)) (c_data c) = true)
               (sa_cols t)
}.

(** ** pandas: data frames and series *)

(** Row and entry labels: integers, or column names once a row has been
    taken out of a frame. *)
Inductive label :=
| LInt (z : Z)
| LStr (s : string).

Record DataFrame := Frame {
  df_index : list label;
  df_cols : list column
}.

Record Series := MkSeries {
  s_index : list label;
  s_type : ntype;
  s_data : list cell
}.

(** [len(df)] *)
Definition df_len (df : DataFrame) : nat := length (df_index df).

(** [df.columns.values] *)
Definition df_columns (df : DataFrame) : list string := map c_name (df_cols df).

(** [RangeIndex(n)] *)
Definition range_index (n : nat) : list label :=
  map (fun i => LInt (Z.of_nat i)) (seq 0 n).

(** [df[x]] for a column label [x].  With a repeated column label pandas
    returns a frame instead of a series; that case is left out. *)
Definition df_getitem (df : DataFrame) (x : string) : outcome Series :=
  match count_col x (df_cols df), find_col x (df_cols df) with
  | 1%nat, Some c => Ok (MkSeries (df_index df) (c_type c) (c_data c))
  | O, _ => Raise KeyError
  | _, _ => Unmodelled
  end.

(** A position as Python resolves it against a length: negative positions
    count from the end, positions outside [-n, n) are out of bounds. *)
Definition norm_index (n : nat) (z : Z) : option nat :=
  if (0 <=? z) && (z <? Z.of_nat n) then Some (Z.to_nat z)
  else if (- Z.of_nat n <=? z) && (z <? 0) then Some (Z.to_nat (z + Z.of_nat n))
  else None.

(** Positional selection [l[z]] on a sequence. *)
Definition pick {A : Type} (l : list A) (z : Z) : outcome A :=
  match norm_index (length l) z with
  | Some i => match l !! i with Some a => Ok a | None => Raise IndexError end
  | None => Raise IndexError
  end.

(** Selection by an index array of machine integers. *)
Definition picks {A : Type} (l : list A) (zs : list Z) : outcome (list A) :=
  forM (pick l) zs.

(** A list or an ndarray selector is used as an index array.  Positions
    inside the axis are machine integers, the axis having fewer than
    2^63 entries.  Otherwise the array that numpy builds from the
    positions decides: an int64 array when every position fits int64; a
    uint64 array when all are non-negative and fit 64 bits, whose
    conversion to the index type wraps (2^64 - 1 is read as -1); a
    float64 array when negative positions meet positions from 2^63 on;
    an array of Python objects as soon as one position is outside
    [-2^63, 2^64). *)
Inductive index_kind := IdxInt | IdxUint | IdxFloat | IdxObject.

Definition in_axis (n : nat) (z : Z) : bool :=
  (- Z.of_nat n <=? z) && (z <? Z.of_nat n).

Definition index_kind_of (n : nat) (zs : list Z) : index_kind :=
  if forallb (in_axis n) zs then IdxInt
  else if forallb (fun z => (- 2 ^ 63 <=? z) && (z <? 2 ^ 63)) zs then IdxInt
  else if forallb (fun z => (0 <=? z) && (z <? 2 ^ 64)) zs then IdxUint
  else if forallb (fun z => (- 2 ^ 63 <=? z) && (z <? 2 ^ 64)) zs then IdxFloat
  else IdxObject.

Definition wrap_int64 (z : Z) : Z := if z <? 2 ^ 63 then z else z - 2 ^ 64.

(** pandas converts the selector with [np.asanyarray(key, dtype=np.intp)]:
    Python integers that do not fit raise [OverflowError]; the cast of
    floats outside int64 is left to the C compiler. *)
Definition pd_positions (n : nat) (zs : list Z) : outcome (list Z) :=
  match index_kind_of n zs with
  | IdxInt => Ok zs
  | IdxUint => Ok (map wrap_int64 zs)
  | IdxFloat => Unmodelled
  | IdxObject => Raise OverflowError
  end.

(** numpy accepts index arrays of integer type only. *)
Definition np_positions (n : nat) (zs : list Z) : outcome (list Z) :=
  match index_kind_of n zs with
  | IdxInt => Ok zs
  | IdxUint => Ok (map wrap_int64 zs)
  | IdxFloat | IdxObject => Raise IndexError
  end.

(** The element type of a row taken across the columns: int64 when every
    column is, float64 as soon as one column is. *)
Definition row_type (cols : list column) : ntype :=
  if forallb (fun c => bool_decide (c_type c = I8)) cols then I8 else F8.

(** What [.iloc[key]] returns. *)
Inductive ilocres :=
| IFrame (df : DataFrame)
| ISeries (s : Series)
| IScalar (c : cell).

(** [df.iloc[z]]: the row at position [z] as a series labelled by the
    column names. *)
Definition df_iloc_int (df : DataFrame) (z : Z) : outcome Series :=
  match norm_index (df_len df) z with
  | None => Raise IndexError
  | Some i =>
      let ty := row_type (df_cols df) in
      vals ← forM (fun c => match c_data c !! i with
                            | Some v => Ok (astype ty v)
                            | None => Unmodelled
                            end) (df_cols df);
      Ok (MkSeries (map LStr (df_columns df)) ty vals)
  end.

(** [df.iloc[zs]]: the rows at the positions [zs], in that order, each
    keeping its label. *)
Definition df_iloc_list (df : DataFrame) (zs : list Z) : outcome DataFrame :=
  zs ← pd_positions (df_len df) zs;
  idx ← picks (df_index df) zs;
  cols ← forM (fun c => d ← picks (c_data c) zs;
                        Ok (Column (c_name c) (c_type c) d)) (df_cols df);
  Ok (Frame idx cols).

(** [s.iloc[zs]] *)
Definition s_iloc_list (s : Series) (zs : list Z) : outcome Series :=
  zs ← pd_positions (length (s_index s)) zs;
  idx ← picks (s_index s) zs;
  d ← picks (s_data s) zs;
  Ok (MkSeries idx (s_type s) d).

(** [.reset_index(drop=True)]: the labels are replaced by 0 .. n-1. *)
Definition df_reset_index (df : DataFrame) : DataFrame :=
  Frame (range_index (df_len df)) (df_cols df).

Definition s_reset_index (s : Series) : Series :=
  MkSeries (range_index (length (s_index s))) (s_type s) (s_data s).

(** The common element type of two columns that are stacked. *)
Definition join_type (a b : ntype) : ntype :=
  match a, b with
  | I8, I8 => I8
  | _, _ => F8
  end.

Definition stack_col (a b : column) : column :=
  let ty := join_type (c_type a) (c_type b) in
  Column (c_name a) ty (map (astype ty) (c_data a ++ c_data b)).

(** [df.append(other)]: the rows of [other] after the rows of [df], each
    row keeping its label.  Only frames with the same distinct column
    labels in the same order are covered: for other operands the result
    depends on the pandas version. *)
Definition df_append (df other : DataFrame) : outcome DataFrame :=
  if bool_decide (df_columns df = df_columns other)
     && bool_decide (NoDup (df_columns df))
  then Ok (Frame (df_index df ++ df_index other)
                 (zip_with stack_col (df_cols df) (df_cols other)))
  else Unmodelled.

(** [s.max()]: the largest entry, NaN entries skipped, NaN for an empty
    or all-NaN series. *)
Definition f64_is_nan (f : float64) : bool :=
  match f with S754_nan => true | _ => false end.

Definition f64_max (a b : float64) : float64 :=
  if SFltb a b then b else a.

Definition cell_int (c : cell) : Z :=
  match astype I8 c with CInt z => z | CFlt _ => 0 end.

Definition cell_flt (c : cell) : float64 :=
  match astype F8 c with CFlt f => f | CInt _ => f64_nan end.

Definition s_max (s : Series) : cell :=
  match s_type s with
  | I8 =>
      match map cell_int (s_data s) with
      | [] => CFlt f64_nan
      | z :: zs => CInt (foldl Z.max z zs)
      end
  | F8 =>
      match List.filter (fun f => negb (f64_is_nan f)) (map cell_flt (s_data s)) with
      | [] => CFlt f64_nan
      | f :: fs => CFlt (foldl f64_max f fs)
      end
  end.

(** Invariant of a frame: distinct column labels, full columns, cells of
    the column's element type. *)
Record valid_frame (df : DataFrame) : Prop := {
  vf_nodup : NoDup (df_columns df);
  vf_len : Forall (fun c => length (c_data c) = df_len df) (df_cols df);
  vf_typed : Forall (fun c => forallb (cell_typed (c_type c)) (c_data c) = true)
               (df_cols df)
}.

(** ** numpy: record arrays with fixed-length vector fields *)

(** The shape part of a field declaration [(name, type)] or
    [(name, type, m)]. *)
Inductive fshape :=
| Scalar
| Vector (m : nat).

(** The data of one field over all records: one cell per record, or one
    vector of [m] cells per record. *)
Inductive fdata :=
| ScalarField (vals : list cell)
| VectorField (m : nat) (vecs : list (list cell)).

Record rfield := RField {
  rf_name : string;
  rf_type : ntype;
  rf_data : fdata
}.

Record recarray := RecArray {
  ra_len : nat;
  ra_fields : list rfield
}.

Definition rf_shape (f : rfield) : fshape :=
  match rf_data f with
  | ScalarField _ => Scalar
  | VectorField m _ => Vector m
  end.

(** [x.dtype.descr]: pairs for scalar fields, triples for vector fields. *)
Definition ra_descr (x : recarray) : list (string * ntype * fshape) :=
  map (fun f => (rf_name f, rf_type f, rf_shape f)) (ra_fields x).

(** [x.dtype.names] *)
Definition ra_names (x : recarray) : list string := map rf_name (ra_fields x).

Definition find_field (f : string) (x : recarray) : option rfield :=
  List.find (fun fld => String.eqb (rf_name fld) f) (ra_fields x).

Definition zero_field (n : nat) (d : string * ntype * fshape) : rfield :=
  let '(name, ty, sh) := d in
  RField name ty
    match sh with
    | Scalar => ScalarField (repeat (zero_of ty) n)
    | Vector m => VectorField m (repeat (repeat (zero_of ty) m) n)
    end.

(** The name that the dtype constructor gives the field declared at
    position [i] under the name [name]: an empty name is replaced by
    [f<i>]. *)
Definition field_name (i : nat) (name : string) : string :=
  match name with
  | EmptyString => "f" +:+ pretty i
  | _ => name
  end.

Definition np_dtype_fields (dt : list (string * ntype * fshape))
  : list (string * ntype * fshape) :=
  imap (fun i d => (field_name i (fst (fst d)), snd (fst d), snd d)) dt.

(** [np.zeros(shape=(n,), dtype=dt)]; a field name that occurs twice is
    rejected by the dtype constructor. *)
Definition np_zeros (n : nat) (dt : list (string * ntype * fshape))
  : outcome recarray :=
  let fields := np_dtype_fields dt in
  if bool_decide (NoDup (map (fun d => fst (fst d)) fields))
  then Ok (RecArray n (map (zero_field n) fields))
  else Raise ValueError.

(** [out[x] = vals] for a whole field. *)
Definition ra_set_column (out : recarray) (x : string) (vals : list cell)
  : outcome recarray :=
  fs ← set_named rf_name x (fun fld =>
          match rf_data fld with
          | ScalarField _ =>
              vs ← broadcast_to (ra_len out) vals;
              Ok (RField (rf_name fld) (rf_type fld)
                    (ScalarField (map (astype (rf_type fld)) vs)))
          | VectorField _ _ => Unmodelled
          end) (ra_fields out);
  Ok (RecArray (ra_len out) fs).

(** [x[i][f]] (equally [x[f][i]]) for a scalar field. *)
Definition ra_scalar (x : recarray) (i : nat) (f : string) : outcome cell :=
  match find_field f x with
  | None => Raise ValueError
  | Some fld =>
      match rf_data fld with
      | ScalarField vals =>
          match vals !! i with Some c => Ok c | None => Raise IndexError end
      | VectorField _ _ => Unmodelled
      end
  end.

(** [x[i][f]] for a vector field. *)
Definition ra_vector (x : recarray) (i : nat) (f : string)
  : outcome (list cell) :=
  match find_field f x with
  | None => Raise ValueError
  | Some fld =>
      match rf_data fld with
      | VectorField _ vecs =>
          match vecs !! i with Some v => Ok v | None => Raise IndexError end
      | ScalarField _ => Unmodelled
      end
  end.

(** The number of slots the slice [[:k]] selects in a vector of [m]. *)
Definition slice_len (m : nat) (k : Z) : nat :=
  if k <? 0 then Z.to_nat (Z.max 0 (Z.of_nat m + k))
  else Z.to_nat (Z.min k (Z.of_nat m)).

(** [v[:k]] *)
Definition slice_to {A : Type} (v : list A) (k : Z) : list A :=
  take (slice_len (length v) k) v.

(** [out[i][f][:k] = src]: the first slots of record [i]'s vector are
    overwritten, the others keep their value.  A scalar field cannot be
    sliced. *)
Definition ra_set_slice (out : recarray) (i : nat) (f : string) (k : Z)
  (src : list cell) : outcome recarray :=
  fs ← set_named rf_name f (fun fld =>
          match rf_data fld with
          | ScalarField _ => Raise TypeError
          | VectorField m vecs =>
              match vecs !! i with
              | None => Raise IndexError
              | Some v =>
                  let n := slice_len (length v) k in
                  vs ← broadcast_to n src;
                  Ok (RField (rf_name fld) (rf_type fld)
                        (VectorField m
                           (<[i := map (astype (rf_type fld)) vs ++ drop n v]> vecs)))
              end
          end) (ra_fields out);
  Ok (RecArray (ra_len out) fs).

(** ** numpy: the containers a member sequence is held in *)

Inductive galval :=
| GNone                      (* None *)
| GList (tabs : list sarray)           (* Python list of tables *)
| GObject (tabs : list sarray)         (* 1-d array of dtype object *)
| GGrid (dt : list (string * ntype)) (k : nat) (tabs : list sarray)
                             (* 2-d structured array, one row of k records per table *)
| GTable (t : sarray)        (* 1-d structured array: a single table *)
| GEmpty                     (* the empty float array np.array([]) *)
| GOther.                    (* any other object: a record, a mixed object array *)

(** The sequence of galaxy tables a container holds, when it holds one. *)
Definition gal_tables (g : galval) : option (list sarray) :=
  match g with
  | GList tabs | GObject tabs | GGrid _ _ tabs => Some tabs
  | GEmpty => Some []
  | GNone | GTable _ | GOther => None
  end.

(** [len(g)] *)
Definition gal_len (g : galval) : outcome nat :=
  match g with
  | GList tabs | GObject tabs | GGrid _ _ tabs => Ok (length tabs)
  | GTable t => Ok (sa_len t)
  | GEmpty => Ok O
  | GNone => Raise TypeError
  | GOther => Unmodelled
  end.

Definition same_layout (t : sarray) (dt : list (string * ntype)) (k : nat) : bool :=
  bool_decide (sa_descr t = dt) && Nat.eqb (sa_len t) k.

(** [np.array(tabs)] on a list of tables: tables of one length and
    layout stack into a 2-d structured array, tables of different lengths
    give a 1-d object array (numpy before 1.24), the empty list gives an
    empty float array. *)
Definition np_array (tabs : list sarray) : outcome galval :=
  match tabs with
  | [] => Ok GEmpty
  | t :: _ =>
      if forallb (fun u => same_layout u (sa_descr t) (sa_len t)) tabs
      then Ok (GGrid (sa_descr t) (sa_len t) tabs)
      else if forallb (fun u => Nat.eqb (sa_len u) (sa_len t)) tabs
      then Unmodelled
      else Ok (GObject tabs)
  end.

(** The records of [b] after the records of [a]. *)
Definition append_table (a b : sarray) : sarray :=
  SArray (sa_len a + sa_len b)
    (zip_with (fun ca cb => Column (c_name ca) (c_type ca) (c_data ca ++ c_data cb))
       (sa_cols a) (sa_cols b)).

Definition concat_tables (dt : list (string * ntype)) (tabs : list sarray)
  : sarray :=
  foldl append_table (np_zeros_table 0 dt) tabs.

(** A flattened array: [np.ravel]. *)
Inductive flat :=
| FObj (tabs : list sarray)
| FTable (t : sarray)
| FPlainEmpty.

Definition ravel_array (g : galval) : outcome flat :=
  match g with
  | GObject tabs => Ok (FObj tabs)
  | GGrid dt _ tabs => Ok (FTable (concat_tables dt tabs))
  | GTable t => Ok (FTable t)
  | GEmpty => Ok FPlainEmpty
  | GList _ | GNone | GOther => Unmodelled
  end.

Definition np_ravel (g : galval) : outcome flat :=
  match g with
  | GList tabs => a ← np_array tabs; ravel_array a
  | _ => ravel_array g
  end.

(** [np.concatenate((a, b))] of two flattened arrays. *)
Definition np_concatenate (a b : flat) : outcome galval :=
  match a, b with
  | FObj x, FObj y => Ok (GObject (x ++ y))
  | FTable x, FTable y =>
      if bool_decide (sa_descr x = sa_descr y) then Ok (GTable (append_table x y))
      else Unmodelled
  | FObj x, FPlainEmpty => Ok (GObject x)
  | FPlainEmpty, FObj y => Ok (GObject y)
  | FPlainEmpty, FPlainEmpty => Ok GEmpty
  | FObj x, FTable y => if Nat.eqb (sa_len y) 0 then Ok (GObject x) else Ok GOther
  | FTable x, FObj y => if Nat.eqb (sa_len x) 0 then Ok (GObject y) else Ok GOther
  | FTable _, FPlainEmpty | FPlainEmpty, FTable _ => Unmodelled
  end.

(** [np.append(a, b)] without an axis: both operands are flattened, then
    concatenated. *)
Definition np_append (a b : galval) : outcome galval :=
  x ← np_ravel a;
  y ← np_ravel b;
  np_concatenate x y.

(** The records of [t] at the positions [zs]. *)
Definition table_rows (t : sarray) (zs : list Z) : outcome sarray :=
  zs ← np_positions (sa_len t) zs;
  _ ← picks (seq 0 (sa_len t)) zs;
  cols ← forM (fun c => d ← picks (c_data c) zs;
                        Ok (Column (c_name c) (c_type c) d)) (sa_cols t);
  Ok (SArray (length zs) cols).

(** ** Selectors *)

(** The objects a Catalog is indexed with. *)
Inductive pykey :=
| KInt (z : Z)               (* int *)
| KBool (b : bool)           (* bool, a subclass of int *)
| KList (zs : list Z)        (* list of positions *)
| KArray (zs : list Z)       (* 1-d integer ndarray of positions *)
| KStr (s : string)
| KFloat (f : float64)
| KSlice (start stop : Z)
| KNpInt (z : Z)             (* numpy.int64 scalar *)
| KNoneKey.

(** [str(type(key))] *)
Definition type_repr (key : pykey) : string :=
  match key with
  | KInt _ => "<class 'int'>"
  | KBool _ => "<class 'bool'>"
  | KList _ => "<class 'list'>"
  | KArray _ => "<class 'numpy.ndarray'>"
  | KStr _ => "<class 'str'>"
  | KFloat _ => "<class 'float'>"
  | KSlice _ _ => "<class 'slice'>"
  | KNpInt _ => "<class 'numpy.int64'>"
  | KNoneKey => "<class 'NoneType'>"
  end.

(** [isinstance(key, int) | isinstance(key, list) | isinstance(key, ndarray)] *)
Definition key_supported (key : pykey) : bool :=
  match key with
  | KInt _ | KBool _ | KList _ | KArray _ => true
  | _ => false
  end.

(** ** The attributes of a Catalog *)

Inductive propval :=
| PNone
| PFrame (df : DataFrame)
| PSeries (s : Series).

(** [prop.iloc[key]].  A Python bool is not accepted as a position by the
    positional indexer. *)
Definition prop_iloc (p : propval) (key : pykey) : outcome ilocres :=
  match p with
  | PNone => Raise AttributeError
  | PFrame df =>
      match key with
      | KInt z => s ← df_iloc_int df z; Ok (ISeries s)
      | KBool _ => Raise TypeError
      | KList zs | KArray zs => d ← df_iloc_list df zs; Ok (IFrame d)
      | _ => Unmodelled
      end
  | PSeries s =>
      match key with
      | KInt z => c ← pick (s_data s) z; Ok (IScalar c)
      | KBool _ => Raise TypeError
      | KList zs | KArray zs => r ← s_iloc_list s zs; Ok (ISeries r)
      | _ => Unmodelled
      end
  end.

(** [.reset_index(drop=True)] on what [iloc] returned; a scalar has no
    such method. *)
Definition reset_index (r : ilocres) : outcome propval :=
  match r with
  | IFrame df => Ok (PFrame (df_reset_index df))
  | ISeries s => Ok (PSeries (s_reset_index s))
  | IScalar _ => Raise AttributeError
  end.

(** [gal[key]] *)
Definition gal_getitem (g : galval) (key : pykey) : outcome galval :=
  match g with
  | GNone => Raise TypeError
  | GList tabs =>
      match key with
      | KInt z => t ← pick tabs z; Ok (GTable t)
      | KList _ => Raise TypeError
      | KArray [_] => Unmodelled
      | KArray _ => Raise TypeError
      | _ => Unmodelled
      end
  | GObject tabs =>
      match key with
      | KInt z => t ← pick tabs z; Ok (GTable t)
      | KList zs | KArray zs =>
          zs ← np_positions (length tabs) zs; ts ← picks tabs zs; Ok (GObject ts)
      | _ => Unmodelled
      end
  | GGrid dt k tabs =>
      match key with
      | KInt z => t ← pick tabs z; Ok (GTable t)
      | KList zs | KArray zs =>
          zs ← np_positions (length tabs) zs; ts ← picks tabs zs; Ok (GGrid dt k ts)
      | _ => Unmodelled
      end
  | GTable t =>
      match key with
      | KInt z => _ ← pick (seq 0 (sa_len t)) z; Ok GOther
      | KList zs | KArray zs => r ← table_rows t zs; Ok (GTable r)
      | _ => Unmodelled
      end
  | GEmpty =>
      match key with
      | KInt _ => Raise IndexError
      | KList [] | KArray [] => Ok GEmpty
      | KList _ | KArray _ => Raise IndexError
      | _ => Unmodelled
      end
  | GOther => Unmodelled
  end.

(** [gal[z]] where a galaxy table is expected. *)
Definition gal_table (g : galval) (z : Z) : outcome sarray :=
  match g with
  | GNone => Raise TypeError
  | GList tabs | GObject tabs | GGrid _ _ tabs => pick tabs z
  | GEmpty => Raise IndexError
  | GTable _ | GOther => Unmodelled
  end.

(** [len(prop)] *)
Definition prop_len (p : propval) : outcome nat :=
  match p with
  | PFrame df => Ok (df_len df)
  | PSeries s => Ok (length (s_index s))
  | PNone => Raise TypeError
  end.

(** [prop.append(other).reset_index(drop=True)] for two tables.  Appending
    a series (what indexing with a single integer leaves in [prop]) adds
    one row, and one column for each of its labels that is no column
    name; columns labelled by integers are outside the data model, and
    so is a series that is appended to. *)
Definition prop_append (p q : propval) : outcome propval :=
  match p, q with
  | PNone, _ => Raise AttributeError
  | PFrame a, PFrame b => d ← df_append a b; Ok (PFrame (df_reset_index d))
  | _, _ => Unmodelled
  end.

(** ** The object store *)

Definition loc := positive.

(** The [par] attribute: [None] or a reference to a dictionary. *)
Inductive pyref :=
| RNone
| RDict (l : loc).

Inductive pyscalar :=
| PStr (s : string)
| PNum (c : cell).

(** The state of a Catalog instance. *)
Record CatObj := Cat {
  par : pyref;
  prop : propval;
  gal : galval
}.

(** What [pickle.dump] writes for a Catalog: the object graph by value. *)
Record pickled := Pickled {
  pk_par : option (gmap string pyscalar);
  pk_prop : propval;
  pk_gal : galval
}.

Inductive blob :=
| PickleFile (p : pickled)
| NpyFile (a : recarray).

Record store := Store {
  st_cats : gmap loc CatObj;
  st_dicts : gmap loc (gmap string pyscalar);
  st_files : gmap string blob
}.

(** The dictionary created once for the default [par={}] of [load_npy]. *)
Definition load_npy_default : loc := 1%positive.

Definition get_cat (σ : store) (l : loc) : outcome CatObj :=
  match st_cats σ !! l with
  | Some o => Ok o
  | None => Unmodelled
  end.

Definition set_cat (σ : store) (l : loc) (o : CatObj) : store :=
  Store (<[l := o]> (st_cats σ)) (st_dicts σ) (st_files σ).

(** [Catalog(par=.., prop=.., gal=..)]: a new instance. *)
Definition new_cat (σ : store) (o : CatObj) : loc * store :=
  let l := fresh (dom (st_cats σ)) in (l, set_cat σ l o).

Definition new_dict (σ : store) (d : gmap string pyscalar) : loc * store :=
  let l := fresh (dom (st_dicts σ)) in
  (l, Store (st_cats σ) (<[l := d]> (st_dicts σ)) (st_files σ)).

Definition write_file (σ : store) (name : string) (b : blob) : store :=
  Store (st_cats σ) (st_dicts σ) (<[name := b]> (st_files σ)).

(** ** Catalog methods *)

(** [Catalog.__getitem__] *)
Definition getitem (σ : store) (self : loc) (key : pykey)
  : outcome (loc * store) :=
  o ← get_cat σ self;
  if key_supported key then
    r ← prop_iloc (prop o) key;
    p ← reset_index r;
    g ← gal_getitem (gal o) key;
    Ok (new_cat σ (Cat (par o) p g))
  else Raise (Exception ("Unknown key type: " +:+ type_repr key)).

(** [Catalog.__add__] *)
Definition add (σ : store) (self catalog : loc) : outcome (loc * store) :=
  o ← get_cat σ self;
  c ← get_cat σ catalog;
  p ← prop_append (prop o) (prop c);
  g ← np_append (gal o) (gal c);
  Ok (new_cat σ (Cat (par o) p g)).

(** [Catalog.__len__] *)
Definition len (σ : store) (self : loc) : outcome nat :=
  o ← get_cat σ self;
  prop_len (prop o).

(** [pickle.dump(self, out_file)]: every object reachable from the
    instance is written by value. *)
Definition pickle_dump (σ : store) (o : CatObj) : outcome pickled :=
  d ← match par o with
      | RNone => Ok None
      | RDict l => match st_dicts σ !! l with
                   | Some d => Ok (Some d)
                   | None => Unmodelled
                   end
      end;
  match gal o with
  | GOther => Unmodelled
  | g => Ok (Pickled d (prop o) g)
  end.

(** [Catalog.save]; every name is taken to be a writable path. *)
Definition save (σ : store) (self : loc) (filename : string)
  : outcome (unit * store) :=
  o ← get_cat σ self;
  p ← pickle_dump σ o;
  Ok (tt, write_file σ filename (PickleFile p)).

(** [pickle.load(in_file)]: the objects are created anew. *)
Definition pickle_load (σ : store) (p : pickled) : loc * store :=
  match pk_par p with
  | None => new_cat σ (Cat RNone (pk_prop p) (pk_gal p))
  | Some d =>
      let '(l, σ1) := new_dict σ d in
      new_cat σ1 (Cat (RDict l) (pk_prop p) (pk_gal p))
  end.

(** [Catalog.load] *)
Definition load (σ : store) (self : loc) (filename : string)
  : outcome (loc * store) :=
  match st_files σ !! filename with
  | None => Raise FileNotFoundError
  | Some (NpyFile _) => Unmodelled
  | Some (PickleFile p) =>
      let '(nc, σ1) := pickle_load σ p in
      new ← get_cat σ1 nc;
      _ ← get_cat σ1 self;
      Ok (self, set_cat σ1 self (Cat (par new) (prop new) (gal new)))
  end.

(** ** The padded fixed-width codec *)

(** The reserved marker put in front of galaxy field names. *)
Definition gal_prefix : string := "gal_".

Definition is_gal (name : string) : bool := String.prefix gal_prefix name.

(** [s[n:]] *)
Fixpoint str_drop (n : nat) (s : string) : string :=
  match n, s with
  | O, _ => s
  | S n', String _ s' => str_drop n' s'
  | S _, EmptyString => EmptyString
  end.

(** The shape of a field declared as [(name, type, m)] with an integer
    [m].  A negative length is rejected; [(type, 1)] is read as the
    plain [type], a scalar field (numpy before 1.24 warns that this
    will change); any other length, 0 included, gives a vector field. *)
Definition subarray_shape (m : Z) : outcome fshape :=
  if m <? 0 then Raise ValueError
  else if m =? 1 then Ok Scalar
  else Ok (Vector (Z.to_nat m)).

(** The array that [Catalog.save_npy] builds from [self.prop] and
    [self.gal] and hands to [np.save]. *)
Definition encode (p : propval) (g : galval) : outcome recarray :=
  match p with
  | PNone => Raise TypeError
  | PSeries _ => Unmodelled
  | PFrame df =>
      ngal ← df_getitem df "Ngal";
      let max_ngal := s_max ngal in
      let cols := df_columns df in
      g0 ← gal_table g 0;
      gdt ← forM (fun d => m ← py_int max_ngal;
                           sh ← subarray_shape m;
                           Ok (gal_prefix +:+ fst d, snd d, sh)) (sa_descr g0);
      if bool_decide (gdt = []) then Unmodelled else
      out ← np_zeros (df_len df) (map (fun x => (x, F8, Scalar)) cols ++ gdt);
      out ← foldM (fun out x => s ← df_getitem df x;
                                ra_set_column out x (s_data s)) out cols;
      foldM (fun out i =>
               foldM (fun out f =>
                        gi ← gal_table g (Z.of_nat i);
                        src ← sa_getitem gi f;
                        c ← ra_scalar out i "Ngal";
                        k ← py_int c;
                        ra_set_slice out i (gal_prefix +:+ f) k src)
                 out (sa_names g0))
        out (seq 0 (df_len df))
  end.

(** [pd.DataFrame(x[names])] *)
Definition frame_of (x : recarray) (names : list string) : outcome DataFrame :=
  if bool_decide (names = []) then Unmodelled else
  cols ← forM (fun nm => match find_field nm x with
                         | None => Raise KeyError
                         | Some fld =>
                             match rf_data fld with
                             | ScalarField vals => Ok (Column nm (rf_type fld) vals)
                             | VectorField _ _ => Unmodelled
                             end
                         end) names;
  Ok (Frame (range_index (ra_len x)) cols).

(** [np.dtype(dt)] for a list of scalar fields. *)
Definition np_dtype (dt : list (string * ntype)) : outcome (list (string * ntype)) :=
  if bool_decide (dt = []) || bool_decide (EmptyString ∈ map fst dt) then Unmodelled
  else if bool_decide (NoDup (map fst dt)) then Ok dt
  else Raise ValueError.

(** What [Catalog.load_npy] rebuilds from the array read by [np.load]:
    the property frame and the member sequence. *)
Definition decode (x : recarray) : outcome (DataFrame * galval) :=
  let gal_descr := List.filter (fun d => is_gal (fst (fst d))) (ra_descr x) in
  dt ← forM (fun d => match snd d with
                      | Vector _ => Ok (str_drop 4 (fst (fst d)), snd (fst d))
                      | Scalar => Raise ValueError
                      end) gal_descr;
  dtype ← np_dtype dt;
  gals ← forM (fun i => c ← ra_scalar x i "Ngal";
                        k ← py_int c;
                        if k <? 0 then Raise ValueError
                        else Ok (np_zeros_table (Z.to_nat k) dtype))
            (seq 0 (ra_len x));
  gals ← foldM (fun gals i =>
                  foldM (fun gals field =>
                           v ← ra_vector x i (gal_prefix +:+ field);
                           c ← ra_scalar x i "Ngal";
                           k ← py_int c;
                           match gals !! i with
                           | None => Raise IndexError
                           | Some gi =>
                               gi' ← sa_setitem gi field (slice_to v k);
                               Ok (<[i := gi']> gals)
                           end)
                    gals (map fst dtype))
            gals (seq 0 (ra_len x));
  df ← frame_of x (List.filter (fun nm => negb (is_gal nm)) (ra_names x));
  g ← np_array gals;
  Ok (df, g).

(** [s.endswith(suffix)] *)
Definition ends_with (suffix s : string) : bool :=
  let n := String.length s in
  let k := String.length suffix in
  (k <=? n)%nat && String.eqb (substring (n - k) k s) suffix.

(** The name [np.save] writes to: [.npy] is appended unless present. *)
Definition npy_name (filename : string) : string :=
  if ends_with ".npy" filename then filename else filename +:+ ".npy".

(** [Catalog.save_npy] *)
Definition save_npy (σ : store) (self : loc) (filename : string)
  : outcome (unit * store) :=
  o ← get_cat σ self;
  out ← encode (prop o) (gal o);
  Ok (tt, write_file σ (npy_name filename) (NpyFile out)).

(** [Catalog.load_npy]; [par] is the optional argument, [None] when the
    caller omits it, in which case the default dictionary is used. *)
Definition load_npy (σ : store) (self : loc) (filename : string)
  (par : option pyref) : outcome (loc * store) :=
  match st_files σ !! filename with
  | None => Raise FileNotFoundError
  | Some (PickleFile _) => Unmodelled
  | Some (NpyFile x) =>
      r ← decode x;
      _ ← get_cat σ self;
      Ok (self, set_cat σ self
                  (Cat (default (RDict load_npy_default) par)
                       (PFrame (fst r)) (snd r)))
  end.

(** ** binned_plot: the calculation part *)

(** [X] and [Y] are float64 arrays and the arithmetic is that of
    binary64 with rounding to nearest, ties to even. *)
#[global] Instance spec_float_eq_dec : EqDecision spec_float.
Proof. solve_decision. Defined.

Definition f64_add : float64 -> float64 -> float64 := SFadd 53 1024.
Definition f64_sub : float64 -> float64 -> float64 := SFsub 53 1024.
Definition f64_mul : float64 -> float64 -> float64 := SFmul 53 1024.
Definition f64_div : float64 -> float64 -> float64 := SFdiv 53 1024.

Definition f64_zero : float64 := S754_zero false.

(** The literals [0.9999] and [1.0001]: the float64 nearest to the
    decimal fraction. *)
Definition f64_0_9999 : float64 := f64_div (f64_of_Z 9999) (f64_of_Z 10000).
Definition f64_1_0001 : float64 := f64_div (f64_of_Z 10001) (f64_of_Z 10000).

(** A requested percentile level: a Python int or a Python float. *)
Inductive pynum :=
| NInt (z : Z)
| NFloat (f : float64).

(** [p == 0] *)
Definition num_is_zero (p : pynum) : bool :=
  match p with
  | NInt z => z =? 0
  | NFloat f => SFeqb f f64_zero
  end.

(** [p <= 50] *)
Definition num_le_50 (p : pynum) : bool :=
  match p with
  | NInt z => z <=? 50
  | NFloat f => SFleb f (f64_of_Z 50)
  end.

(** [50 - p] and [50 + p] *)
Definition fifty_minus (p : pynum) : pynum :=
  match p with
  | NInt z => NInt (50 - z)
  | NFloat f => NFloat (f64_sub (f64_of_Z 50) f)
  end.

Definition fifty_plus (p : pynum) : pynum :=
  match p with
  | NInt z => NInt (50 + z)
  | NFloat f => NFloat (f64_add (f64_of_Z 50) f)
  end.

(** The first loop: the percentiles that are computed for the requested
    levels. *)
Fixpoint calc_percent (percentiles : list pynum) : outcome (list pynum) :=
  match percentiles with
  | [] => Ok []
  | p :: ps =>
      if num_is_zero p then cs ← calc_percent ps; Ok (NInt 50 :: cs)
      else if num_le_50 p then
        cs ← calc_percent ps; Ok (fifty_minus p :: fifty_plus p :: cs)
      else Raise (Exception "Percentile > 50")
  end.

(** The reductions [X.min()] and [X.max()]: a NaN entry makes the
    result NaN; an empty array has neither. *)
Definition f64_min2 (a b : float64) : float64 :=
  if SFleb a b || f64_is_nan a then a else b.

Definition f64_max2 (a b : float64) : float64 :=
  if SFleb b a || f64_is_nan a then a else b.

Definition arr_min (X : list float64) : outcome float64 :=
  match X with
  | [] => Raise ValueError
  | x :: xs => Ok (foldl f64_min2 x xs)
  end.

Definition arr_max (X : list float64) : outcome float64 :=
  match X with
  | [] => Raise ValueError
  | x :: xs => Ok (foldl f64_max2 x xs)
  end.

(** [np.linspace(start, stop, n + 1)]: the points [i * step + start]
    with [step = (stop - start) / n], the last one replaced by [stop]
    itself; when the step underflows to zero the points are
    [(i / n) * (stop - start) + start]; for [n = 0] the one point is
    [0 * (stop - start) + start]. *)
Definition linspace (start stop : float64) (n : nat) : list float64 :=
  let delta := f64_sub stop start in
  let ys := map (fun i => f64_of_Z (Z.of_nat i)) (seq 0 (S n)) in
  match n with
  | O => map (fun y => f64_add (f64_mul y delta) start) ys
  | _ =>
      let div := f64_of_Z (Z.of_nat n) in
      let step := f64_div delta div in
      let ys := if SFeqb step f64_zero
                then map (fun y => f64_mul (f64_div y div) delta) ys
                else map (fun y => f64_mul y step) ys in
      take n (map (fun y => f64_add y start) ys) ++ [stop]
  end.

(** [Y[mask]] for a boolean mask: the lengths must agree. *)
Fixpoint mask_select {A : Type} (mask : list bool) (Y : list A)
  : outcome (list A) :=
  match mask, Y with
  | [], [] => Ok []
  | b :: mask', y :: Y' =>
      r ← mask_select mask' Y'; Ok (if b then y :: r else r)
  | _, _ => Raise IndexError
  end.

(** The level as [np.percentile] sees it, a float64, and its test that
    the level divided by 100 lies between 0 and 1. *)
Definition level_f64 (q : pynum) : float64 :=
  match q with
  | NInt z => f64_of_Z z
  | NFloat f => f
  end.

Definition level_valid (q : pynum) : bool :=
  let r := f64_div (level_f64 q) (f64_of_Z 100) in
  SFleb f64_zero r && SFleb r (f64_of_Z 1).

(** [str(a) == str(b)]: the name of an int is its decimal form, the name
    of a float its shortest decimal form that reads back as the same
    float, which always differs from that of an int. *)
Definition same_name (a b : pynum) : bool :=
  match a, b with
  | NInt x, NInt y => x =? y
  | NFloat f, NFloat g => bool_decide (f = g)
  | _, _ => false
  end.

Fixpoint distinct_names (l : list pynum) : bool :=
  match l with
  | [] => true
  | x :: l' => negb (existsb (same_name x) l') && distinct_names l'
  end.

(** One record of [bin_data]: the stored percentiles, or missing data
    (NaN in every field) for an empty bin. *)
Inductive binrow :=
| BinValues (vals : list spec_float)
| BinMissing.

Section BinnedPlot.

(** Two library functions are parameters: the value that
    [np.percentile] interpolates from a non-empty sample for one level
    between 0 and 100, and the conversion of a float64 to the single
    precision of dtype ['f']. *)
Variable np_percentile : list float64 -> pynum -> float64.
Variable f32 : float64 -> spec_float.

(** [np.percentile(y, qs)] *)
Definition percentile (y : list float64) (qs : list pynum)
  : outcome (list float64) :=
  if forallb level_valid qs then Ok (map (np_percentile y) qs)
  else Raise ValueError.

(** The body of the loop over the bins. *)
Definition bin_row (X Y : list float64) (cp : list pynum) (lo hi : float64)
  : outcome binrow :=
  y ← mask_select (map (fun x => SFleb lo x && SFltb x hi) X) Y;
  match y with
  | [] => Ok BinMissing
  | _ => y_p ← percentile y cp; Ok (BinValues (map f32 y_p))
  end.

(** [binned_plot(X, Y, n, percentiles)]: the pair [(bin_data, bin_edges)]
    it returns.  The field names of [bin_data] are the computed
    percentiles; two equal ones are rejected by the dtype constructor. *)
Definition binned_plot (X Y : list float64) (n : nat) (percentiles : list pynum)
  : outcome (list binrow * list float64) :=
  cp ← calc_percent percentiles;
  lo ← arr_min X;
  hi ← arr_max X;
  let bin_edges := linspace (f64_mul lo f64_0_9999) (f64_mul hi f64_1_0001) n in
  if bool_decide (cp = []) then Unmodelled else
  if negb (distinct_names cp) then Raise ValueError else
  bin_data ← forM (fun i => bin_row X Y cp (nth i bin_edges f64_zero)
                              (nth (S i) bin_edges f64_zero))
                (seq 0 n);
  Ok (bin_data, bin_edges).

End BinnedPlot.

(** * Properties *)

(** ** The percentile gate of binned_plot *)

(** The level is above 50, and the level is at most 50. *)
Definition above_50 (p : pynum) : Prop :=
  match p with
  | NInt z => 50 < z
  | NFloat f => SFltb (f64_of_Z 50) f = true
  end.

Definition at_most_50 (p : pynum) : Prop :=
  match p with
  | NInt z => z <= 50
  | NFloat f => SFleb f (f64_of_Z 50) = true
  end.

(** The percentiles computed for one requested level. *)
Definition levels (p : pynum) : list pynum :=
  if num_is_zero p then [NInt 50] else [fifty_minus p; fifty_plus p].

Lemma above_50_rejected (p : pynum) :
  above_50 p -> num_is_zero p = false /\ num_le_50 p = false.
Proof.
  destruct p as [z|f]; cbn [above_50 num_is_zero num_le_50].
  - intros H. split; [apply Z.eqb_neq | apply Z.leb_gt]; lia.
  - destruct f as [s|s| |s m e]; try (intros H; discriminate H).
    + destruct s; [intros H; discriminate H|]. intros _. split; reflexivity.
    + destruct s; [intros H; discriminate H|]. intros H. split; [reflexivity|].
      unfold SFltb, SFleb in *.
      change (f64_of_Z 50) with (S754_finite false 7036874417766400 (-47)) in *.
      cbn [SFcompare] in *.
      rewrite (Z.compare_antisym e (-47)) in H.
      destruct (e ?= -47); cbn [CompOpp] in H; try discriminate H; try reflexivity.
      pose proof (Pos.compare_cont_antisym m 7036874417766400 Eq) as Ha.
      cbn [CompOpp] in Ha. rewrite <- Ha in H.
      destruct (Pos.compare_cont Eq m 7036874417766400); cbn [CompOpp] in H;
        try discriminate H; reflexivity.
Qed.

Lemma calc_percent_above (ps : list pynum) :
  Exists above_50 ps ->
  calc_percent ps = Raise (Exception "Percentile > 50").
Proof.
  induction 1 as [p ps Hp | p ps _ IH]; cbn [calc_percent].
  - destruct (above_50_rejected p Hp) as [-> ->]. reflexivity.
  - rewrite IH.
    destruct (num_is_zero p); [reflexivity|].
    destruct (num_le_50 p); reflexivity.
Qed.

Lemma at_most_50_accepted (p : pynum) : at_most_50 p -> num_le_50 p = true.
Proof.
  destruct p as [z|f]; cbn [at_most_50 num_le_50]; [|auto].
  intros H. apply Z.leb_le. exact H.
Qed.

Lemma calc_percent_accepts (ps : list pynum) :
  Forall at_most_50 ps ->
  calc_percent ps = Ok (flat_map levels ps).
Proof.
  induction 1 as [|p ps Hp _ IH]; [reflexivity|].
  cbn [calc_percent flat_map]. rewrite IH. unfold levels.
  destruct (num_is_zero p); [reflexivity|].
  rewrite (at_most_50_accepted p Hp). reflexivity.
Qed.

(** C9: [binned_plot] raises the percentile error as soon as one of the
    requested percentiles is above 50, whatever the data; when every
    requested percentile is at most 50 the gate lets all of them through,
    0 standing for the median and [p] for the pair [50 - p], [50 + p]. *)
Theorem binned_plot_percentile_gate
  (np_percentile : list float64 -> pynum -> float64)
  (f32 : float64 -> spec_float) (X Y : list float64) (n : nat)
  (ps : list pynum) :
  (Exists above_50 ps ->
   binned_plot np_percentile f32 X Y n ps = Raise (Exception "Percentile > 50")) /\
  (Forall at_most_50 ps ->
   calc_percent ps = Ok (flat_map levels ps)).
Proof.
  split; intros H.
  - unfold binned_plot. now rewrite (calc_percent_above ps H).
  - now apply calc_percent_accepts.
Qed.

Lemma binned_plot_percentile_gate_witness :
  binned_plot (fun _ _ => f64_nan) (fun f => f)
    [f64_of_Z 1; f64_of_Z 2] [f64_of_Z 3; f64_of_Z 4] 1 [NInt 0; NInt 60]
    = Raise (Exception "Percentile > 50") /\
  binned_plot (fun _ _ => f64_nan) (fun f => f)
    [f64_of_Z 1; f64_of_Z 2] [f64_of_Z 3; f64_of_Z 4] 1
    [NInt 0; NFloat (f64_div (f64_of_Z 101) (f64_of_Z 2))]
    = Raise (Exception "Percentile > 50") /\
  calc_percent [NInt 0; NInt 34] = Ok (flat_map levels [NInt 0; NInt 34]).
Proof.
  split; [|split].
  - apply (proj1 (binned_plot_percentile_gate (fun _ _ => f64_nan) (fun f => f)
                    [f64_of_Z 1; f64_of_Z 2] [f64_of_Z 3; f64_of_Z 4]
                    1 [NInt 0; NInt 60])).
    apply Exists_cons_tl, Exists_cons_hd. cbn. lia.
  - apply (proj1 (binned_plot_percentile_gate (fun _ _ => f64_nan) (fun f => f)
                    [f64_of_Z 1; f64_of_Z 2] [f64_of_Z 3; f64_of_Z 4]
                    1 [NInt 0; NFloat (f64_div (f64_of_Z 101) (f64_of_Z 2))])).
    apply Exists_cons_tl, Exists_cons_hd. vm_compute. reflexivity.
  - apply (proj2 (binned_plot_percentile_gate (fun _ _ => f64_nan) (fun f => f)
                    [] [] 0 [NInt 0; NInt 34])).
    repeat constructor; cbn; lia.
Defined.

(** ** Indexing: the selector gate *)

Lemma get_cat_some (σ : store) (l : loc) (o : CatObj) :
  st_cats σ !! l = Some o -> get_cat σ l = Ok o.
Proof. unfold get_cat. now intros ->. Qed.

Lemma norm_index_none (n : nat) (z : Z) :
  z < - Z.of_nat n \/ Z.of_nat n <= z -> norm_index n z = None.
Proof.
  intros H. unfold norm_index.
  destruct (0 <=? z) eqn:E1, (z <? Z.of_nat n) eqn:E2,
    (- Z.of_nat n <=? z) eqn:E3, (z <? 0) eqn:E4; cbn; try reflexivity; lia.
Qed.

Lemma norm_index_some (n : nat) (z : Z) (i : nat) :
  norm_index n z = Some i -> (i < n)%nat.
Proof.
  unfold norm_index.
  destruct (0 <=? z) eqn:E1, (z <? Z.of_nat n) eqn:E2,
    (- Z.of_nat n <=? z) eqn:E3, (z <? 0) eqn:E4; cbn;
    intros [= <-]; lia.
Qed.

(** A two-cluster catalog with 3 and 1 galaxies, one galaxy field [v],
    members held in an object array. *)
Definition ex_v0 : sarray :=
  SArray 3 [Column "v" I8 [CInt 11; CInt 12; CInt 13]].
Definition ex_v1 : sarray :=
  SArray 1 [Column "v" I8 [CInt 21]].
Definition ex_frame : DataFrame :=
  Frame [LInt 0; LInt 1]
    [Column "M" I8 [CInt 7; CInt 8]; Column "Ngal" I8 [CInt 3; CInt 1]].
Definition ex_self : loc := 2%positive.
Definition ex_store : store :=
  Store {[ ex_self := Cat (RDict 5%positive) (PFrame ex_frame) (GObject [ex_v0; ex_v1]) ]}
        {[ load_npy_default := ∅; 5%positive := {[ "name" := PStr "mock" ]} ]}
        ∅.

(** C5: a selector that is neither an int, a list nor an ndarray makes
    indexing fail with the unknown-key-type exception, whose message
    names the received type, and no new state is produced (an exception
    carries no store); a string selector is one such case.  An integer
    selector outside the table (5 on a catalog of two clusters) fails
    with the table's [IndexError] instead. *)
Theorem getitem_invalid_key (σ : store) (self : loc) (o : CatObj)
  (Hself : st_cats σ !! self = Some o) :
  (forall key, key_supported key = false ->
     getitem σ self key = Raise (Exception ("Unknown key type: " +:+ type_repr key))) /\
  (forall s, getitem σ self (KStr s) = Raise (Exception "Unknown key type: <class 'str'>")) /\
  (forall df z, prop o = PFrame df ->
     z < - Z.of_nat (df_len df) \/ Z.of_nat (df_len df) <= z ->
     getitem σ self (KInt z) = Raise IndexError).
Proof.
  split; [|split].
  - intros key Hk. unfold getitem. rewrite (get_cat_some _ _ _ Hself). cbn.
    now rewrite Hk.
  - intros s. unfold getitem. now rewrite (get_cat_some _ _ _ Hself).
  - intros df z Hp Hz. unfold getitem. rewrite (get_cat_some _ _ _ Hself). cbn.
    rewrite Hp. cbn. unfold df_iloc_int. now rewrite (norm_index_none _ _ Hz).
Qed.

Lemma getitem_invalid_key_witness :
  getitem ex_store ex_self (KStr "a") = Raise (Exception "Unknown key type: <class 'str'>") /\
  getitem ex_store ex_self (KInt 5) = Raise IndexError.
Proof.
  assert (H : st_cats ex_store !! ex_self
              = Some (Cat (RDict 5%positive) (PFrame ex_frame) (GObject [ex_v0; ex_v1])))
    by reflexivity.
  destruct (getitem_invalid_key ex_store ex_self _ H) as (_ & Hs & Hi).
  split.
  - apply Hs.
  - apply (Hi ex_frame 5); [reflexivity | right; cbn; lia].
Defined.

(** ** Indexing with a boolean *)

Lemma getitem_bool_counterexample :
  getitem ex_store ex_self (KBool true) <> getitem ex_store ex_self (KInt 1).
Proof. vm_compute. discriminate. Qed.

(** C10 (as amended): a Python bool passes the selector-type test, so
    [C[True]] and [C[False]] never raise the unknown-key-type exception;
    they are not read as the positions 1 and 0: on a catalog whose
    properties are a table, the positional indexer rejects the boolean
    with a [TypeError]. *)
Theorem getitem_bool (σ : store) (self : loc) (o : CatObj) (b : bool)
  (Hself : st_cats σ !! self = Some o) :
  (forall msg, getitem σ self (KBool b) <> Raise (Exception msg)) /\
  (forall df, prop o = PFrame df -> getitem σ self (KBool b) = Raise TypeError).
Proof.
  unfold getitem. rewrite (get_cat_some _ _ _ Hself). cbn. split.
  - intros msg. destruct (prop o); cbn; discriminate.
  - intros df ->. reflexivity.
Qed.

Lemma getitem_bool_witness :
  (forall msg, getitem ex_store ex_self (KBool true) <> Raise (Exception msg)) /\
  getitem ex_store ex_self (KBool true) = Raise TypeError.
Proof.
  assert (H : st_cats ex_store !! ex_self
              = Some (Cat (RDict 5%positive) (PFrame ex_frame) (GObject [ex_v0; ex_v1])))
    by reflexivity.
  destruct (getitem_bool ex_store ex_self _ true H) as [H1 H2].
  split; [exact H1 | exact (H2 ex_frame eq_refl)].
Defined.

(** ** Indexing: row selection *)

(** A position that Python accepts for a sequence of length [n]. *)
Definition in_range (n : nat) (z : Z) : Prop :=
  - Z.of_nat n <= z < Z.of_nat n.

(** The entries of [l] at the positions [zs], in the order of [zs]. *)
Definition sel {A : Type} (l : list A) (zs : list Z) : list A :=
  omap (fun z => norm_index (length l) z ≫= (l !!.)) zs.

Definition sel_cols (cols : list column) (zs : list Z) : list column :=
  map (fun c => Column (c_name c) (c_type c) (sel (c_data c) zs)) cols.

Lemma norm_index_in_range (n : nat) (z : Z) :
  in_range n z -> exists i, norm_index n z = Some i /\ (i < n)%nat.
Proof.
  unfold in_range, norm_index. intros H.
  destruct (0 <=? z) eqn:E1, (z <? Z.of_nat n) eqn:E2; cbn.
  - exists (Z.to_nat z). split; [reflexivity | lia].
  - lia.
  - destruct (- Z.of_nat n <=? z) eqn:E3, (z <? 0) eqn:E4; cbn; try lia.
    exists (Z.to_nat (z + Z.of_nat n)). split; [reflexivity | lia].
  - lia.
Qed.

Lemma pick_in_range {A : Type} (l : list A) (z : Z) :
  in_range (length l) z ->
  exists a, pick l z = Ok a /\ norm_index (length l) z ≫= (l !!.) = Some a.
Proof.
  intros H. destruct (norm_index_in_range _ _ H) as (i & Hi & Hlt).
  destruct (lookup_lt_is_Some_2 l i Hlt) as [a Ha].
  exists a. unfold pick. rewrite Hi. cbn. now rewrite Ha.
Qed.

Lemma picks_in_range {A : Type} (l : list A) (zs : list Z) :
  Forall (in_range (length l)) zs ->
  picks l zs = Ok (sel l zs) /\ length (sel l zs) = length zs.
Proof.
  unfold picks. induction 1 as [|z zs Hz _ [IH1 IH2]]; [now split|].
  destruct (pick_in_range l z Hz) as (a & Ha & Hs).
  cbn [forM]. rewrite Ha. cbn. rewrite IH1. cbn.
  unfold sel in *. cbn [omap list_omap]. rewrite Hs.
  split; [reflexivity | cbn; now rewrite IH2].
Qed.

Lemma index_kind_in_range (n : nat) (zs : list Z) :
  Forall (in_range n) zs -> index_kind_of n zs = IdxInt.
Proof.
  intros H. unfold index_kind_of.
  replace (forallb (in_axis n) zs) with true; [reflexivity|].
  symmetry. apply forallb_forall. intros z Hz. rewrite Forall_forall in H.
  apply list_elem_of_In, H in Hz. unfold in_range in Hz. unfold in_axis.
  apply andb_true_intro. split; [apply Z.leb_le | apply Z.ltb_lt]; lia.
Qed.

Lemma pd_positions_in_range (n : nat) (zs : list Z) :
  Forall (in_range n) zs -> pd_positions n zs = Ok zs.
Proof. intros H. unfold pd_positions. now rewrite (index_kind_in_range n zs H). Qed.

Lemma np_positions_in_range (n : nat) (zs : list Z) :
  Forall (in_range n) zs -> np_positions n zs = Ok zs.
Proof. intros H. unfold np_positions. now rewrite (index_kind_in_range n zs H). Qed.

Lemma forM_map_ok {A B : Type} (f : A -> outcome B) (g : A -> B) (l : list A) :
  Forall (fun a => f a = Ok (g a)) l -> forM f l = Ok (map g l).
Proof.
  induction 1 as [|a l Ha _ IH]; [reflexivity|].
  cbn. rewrite Ha. cbn. now rewrite IH.
Qed.

Lemma forM_comp_ok {A B C : Type} (f : B -> outcome C) (h : A -> B)
  (g : A -> C) (l : list A) :
  Forall (fun a => f (h a) = Ok (g a)) l -> forM f (map h l) = Ok (map g l).
Proof.
  induction 1 as [|a l Ha _ IH]; [reflexivity|].
  cbn. rewrite Ha. cbn. now rewrite IH.
Qed.

Lemma df_iloc_list_in_range (df : DataFrame) (zs : list Z) :
  Forall (fun c => length (c_data c) = df_len df) (df_cols df) ->
  Forall (in_range (df_len df)) zs ->
  df_iloc_list df zs = Ok (Frame (sel (df_index df) zs) (sel_cols (df_cols df) zs)).
Proof.
  intros Hlen Hzs. unfold df_iloc_list.
  rewrite (pd_positions_in_range _ _ Hzs). cbn [mbind outcome_bind].
  rewrite (proj1 (picks_in_range (df_index df) zs Hzs)). cbn.
  rewrite (forM_map_ok _ (fun c => Column (c_name c) (c_type c) (sel (c_data c) zs))).
  - reflexivity.
  - eapply Forall_impl; [exact Hlen|]. cbn. intros c Hc.
    assert (Hr : Forall (in_range (length (c_data c))) zs) by now rewrite Hc.
    now rewrite (proj1 (picks_in_range (c_data c) zs Hr)).
Qed.

Lemma new_cat_fresh (σ : store) (o : CatObj) :
  st_cats σ !! (new_cat σ o).1 = None.
Proof.
  cbn. apply not_elem_of_dom. apply is_fresh.
Qed.

(** The values of row [i] as [iloc] returns them. *)
Definition row_values (cols : list column) (i : nat) : list cell :=
  map (fun c => astype (row_type cols) (default (CInt 0) (c_data c !! i))) cols.

Lemma df_iloc_int_in_range (df : DataFrame) (z : Z) (i : nat) :
  Forall (fun c => length (c_data c) = df_len df) (df_cols df) ->
  norm_index (df_len df) z = Some i ->
  df_iloc_int df z
  = Ok (MkSeries (map LStr (df_columns df)) (row_type (df_cols df))
          (row_values (df_cols df) i)).
Proof.
  intros Hlen Hi. unfold df_iloc_int. rewrite Hi.
  rewrite (forM_map_ok _ (fun c => astype (row_type (df_cols df))
                                     (default (CInt 0) (c_data c !! i)))).
  - reflexivity.
  - eapply Forall_impl; [exact Hlen|]. cbn. intros c Hc.
    destruct (lookup_lt_is_Some_2 (c_data c) i) as [v Hv].
    + rewrite Hc. eapply norm_index_some, Hi.
    + now rewrite Hv.
Qed.

(** The member sequence is held in a numpy array (not in a Python list). *)
Definition held_in_array (g : galval) : bool :=
  match g with
  | GObject _ | GGrid _ _ _ => true
  | _ => false
  end.

Lemma row_type_sel_cols (cols : list column) (zs : list Z) :
  row_type (sel_cols cols zs) = row_type cols.
Proof.
  unfold row_type, sel_cols.
  replace (forallb _ (map _ cols)) with (forallb (fun c => bool_decide (c_type c = I8)) cols);
    [reflexivity|].
  induction cols as [|c cols IH]; [reflexivity|]. cbn. now rewrite IH.
Qed.

Lemma sel_single {A : Type} (l : list A) (z : Z) (i : nat) :
  norm_index (length l) z = Some i -> sel l [z] = option_list (l !! i).
Proof.
  intros Hi. unfold sel. cbn. rewrite Hi. cbn. now destruct (l !! i).
Qed.

(** The list-held catalog on which list selection fails. *)
Definition ex_list_store : store :=
  Store {[ ex_self := Cat RNone (PFrame ex_frame) (GList [ex_v0; ex_v1]) ]}
        {[ load_npy_default := ∅ ]} ∅.

Lemma getitem_list_result (σ : store) (self : loc) (o : CatObj)
  (df : DataFrame) (tabs : list sarray) (zs : list Z) (key : pykey) :
  st_cats σ !! self = Some o -> prop o = PFrame df ->
  gal_tables (gal o) = Some tabs ->
  Forall (fun c => length (c_data c) = df_len df) (df_cols df) ->
  length tabs = df_len df ->
  key = KList zs \/ key = KArray zs ->
  held_in_array (gal o) = true ->
  Forall (in_range (df_len df)) zs ->
  exists g,
    getitem σ self key
    = Ok (fresh (dom (st_cats σ)),
          set_cat σ (fresh (dom (st_cats σ)))
            (Cat (par o)
               (PFrame (Frame (range_index (length zs)) (sel_cols (df_cols df) zs)))
               g)) /\
    gal_tables g = Some (sel tabs zs) /\ held_in_array g = true.
Proof.
  intros Hself Hprop Htabs Hcols Hlen Hkey Harr Hzs.
  assert (Hp : prop_iloc (prop o) key
               = Ok (IFrame (Frame (sel (df_index df) zs) (sel_cols (df_cols df) zs)))).
  { rewrite Hprop. destruct Hkey as [-> | ->]; cbn;
      now rewrite (df_iloc_list_in_range df zs Hcols Hzs). }
  assert (Hsup : key_supported key = true) by (destruct Hkey as [-> | ->]; reflexivity).
  assert (Hidx : length (sel (df_index df) zs) = length zs)
    by (apply picks_in_range; exact Hzs).
  assert (Hts : picks tabs zs = Ok (sel tabs zs))
    by (apply picks_in_range; now rewrite Hlen).
  assert (Hpos : np_positions (length tabs) zs = Ok zs)
    by (apply np_positions_in_range; now rewrite Hlen).
  unfold getitem. rewrite (get_cat_some _ _ _ Hself). cbn. rewrite Hsup, Hp. cbn.
  unfold df_reset_index, df_len. cbn. rewrite Hidx.
  destruct (gal o) as [|ts|ts|dt k ts|t| |] eqn:Hg; try discriminate Harr;
    injection Htabs as ->.
  - exists (GObject (sel tabs zs)).
    destruct Hkey as [-> | ->]; cbn [gal_getitem]; rewrite Hpos; cbn [mbind outcome_bind];
      rewrite Hts; cbn; auto.
  - exists (GGrid dt k (sel tabs zs)).
    destruct Hkey as [-> | ->]; cbn [gal_getitem]; rewrite Hpos; cbn [mbind outcome_bind];
      rewrite Hts; cbn; auto.
Qed.

Lemma getitem_int_result (σ : store) (self : loc) (o : CatObj)
  (df : DataFrame) (tabs : list sarray) (z : Z) (i : nat) (t : sarray) :
  st_cats σ !! self = Some o -> prop o = PFrame df ->
  gal_tables (gal o) = Some tabs ->
  Forall (fun c => length (c_data c) = df_len df) (df_cols df) ->
  length tabs = df_len df ->
  norm_index (df_len df) z = Some i -> tabs !! i = Some t ->
  getitem σ self (KInt z)
  = Ok (fresh (dom (st_cats σ)),
        set_cat σ (fresh (dom (st_cats σ)))
          (Cat (par o)
             (PSeries (MkSeries (range_index (length (df_cols df)))
                         (row_type (df_cols df))
                         (row_values (df_cols df) i)))
             (GTable t))).
Proof.
  intros Hself Hprop Htabs Hcols Hlen Hi Ht.
  unfold getitem. rewrite (get_cat_some _ _ _ Hself). cbn. rewrite Hprop. cbn.
  rewrite (df_iloc_int_in_range df z i Hcols Hi). cbn.
  assert (Hpick : pick tabs z = Ok t)
    by (unfold pick; now rewrite Hlen, Hi, Ht).
  unfold s_reset_index. cbn. unfold df_columns. rewrite !List.length_map.
  destruct (gal o) as [|ts|ts|dt k ts|u| |] eqn:Hg; try discriminate Htabs;
    injection Htabs as <-; cbn; try (now rewrite Hpick).
  destruct i; discriminate Ht.
Qed.

(** Selection when the members are held in a numpy array: a list or an
    ndarray of positions selects the clusters at these positions, in
    that order: the rows of the property table, relabelled 0 .. k-1,
    and the galaxy tables; in particular row 0 and table 0 of [C[[z]]]
    are row [z] and table [z] of [C].  A single integer gives the values
    of its row in a series relabelled by position and its galaxy table
    itself.  In both cases the result is a new instance that carries
    the very metadata reference of the source, and neither the source
    instance nor any dictionary is changed. *)
Theorem getitem_selects (σ : store) (self : loc) (o : CatObj)
  (df : DataFrame) (tabs : list sarray)
  (Hself : st_cats σ !! self = Some o)
  (Hprop : prop o = PFrame df)
  (Htabs : gal_tables (gal o) = Some tabs)
  (Hcols : Forall (fun c => length (c_data c) = df_len df) (df_cols df))
  (Hlen : length tabs = df_len df) :
  let new := fresh (dom (st_cats σ)) in
  (forall zs key,
     key = KList zs \/ key = KArray zs ->
     held_in_array (gal o) = true ->
     Forall (in_range (df_len df)) zs ->
     exists g,
       getitem σ self key
       = Ok (new, set_cat σ new
                    (Cat (par o)
                       (PFrame (Frame (range_index (length zs))
                                  (sel_cols (df_cols df) zs))) g)) /\
       gal_tables g = Some (sel tabs zs) /\ held_in_array g = true) /\
  (forall z, in_range (df_len df) z ->
     df_iloc_int (Frame (range_index 1) (sel_cols (df_cols df) [z])) 0
       = df_iloc_int df z /\
     pick (sel tabs [z]) 0 = pick tabs z) /\
  (forall z i t,
     norm_index (df_len df) z = Some i -> tabs !! i = Some t ->
     getitem σ self (KInt z)
     = Ok (new, set_cat σ new
                  (Cat (par o)
                     (PSeries (MkSeries (range_index (length (df_cols df)))
                                 (row_type (df_cols df))
                                 (row_values (df_cols df) i)))
                     (GTable t)))) /\
  (new <> self /\ st_cats σ !! new = None /\
   forall c, st_cats (set_cat σ new c) !! self = Some o /\
             st_dicts (set_cat σ new c) = st_dicts σ).
Proof.
  intros new.
  assert (Hfresh : st_cats σ !! new = None)
    by (apply not_elem_of_dom, is_fresh).
  assert (Hne : new <> self) by (intros ->; congruence).
  split; [|split; [|split]].
  - intros zs key Hkey Harr Hzs.
    now apply (getitem_list_result σ self o df tabs zs key).
  - intros z Hz. destruct (norm_index_in_range _ _ Hz) as (i & Hi & Hlt). split.
    + rewrite (df_iloc_int_in_range df z i Hcols Hi).
      unfold df_iloc_int.
      change (norm_index (df_len (Frame (range_index 1) (sel_cols (df_cols df) [z]))) 0)
        with (Some 0%nat).
      cbv beta iota. cbn [df_cols].
      rewrite !row_type_sel_cols.
      assert (Hv : forM (fun c => match c_data c !! 0%nat with
                                  | Some v => Ok (astype (row_type (df_cols df)) v)
                                  | None => Unmodelled
                                  end) (sel_cols (df_cols df) [z])
                   = Ok (row_values (df_cols df) i)).
      { unfold sel_cols. apply forM_comp_ok.
        eapply Forall_impl; [exact Hcols|]. intros c Hl. cbn beta in Hl. cbn [c_data].
        rewrite (sel_single (c_data c) z i) by now rewrite Hl.
        destruct (lookup_lt_is_Some_2 (c_data c) i) as [v Hv]; [lia|].
        now rewrite Hv. }
      rewrite Hv. cbn. unfold df_columns, sel_cols. cbn.
      rewrite !map_map. reflexivity.
    + unfold pick at 2. rewrite Hlen, Hi.
      rewrite (sel_single tabs z i) by now rewrite Hlen.
      destruct (tabs !! i); reflexivity.
  - intros z i t Hi Ht.
    now apply (getitem_int_result σ self o df tabs z i t).
  - split; [exact Hne|]. split; [exact Hfresh|]. intros c. split; [|reflexivity].
    cbn. rewrite lookup_insert_ne by exact Hne. exact Hself.
Qed.

Lemma getitem_selects_witness :
  exists g,
    getitem ex_store ex_self (KList [1; 0])
    = Ok (fresh (dom (st_cats ex_store)),
          set_cat ex_store (fresh (dom (st_cats ex_store)))
            (Cat (RDict 5%positive)
               (PFrame (Frame (range_index 2) (sel_cols (df_cols ex_frame) [1; 0])))
               g)) /\
    gal_tables g = Some (sel [ex_v0; ex_v1] [1; 0]) /\ held_in_array g = true.
Proof.
  assert (Hc : Forall (fun c => length (c_data c) = df_len ex_frame) (df_cols ex_frame))
    by (repeat constructor).
  assert (Hz : Forall (in_range (df_len ex_frame)) [1; 0])
    by (repeat constructor; cbn; lia).
  exact (proj1 (getitem_selects ex_store ex_self _ ex_frame [ex_v0; ex_v1]
                  eq_refl eq_refl eq_refl Hc eq_refl)
           [1; 0] (KList [1; 0]) (or_introl eq_refl) eq_refl Hz).
Defined.

(** C4 (the code at failing inputs): with the members held in a Python
    list, as the class documents them, a list of positions does not
    select the clusters: indexing raises [TypeError], whatever the
    in-range positions, since a list cannot be indexed by a list.  A
    single integer does not give a catalog of one cluster either: the
    properties of the result are a series of the row's values whose
    labels are 0 .. ncols-1, the column names being lost, its members
    are the galaxy table itself, and its length is the number of
    property columns. *)
Theorem getitem_list_held_members (σ : store) (self : loc) (o : CatObj)
  (df : DataFrame) (tabs : list sarray)
  (Hself : st_cats σ !! self = Some o)
  (Hprop : prop o = PFrame df)
  (Hgal : gal o = GList tabs)
  (Hcols : Forall (fun c => length (c_data c) = df_len df) (df_cols df))
  (Hlen : length tabs = df_len df) :
  (forall zs, Forall (in_range (df_len df)) zs ->
     getitem σ self (KList zs) = Raise TypeError) /\
  (forall z i t,
     norm_index (df_len df) z = Some i -> tabs !! i = Some t ->
     exists new σ',
       getitem σ self (KInt z) = Ok (new, σ') /\
       st_cats σ' !! new
       = Some (Cat (par o)
                 (PSeries (MkSeries (range_index (length (df_cols df)))
                             (row_type (df_cols df))
                             (row_values (df_cols df) i)))
                 (GTable t)) /\
       len σ' new = Ok (length (df_cols df))).
Proof.
  split.
  - intros zs Hzs. unfold getitem. rewrite (get_cat_some _ _ _ Hself).
    cbn [mbind outcome_bind key_supported]. rewrite Hprop. cbn [prop_iloc].
    rewrite (df_iloc_list_in_range df zs Hcols Hzs).
    cbn [mbind outcome_bind reset_index]. now rewrite Hgal.
  - intros z i t Hi Ht.
    assert (Hg : gal_tables (gal o) = Some tabs) by now rewrite Hgal.
    eexists _, _. split; [|split].
    + exact (getitem_int_result σ self o df tabs z i t Hself Hprop Hg Hcols Hlen Hi Ht).
    + cbn [set_cat st_cats]. apply lookup_insert_eq.
    + unfold len, get_cat. cbn [set_cat st_cats]. rewrite lookup_insert_eq.
      cbn. unfold range_index. now rewrite List.length_map, length_seq.
Qed.

Lemma getitem_list_held_members_witness :
  getitem ex_list_store ex_self (KList [0]) = Raise TypeError /\
  exists new σ',
    getitem ex_list_store ex_self (KInt 0) = Ok (new, σ') /\
    st_cats σ' !! new
    = Some (Cat RNone
              (PSeries (MkSeries [LInt 0; LInt 1] I8 [CInt 7; CInt 3]))
              (GTable ex_v0)) /\
    len σ' new = Ok 2%nat.
Proof.
  assert (Hc : Forall (fun c => length (c_data c) = df_len ex_frame) (df_cols ex_frame))
    by (repeat constructor).
  destruct (getitem_list_held_members ex_list_store ex_self _ ex_frame [ex_v0; ex_v1]
              eq_refl eq_refl eq_refl Hc eq_refl) as [H1 H2].
  split.
  - apply H1. repeat constructor; cbn; lia.
  - exact (H2 0 0%nat ex_v0 eq_refl eq_refl).
Defined.

(** ** Concatenation *)

(** Two catalogs of one cluster with two galaxies each, members held in
    Python lists as the class documents them. *)
Definition ex_a_frame : DataFrame :=
  Frame [LInt 0] [Column "M" I8 [CInt 7]; Column "Ngal" I8 [CInt 2]].
Definition ex_b_frame : DataFrame :=
  Frame [LInt 0] [Column "M" I8 [CInt 9]; Column "Ngal" I8 [CInt 2]].
Definition ex_a_tab : sarray := SArray 2 [Column "v" I8 [CInt 11; CInt 12]].
Definition ex_b_tab : sarray := SArray 2 [Column "v" I8 [CInt 21; CInt 22]].
Definition ex_a : loc := 2%positive.
Definition ex_b : loc := 3%positive.
Definition ex_add_store : store :=
  Store {[ ex_a := Cat (RDict 5%positive) (PFrame ex_a_frame) (GList [ex_a_tab]);
           ex_b := Cat RNone (PFrame ex_b_frame) (GList [ex_b_tab]) ]}
        {[ load_npy_default := ∅; 5%positive := {[ "name" := PStr "mock" ]} ]}
        ∅.

(** C3 (the code at a failing input): adding two one-cluster catalogs
    whose members are lists of one table of two galaxies gives two
    property rows, relabelled 0 and 1, and the metadata of the left
    operand, but members that are a single flat table of four galaxy
    records instead of the sequence of the two tables: [np.append]
    flattened both operands. *)
Theorem add_flattens_equal_length_members :
  exists l σ,
    add ex_add_store ex_a ex_b = Ok (l, σ) /\
    st_cats σ !! l
    = Some (Cat (RDict 5%positive)
              (PFrame (Frame [LInt 0; LInt 1]
                         [Column "M" I8 [CInt 7; CInt 9];
                          Column "Ngal" I8 [CInt 2; CInt 2]]))
              (GTable (SArray 4 [Column "v" I8 [CInt 11; CInt 12; CInt 21; CInt 22]]))) /\
    gal_tables (GTable (SArray 4 [Column "v" I8 [CInt 11; CInt 12; CInt 21; CInt 22]]))
    = None /\
    len σ l = Ok 2%nat.
Proof.
  eexists _, _. vm_compute. repeat split.
Qed.

(** Concatenation does what is expected of it when both member
    sequences are object arrays. *)
Lemma add_object_arrays (σ : store) (a b : loc) (oa ob : CatObj)
  (da db : DataFrame) (ta tb : list sarray) :
  st_cats σ !! a = Some oa -> st_cats σ !! b = Some ob ->
  prop oa = PFrame da -> prop ob = PFrame db ->
  df_columns da = df_columns db -> NoDup (df_columns da) ->
  gal oa = GObject ta -> gal ob = GObject tb ->
  add σ a b
  = Ok (new_cat σ
          (Cat (par oa)
             (PFrame (Frame (range_index (df_len da + df_len db))
                        (zip_with stack_col (df_cols da) (df_cols db))))
             (GObject (ta ++ tb)))).
Proof.
  intros Ha Hb Hpa Hpb Hcols Hnd Hga Hgb.
  unfold add. rewrite (get_cat_some _ _ _ Ha), (get_cat_some _ _ _ Hb). cbn.
  rewrite Hpa, Hpb, Hga, Hgb. cbn. unfold df_append.
  rewrite (bool_decide_eq_true_2 _ Hcols), (bool_decide_eq_true_2 _ Hnd). cbn.
  unfold df_reset_index, df_len. cbn. now rewrite length_app.
Qed.

(** ** The pickle round trip *)

(** The metadata of [o2] in [σ2] is a copy of the metadata of [o] in [σ]. *)
Definition same_metadata (σ : store) (o : CatObj) (σ2 : store) (o2 : CatObj)
  : Prop :=
  match par o with
  | RNone => par o2 = RNone
  | RDict l => exists l', par o2 = RDict l' /\ st_dicts σ2 !! l' = st_dicts σ !! l
  end.

Lemma pickle_dump_ok (σ : store) (o : CatObj) :
  gal o <> GOther ->
  par o = RNone \/ (exists l, par o = RDict l /\ is_Some (st_dicts σ !! l)) ->
  exists d, pickle_dump σ o = Ok (Pickled d (prop o) (gal o)) /\
            match par o with
            | RNone => d = None
            | RDict l => d = st_dicts σ !! l
            end.
Proof.
  intros Hg Hp. unfold pickle_dump.
  destruct Hp as [-> | (l & -> & [d Hd])].
  - exists None. cbn. split; [|reflexivity]. destruct (gal o); congruence.
  - exists (Some d). rewrite Hd. cbn. split; [|reflexivity].
    destruct (gal o); congruence.
Qed.

Lemma pickle_roundtrip (σ : store) (self target : loc) (filename : string)
  (o o' : CatObj)
  (Hself : st_cats σ !! self = Some o)
  (Htarget : st_cats σ !! target = Some o')
  (Hgal : gal o <> GOther)
  (Hpar : par o = RNone \/ (exists l, par o = RDict l /\ is_Some (st_dicts σ !! l))) :
  exists σ1 σ2 o2,
    save σ self filename = Ok (tt, σ1) /\
    load σ1 target filename = Ok (target, σ2) /\
    st_cats σ2 !! target = Some o2 /\
    prop o2 = prop o /\ gal o2 = gal o /\ same_metadata σ o σ2 o2 /\
    (target <> self -> st_cats σ2 !! self = Some o).
Proof.
  destruct (pickle_dump_ok σ o Hgal Hpar) as (d & Hdump & Hd).
  assert (Hsave : save σ self filename
                  = Ok (tt, write_file σ filename
                              (PickleFile (Pickled d (prop o) (gal o))))).
  { unfold save. rewrite (get_cat_some _ _ _ Hself).
    change (pickle_dump σ o ≫= (fun p => Ok (tt, write_file σ filename (PickleFile p)))
            = Ok (tt, write_file σ filename (PickleFile (Pickled d (prop o) (gal o))))).
    now rewrite Hdump. }
  set (σ1 := write_file σ filename (PickleFile (Pickled d (prop o) (gal o)))) in *.
  assert (Hfile : st_files σ1 !! filename
                  = Some (PickleFile (Pickled d (prop o) (gal o))))
    by apply lookup_insert_eq.
  set (r := pickle_load σ1 (Pickled d (prop o) (gal o))).
  assert (Hload : exists pr,
             st_cats r.2 !! r.1 = Some (Cat pr (prop o) (gal o)) /\
             st_cats r.2 !! target = Some o' /\
             (target <> self -> st_cats r.2 !! self = Some o) /\
             r.1 <> target /\ r.1 <> self /\
             match par o with
             | RNone => pr = RNone
             | RDict l => exists l', pr = RDict l' /\ st_dicts r.2 !! l' = st_dicts σ !! l
             end).
  { set (nc := fresh (dom (st_cats σ))).
    assert (Hnc : st_cats σ !! nc = None) by (apply not_elem_of_dom, is_fresh).
    assert (nc <> target) by congruence. assert (nc <> self) by congruence.
    subst r. unfold pickle_load. cbn [pk_par pk_prop pk_gal].
    destruct d as [d|].
    - exists (RDict (fresh (dom (st_dicts σ)))).
      cbn [new_dict new_cat set_cat st_cats st_dicts fst snd σ1 write_file].
      fold nc. rewrite lookup_insert_eq, !lookup_insert_ne by congruence.
      repeat split; auto.
      destruct (par o) as [|l]; [discriminate Hd|].
      eexists. split; [reflexivity|]. now rewrite lookup_insert_eq.
    - exists RNone.
      cbn [new_dict new_cat set_cat st_cats st_dicts fst snd σ1 write_file].
      fold nc. rewrite lookup_insert_eq, !lookup_insert_ne by congruence.
      repeat split; auto.
      destruct (par o) as [|l]; [reflexivity|].
      destruct Hpar as [Hp | (l0 & Hp & [d0 Hd0])]; [discriminate Hp|].
      injection Hp as <-. congruence. }
  destruct Hload as (pr & Hnew & Htg & Hsrc & Hn1 & Hn2 & Hmeta).
  exists σ1, (set_cat r.2 target (Cat pr (prop o) (gal o))), (Cat pr (prop o) (gal o)).
  split; [exact Hsave|]. split.
  - unfold load. rewrite Hfile. fold r. destruct r as [nc σ'].
    cbn [fst snd] in *. unfold get_cat. rewrite Hnew, Htg. reflexivity.
  - cbn [set_cat st_cats st_dicts par prop gal].
    rewrite lookup_insert_eq.
    split; [reflexivity|]. split; [reflexivity|]. split; [reflexivity|]. split.
    + unfold same_metadata. cbn [par st_dicts]. exact Hmeta.
    + intros Hne. rewrite lookup_insert_ne by congruence. auto.
Qed.

(** C7: [save] followed by [load] of the same file name puts into the
    loading instance the properties and the members of the saved one,
    unchanged, and a copy of its metadata; [load] updates the instance
    it is called on and returns that instance.  ([pickle] is taken to
    write and read the object graph by value.) *)
Theorem save_load_roundtrip (σ : store) (self target : loc) (filename : string)
  (o o' : CatObj)
  (Hself : st_cats σ !! self = Some o)
  (Htarget : st_cats σ !! target = Some o')
  (Hgal : gal o <> GOther)
  (Hpar : par o = RNone \/ (exists l, par o = RDict l /\ is_Some (st_dicts σ !! l))) :
  exists σ1 σ2 o2,
    save σ self filename = Ok (tt, σ1) /\
    load σ1 target filename = Ok (target, σ2) /\
    st_cats σ2 !! target = Some o2 /\
    prop o2 = prop o /\ gal o2 = gal o /\ same_metadata σ o σ2 o2 /\
    (target <> self -> st_cats σ2 !! self = Some o).
Proof.
  exact (pickle_roundtrip σ self target filename o o' Hself Htarget Hgal Hpar).
Qed.

(** A second, empty instance in the store of the example catalog, as
    [Catalog()] creates it. *)
Definition ex_target : loc := 7%positive.
Definition ex_store2 : store :=
  set_cat ex_store ex_target (Cat RNone PNone GNone).

Lemma save_load_roundtrip_witness :
  exists σ1 σ2 o2,
    save ex_store2 ex_self "cat.pkl" = Ok (tt, σ1) /\
    load σ1 ex_target "cat.pkl" = Ok (ex_target, σ2) /\
    st_cats σ2 !! ex_target = Some o2 /\
    prop o2 = PFrame ex_frame /\ gal o2 = GObject [ex_v0; ex_v1] /\
    same_metadata ex_store2
      (Cat (RDict 5%positive) (PFrame ex_frame) (GObject [ex_v0; ex_v1])) σ2 o2 /\
    (ex_target <> ex_self ->
     st_cats σ2 !! ex_self
     = Some (Cat (RDict 5%positive) (PFrame ex_frame) (GObject [ex_v0; ex_v1]))).
Proof.
  apply (save_load_roundtrip ex_store2 ex_self ex_target "cat.pkl"
           (Cat (RDict 5%positive) (PFrame ex_frame) (GObject [ex_v0; ex_v1]))
           (Cat RNone PNone GNone)).
  - reflexivity.
  - reflexivity.
  - discriminate.
  - right. exists 5%positive. split; [reflexivity|]. eexists. reflexivity.
Defined.

(** ** binned_plot with a single bin *)

(** C8 (the code at failing inputs): the single bin does not span the
    whole X range when X has negative values, the edges being 0.9999
    times the minimum and 1.0001 times the maximum.  With X = [-1, 1]
    and Y = [0, 10] the first edge lies above -1, the point at -1 is
    left out and the entry of the bin is the percentile of the sample
    [10] alone, not the median of all Y values; with X = [-1] the bin
    holds no point and its entry is missing. *)
Theorem binned_plot_single_bin_drops_points
  (np_percentile : list float64 -> pynum -> float64)
  (f32 : float64 -> spec_float) :
  binned_plot np_percentile f32
    [f64_of_Z (-1); f64_of_Z 1] [f64_of_Z 0; f64_of_Z 10] 1 [NInt 0]
  = Ok ([BinValues [f32 (np_percentile [f64_of_Z 10] (NInt 50))]],
        [f64_mul (f64_of_Z (-1)) f64_0_9999; f64_mul (f64_of_Z 1) f64_1_0001]) /\
  SFltb (f64_of_Z (-1)) (f64_mul (f64_of_Z (-1)) f64_0_9999) = true /\
  binned_plot np_percentile f32 [f64_of_Z (-1)] [f64_of_Z 3] 1 [NInt 0]
  = Ok ([BinMissing],
        [f64_mul (f64_of_Z (-1)) f64_0_9999; f64_mul (f64_of_Z (-1)) f64_1_0001]).
Proof.
  repeat split; vm_compute; reflexivity.
Qed.

(** ** float64 and the integers below 2^53 *)

Lemma digits2_size p : digits2_pos p = Pos.size p.
Proof. induction p; cbn; congruence. Qed.

Lemma digits2_iter p k : digits2_pos (Pos.iter xO p k) = (digits2_pos p + k)%positive.
Proof.
  revert p. induction k using Pos.peano_ind; intros p.
  - cbn. lia.
  - rewrite Pos.iter_succ. cbn. rewrite IHk. lia.
Qed.

Lemma pos_iter_xO p k : Z.pos (Pos.iter xO p k) = Z.pos p * 2 ^ Z.pos k.
Proof.
  revert p. induction k using Pos.peano_ind; intros p.
  - cbn. lia.
  - rewrite Pos.iter_succ. rewrite Pos2Z.inj_xO, IHk.
    rewrite Pos2Z.inj_succ, Z.pow_succ_r by lia. lia.
Qed.

Lemma size_bound p : Z.pos p < 2 ^ 53 -> Z.pos (Pos.size p) <= 53.
Proof.
  intros H. pose proof (Pos.size_le p) as Hle.
  destruct (Z.le_gt_cases (Z.pos (Pos.size p)) 53) as [|Hgt]; [assumption|].
  exfalso.
  assert (2 ^ 54 <= 2 ^ Z.pos (Pos.size p)) by (apply Z.pow_le_mono_r; lia).
  assert (Z.pos (2 ^ Pos.size p) <= Z.pos (p~0)) by exact Hle.
  rewrite Pos2Z.inj_pow in H1. lia.
Qed.

(** The mantissa and exponent of the float64 that holds a positive
    integer below 2^53: the integer shifted up to 53 binary digits. *)
Definition canon (p : positive) : positive * Z :=
  let d := Z.pos (digits2_pos p) in
  if d =? 53 then (p, 0) else (Pos.iter xO p (Z.to_pos (53 - d)), d - 53).

Lemma f64_of_pos p : Z.pos p < 2 ^ 53 ->
  f64_of_Z (Z.pos p) = S754_finite false (fst (canon p)) (snd (canon p)).
Proof.
  intros Hp. pose proof (size_bound p Hp) as Hd. rewrite <- digits2_size in Hd.
  unfold f64_of_Z, binary_normalize, binary_round, canon.
  remember (Z.pos (digits2_pos p)) as d eqn:Ed.
  assert (Hd1 : 1 <= d) by lia.
  assert (Hfexp : fexp 53 1024 (d + 0) = d - 53).
  { unfold fexp, emin. lia. }
  rewrite Hfexp. unfold shl_align.
  destruct (d =? 53) eqn:E.
  - apply Z.eqb_eq in E. subst d. rewrite E.
    change (53 - 53 - 0) with 0. cbv iota. cbn [fst snd].
    unfold binary_round_aux, shr_fexp. cbn [Zdigits2]. rewrite E.
    change (fexp 53 1024 (53 + 0) - 0) with 0.
    cbn [shr shr_m loc_of_shr_record round_nearest_even shr_record_of_loc Zdigits2].
    rewrite E. change (fexp 53 1024 (53 + 0) - 0) with 0.
    reflexivity.
  - apply Z.eqb_neq in E.
    assert (Hs : d - 53 - 0 = Z.neg (Z.to_pos (53 - d))).
    { rewrite <- Pos2Z.opp_pos, Z2Pos.id by lia. lia. }
    rewrite Hs. cbv iota. cbn [fst snd].
    unfold binary_round_aux, shr_fexp. cbn [Zdigits2 shr_record_of_loc].
    rewrite digits2_iter.
    assert (Hdg : Z.pos (digits2_pos p + Z.to_pos (53 - d)) = 53).
    { rewrite Pos2Z.inj_add, Z2Pos.id by lia. lia. }
    rewrite Hdg.
    assert (Hf2 : fexp 53 1024 (53 + (d - 53)) - (d - 53) = 0).
    { unfold fexp, emin. lia. }
    rewrite Hf2. cbn [shr shr_m loc_of_shr_record round_nearest_even shr_record_of_loc].
    cbn [Zdigits2]. rewrite digits2_iter, Hdg, Hf2.
    cbn [shr shr_m].
    assert (Hle : (d - 53 <=? 1024 - 53) = true) by (apply Z.leb_le; lia).
    rewrite Hle. reflexivity.
Qed.

Lemma f64_trunc_of_Z n : 0 <= n < 2 ^ 53 -> f64_trunc (f64_of_Z n) = Some n.
Proof.
  intros [H0 H1]. destruct n as [|p|p]; [reflexivity| |lia].
  rewrite (f64_of_pos p H1). unfold canon.
  pose proof (size_bound p H1) as Hd. rewrite <- digits2_size in Hd.
  remember (Z.pos (digits2_pos p)) as d eqn:Ed.
  destruct (d =? 53) eqn:E; cbn [fst snd f64_trunc].
  - cbn. f_equal. lia.
  - apply Z.eqb_neq in E.
    assert (Hneg : (0 <=? d - 53) = false) by (apply Z.leb_gt; lia).
    rewrite Hneg. rewrite pos_iter_xO.
    rewrite Z2Pos.id by lia. replace (- (d - 53)) with (53 - d) by lia.
    rewrite Z.div_mul; [reflexivity|]. apply Z.pow_nonzero; lia.
Qed.

Lemma canon_spec p : Z.pos p < 2 ^ 53 ->
  Z.pos (fst (canon p)) = Z.pos p * 2 ^ (53 - Z.pos (digits2_pos p)) /\
  snd (canon p) = Z.pos (digits2_pos p) - 53 /\
  Z.pos (digits2_pos p) <= 53.
Proof.
  intros H1. pose proof (size_bound p H1) as Hd. rewrite <- digits2_size in Hd.
  unfold canon. remember (Z.pos (digits2_pos p)) as d eqn:Ed.
  destruct (d =? 53) eqn:E; cbn [fst snd].
  - apply Z.eqb_eq in E. rewrite E. cbn. lia.
  - apply Z.eqb_neq in E. rewrite pos_iter_xO, Z2Pos.id by lia. lia.
Qed.

Lemma size_mono p q : (p <= q)%positive -> (Pos.size p <= Pos.size q)%positive.
Proof.
  intros H.
  destruct (Z.le_gt_cases (Z.pos (Pos.size p)) (Z.pos (Pos.size q))) as [|Hgt]; [lia|].
  exfalso. pose proof (Pos.size_le p) as H0. pose proof (Pos.size_gt q) as H1.
  assert (H3 : 2 ^ (Z.pos (Pos.size q) + 1) <= 2 ^ Z.pos (Pos.size p))
    by (apply Z.pow_le_mono_r; lia).
  rewrite Z.pow_add_r in H3 by lia.
  assert (H4 : Z.pos (2 ^ Pos.size p) <= Z.pos p~0) by exact H0.
  assert (H5 : Z.pos q < Z.pos (2 ^ Pos.size q)) by exact H1.
  rewrite Pos2Z.inj_pow in *. lia.
Qed.

Lemma f64_ltb_of_Z a b : 0 <= a < 2 ^ 53 -> 0 <= b < 2 ^ 53 ->
  SFltb (f64_of_Z a) (f64_of_Z b) = (a <? b).
Proof.
  intros [Ha0 Ha1] [Hb0 Hb1].
  destruct a as [|p|p]; [| |lia]; destruct b as [|q|q]; try lia.
  - reflexivity.
  - rewrite (f64_of_pos q Hb1). reflexivity.
  - rewrite (f64_of_pos p Ha1). reflexivity.
  - rewrite (f64_of_pos p Ha1), (f64_of_pos q Hb1).
    destruct (canon_spec p Ha1) as (Hm1 & He1 & Hd1).
    destruct (canon_spec q Hb1) as (Hm2 & He2 & Hd2).
    rewrite !digits2_size in Hm1, He1, Hd1, Hm2, He2, Hd2.
    unfold SFltb, SFcompare. rewrite He1, He2.
    destruct (Z.compare_spec (Z.pos (Pos.size p) - 53) (Z.pos (Pos.size q) - 53)) as [E|E|E].
    + rewrite Pos.compare_cont_spec. cbn [Pos.switch_Eq].
      assert (Hc : (fst (canon p) ?= fst (canon q))%positive = (Z.pos p ?= Z.pos q)).
      { change ((Z.pos (fst (canon p)) ?= Z.pos (fst (canon q))) = (Z.pos p ?= Z.pos q)).
        rewrite Hm1, Hm2. replace (Z.pos (Pos.size q)) with (Z.pos (Pos.size p)) by lia.
        rewrite <- Zmult_compare_compat_r; [reflexivity|].
        apply Z.lt_gt, Z.pow_pos_nonneg; lia. }
      rewrite Hc. unfold Z.ltb. destruct (Z.pos p ?= Z.pos q); reflexivity.
    + symmetry. apply Z.ltb_lt.
      destruct (Z.lt_ge_cases (Z.pos p) (Z.pos q)) as [|Hge]; [assumption|].
      exfalso. assert (Hs : (Pos.size q <= Pos.size p)%positive) by (apply size_mono; lia). lia.
    + symmetry. apply Z.ltb_ge.
      destruct (Z.le_gt_cases (Z.pos q) (Z.pos p)) as [|Hgt]; [assumption|].
      exfalso. assert (Hs : (Pos.size p <= Pos.size q)%positive) by (apply size_mono; lia). lia.
Qed.

(** ** Named entries *)

Lemma set_named_app {A : Type} (name : A -> string) (f : string)
  (upd : A -> outcome A) (pre post : list A) (c c' : A) :
  f ∉ map name pre -> name c = f -> upd c = Ok c' ->
  set_named name f upd (pre ++ c :: post) = Ok (pre ++ c' :: post).
Proof.
  intros Hpre Hc Hupd. induction pre as [|a pre IH]; cbn.
  - rewrite Hc, String.eqb_refl, Hupd. reflexivity.
  - destruct (String.eqb (name a) f) eqn:E.
    + apply String.eqb_eq in E. exfalso. apply Hpre. cbn. rewrite E. left.
    + rewrite IH; [reflexivity|]. intros Hin. apply Hpre. cbn. now right.
Qed.

Lemma find_named_app {A : Type} (name : A -> string) (f : string)
  (pre post : list A) (c : A) :
  f ∉ map name pre -> name c = f ->
  List.find (fun a => String.eqb (name a) f) (pre ++ c :: post) = Some c.
Proof.
  intros Hpre Hc. induction pre as [|a pre IH]; cbn.
  - now rewrite Hc, String.eqb_refl.
  - destruct (String.eqb (name a) f) eqn:E.
    + apply String.eqb_eq in E. exfalso. apply Hpre. cbn. rewrite E. left.
    + apply IH. intros Hin. apply Hpre. cbn. now right.
Qed.

Lemma find_named_nodup {A : Type} (name : A -> string) (l : list A) (c : A) :
  NoDup (map name l) -> c ∈ l ->
  List.find (fun a => String.eqb (name a) (name c)) l = Some c.
Proof.
  intros Hnd Hin. apply list_elem_of_split in Hin. destruct Hin as (pre & post & ->).
  apply find_named_app; [|reflexivity].
  rewrite map_app in Hnd. cbn in Hnd. apply NoDup_app in Hnd.
  destruct Hnd as (_ & Hdis & _). intros Hin. apply (Hdis _ Hin). left.
Qed.

Lemma count_named_nodup (cols : list column) (c : column) :
  NoDup (map c_name cols) -> c ∈ cols -> count_col (c_name c) cols = 1%nat.
Proof.
  unfold count_col. induction cols as [|a cols IH]; intros Hnd Hin.
  - inversion Hin.
  - cbn in Hnd. apply NoDup_cons in Hnd. destruct Hnd as [Ha Hnd]. cbn.
    destruct (String.eqb (c_name a) (c_name c)) eqn:E.
    + apply String.eqb_eq in E. cbn. f_equal.
      assert (Hnone : forall l, c_name c ∉ map c_name l ->
                List.filter (fun c0 => String.eqb (c_name c0) (c_name c)) l = []).
      { clear. induction l as [|b l IHl]; [reflexivity|]. intros Hn. cbn.
        destruct (String.eqb (c_name b) (c_name c)) eqn:Eb.
        - apply String.eqb_eq in Eb. exfalso. apply Hn. cbn. rewrite Eb. left.
        - apply IHl. intros H. apply Hn. cbn. now right. }
      rewrite Hnone; [reflexivity|]. now rewrite <- E.
    + apply IH; [exact Hnd|]. apply elem_of_cons in Hin. destruct Hin as [-> | Hin].
      * rewrite String.eqb_refl in E. discriminate.
      * exact Hin.
Qed.

Lemma df_getitem_nodup (df : DataFrame) (c : column) :
  NoDup (df_columns df) -> c ∈ df_cols df ->
  df_getitem df (c_name c) = Ok (MkSeries (df_index df) (c_type c) (c_data c)).
Proof.
  intros Hnd Hin. unfold df_getitem, find_col.
  rewrite (count_named_nodup _ _ Hnd Hin), (find_named_nodup c_name _ _ Hnd Hin).
  reflexivity.
Qed.

(** ** The galaxy field prefix *)

Lemma is_gal_prefixed (f : string) : is_gal (gal_prefix +:+ f) = true.
Proof.
  unfold is_gal, gal_prefix. cbn.
  repeat (destruct (ascii_dec _ _); [|congruence]). now destruct f.
Qed.

Lemma str_drop_prefixed (f : string) : str_drop 4 (gal_prefix +:+ f) = f.
Proof. reflexivity. Qed.

Lemma prefixed_inj (f g : string) :
  gal_prefix +:+ f = gal_prefix +:+ g -> f = g.
Proof. intros H. now injection H. Qed.

(** ** Catalogs the codec accepts *)

(** The cell holds the count [n]: as an int64, or as the float64 of [n]. *)
Definition counts (c : cell) (n : nat) : Prop :=
  c = CInt (Z.of_nat n) \/ c = CFlt (f64_of_Z (Z.of_nat n)).

(** The largest number of galaxies of a cluster. *)
Definition max_len (tabs : list sarray) : nat :=
  foldr Nat.max 0%nat (map sa_len tabs).

(** The data-model invariants of a catalog with property table [df] and
    galaxy tables [tabs] of record layout [dt], together with what the
    padded format needs: at least one cluster, property names that are
    distinct, not empty and do not carry the reserved prefix, named
    galaxy fields, a largest galaxy count other than 1, counts that a
    float64 holds exactly. *)
Record codec_ready (df : DataFrame) (tabs : list sarray)
  (dt : list (string * ntype)) : Prop := {
  cr_frame : valid_frame df;
  cr_unreserved : Forall (fun x => is_gal x = false) (df_columns df);
  cr_ngal : exists col, col ∈ df_cols df /\ c_name col = "Ngal" /\
                        Forall2 (fun c t => counts c (sa_len t)) (c_data col) tabs;
  cr_tabs : Forall (valid_table dt) tabs;
  cr_layout : dt <> [] /\ NoDup (map fst dt) /\ EmptyString ∉ map fst dt;
  cr_small : Forall (fun t => Z.of_nat (sa_len t) < 2 ^ 53) tabs;
  cr_not_one : max_len tabs <> 1%nat;
  cr_nonempty : tabs <> [];
  cr_named : EmptyString ∉ df_columns df
}.

Definition cast_col (c : column) : column :=
  Column (c_name c) F8 (map (astype F8) (c_data c)).

(** The property table as it comes back: every column cast to float64,
    the rows labelled 0 .. n-1. *)
Definition cast_frame (df : DataFrame) : DataFrame :=
  Frame (range_index (df_len df)) (map cast_col (df_cols df)).

(** The values of field [f] of a table. *)
Definition field_data (t : sarray) (f : string) : list cell :=
  default [] (c_data <$> find_col f (sa_cols t)).

(** A vector of [m] slots that starts with [vals] and ends with zeros. *)
Definition pad (m : nat) (ty : ntype) (vals : list cell) : list cell :=
  vals ++ repeat (zero_of ty) (m - length vals).

Definition prop_field (c : column) : rfield :=
  RField (c_name c) F8 (ScalarField (map (astype F8) (c_data c))).

(** The vector field of galaxy field [d]: the padded values of the
    tables [rows], then [rest] records still at zero. *)
Definition gal_field (m : nat) (rows : list sarray) (rest : nat)
  (d : string * ntype) : rfield :=
  RField (gal_prefix +:+ fst d) (snd d)
    (VectorField m
       (map (fun t => pad m (snd d) (map (astype (snd d)) (field_data t (fst d)))) rows
        ++ repeat (repeat (zero_of (snd d)) m) rest)).

(** The record array of a catalog. *)
Definition encoded (df : DataFrame) (tabs : list sarray)
  (dt : list (string * ntype)) : recarray :=
  RecArray (df_len df)
    (map prop_field (df_cols df) ++ map (gal_field (max_len tabs) tabs 0) dt).

Lemma astype_typed (ty : ntype) (c : cell) :
  cell_typed ty c = true -> astype ty c = c.
Proof. destruct ty, c; cbn; congruence. Qed.

Lemma map_astype_typed (ty : ntype) (l : list cell) :
  forallb (cell_typed ty) l = true -> map (astype ty) l = l.
Proof.
  induction l as [|c l IH]; [reflexivity|]. cbn. intros H.
  apply andb_prop in H. destruct H as [Hc Hl].
  now rewrite (astype_typed _ _ Hc), IH.
Qed.

Lemma py_int_f64 (n : Z) : 0 <= n < 2 ^ 53 -> py_int (CFlt (f64_of_Z n)) = Ok n.
Proof.
  intros H. pose proof (f64_trunc_of_Z n H) as Ht. unfold py_int.
  destruct (f64_of_Z n); cbn in *; try discriminate; now rewrite Ht || injection Ht as <-.
Qed.

Lemma py_int_counts (c : cell) (n : nat) :
  counts c n -> Z.of_nat n < 2 ^ 53 -> py_int (astype F8 c) = Ok (Z.of_nat n).
Proof.
  intros [-> | ->] Hn; cbn [astype]; apply py_int_f64; lia.
Qed.

Lemma foldl_Zmax_nat (l : list nat) (a : nat) :
  foldl Z.max (Z.of_nat a) (map Z.of_nat l) = Z.of_nat (Nat.max a (foldr Nat.max 0%nat l)).
Proof.
  revert a. induction l as [|x l IH]; intros a; cbn.
  - f_equal. lia.
  - rewrite <- Nat2Z.inj_max, IH. f_equal. lia.
Qed.

Lemma f64_max_of_Z (a b : Z) :
  0 <= a < 2 ^ 53 -> 0 <= b < 2 ^ 53 ->
  f64_max (f64_of_Z a) (f64_of_Z b) = f64_of_Z (Z.max a b).
Proof.
  intros Ha Hb. unfold f64_max. rewrite (f64_ltb_of_Z a b Ha Hb).
  destruct (a <? b) eqn:E.
  - apply Z.ltb_lt in E. f_equal. lia.
  - apply Z.ltb_ge in E. f_equal. lia.
Qed.

Lemma foldl_f64_max_nat (l : list nat) (a : nat) :
  Z.of_nat a < 2 ^ 53 -> Forall (fun n => Z.of_nat n < 2 ^ 53) l ->
  foldl f64_max (f64_of_Z (Z.of_nat a)) (map (fun n => f64_of_Z (Z.of_nat n)) l)
  = f64_of_Z (Z.of_nat (Nat.max a (foldr Nat.max 0%nat l))).
Proof.
  intros Ha Hl. revert a Ha. induction Hl as [|x l Hx _ IH]; intros a Ha; cbn.
  - do 2 f_equal. lia.
  - rewrite f64_max_of_Z by lia. rewrite <- Nat2Z.inj_max, IH by lia.
    do 2 f_equal. lia.
Qed.

Lemma f64_of_nat_not_nan (n : nat) :
  Z.of_nat n < 2 ^ 53 -> f64_is_nan (f64_of_Z (Z.of_nat n)) = false.
Proof.
  intros H. destruct (Z.of_nat n) as [|p|p] eqn:E; [reflexivity| |lia].
  now rewrite (f64_of_pos p H).
Qed.

Lemma ngal_cells (ty : ntype) (data : list cell) (tabs : list sarray) :
  forallb (cell_typed ty) data = true ->
  Forall2 (fun c t => counts c (sa_len t)) data tabs ->
  match ty with
  | I8 => map cell_int data = map (fun t => Z.of_nat (sa_len t)) tabs
  | F8 => map cell_flt data = map (fun t => f64_of_Z (Z.of_nat (sa_len t))) tabs
  end.
Proof.
  intros Hty H. induction H as [|c t data tabs Hc _ IH].
  - now destruct ty.
  - cbn in Hty. apply andb_prop in Hty. destruct Hty as [Hct Hty].
    specialize (IH Hty).
    destruct ty; cbn [map]; rewrite IH; f_equal;
      destruct Hc as [-> | ->]; cbn in Hct; try discriminate; reflexivity.
Qed.

Lemma filter_not_nan (l : list nat) :
  Forall (fun n => Z.of_nat n < 2 ^ 53) l ->
  List.filter (fun f => negb (f64_is_nan f)) (map (fun n => f64_of_Z (Z.of_nat n)) l)
  = map (fun n => f64_of_Z (Z.of_nat n)) l.
Proof.
  induction 1 as [|n l Hn _ IH]; [reflexivity|].
  cbn. rewrite (f64_of_nat_not_nan n Hn). cbn. now rewrite IH.
Qed.

(** [int(self.prop['Ngal'].max())] is the largest galaxy count. *)
Lemma py_int_s_max (idx : list label) (ty : ntype) (data : list cell)
  (tabs : list sarray) :
  forallb (cell_typed ty) data = true ->
  Forall2 (fun c t => counts c (sa_len t)) data tabs ->
  tabs <> [] ->
  Forall (fun t => Z.of_nat (sa_len t) < 2 ^ 53) tabs ->
  py_int (s_max (MkSeries idx ty data)) = Ok (Z.of_nat (max_len tabs)).
Proof.
  intros Hty Hc Hne Hsmall. pose proof (ngal_cells ty data tabs Hty Hc) as Hcells.
  unfold s_max. cbn [s_type s_data].
  destruct tabs as [|t0 ts]; [congruence|]. unfold max_len. cbn [map foldr].
  destruct ty.
  - rewrite Hcells. cbn [map]. cbn [py_int].
    rewrite <- (map_map sa_len Z.of_nat), foldl_Zmax_nat. reflexivity.
  - rewrite Hcells.
    rewrite <- (map_map sa_len (fun n => f64_of_Z (Z.of_nat n)) (t0 :: ts)).
    assert (Hs : Forall (fun n => Z.of_nat n < 2 ^ 53) (map sa_len (t0 :: ts))).
    { rewrite Forall_map. exact Hsmall. }
    rewrite (filter_not_nan _ Hs). cbn [map].
    inversion Hs as [|? ? Hs0 Hs1]; subst.
    rewrite (foldl_f64_max_nat _ _ Hs0 Hs1).
    apply py_int_f64. split; [lia|].
    assert (Hmax : forall l a, (a < Z.to_nat (2 ^ 53))%nat ->
              Forall (fun n => Z.of_nat n < 2 ^ 53) l ->
              (Nat.max a (foldr Nat.max 0%nat l) < Z.to_nat (2 ^ 53))%nat).
    { clear. induction l as [|x l IH]; intros a Ha Hl; cbn; [lia|].
      inversion Hl; subst. specialize (IH x ltac:(lia) H2). lia. }
    specialize (Hmax (map sa_len ts) (sa_len t0) ltac:(lia) Hs1). lia.
Qed.

Lemma max_len_ge (tabs : list sarray) (t : sarray) :
  t ∈ tabs -> (sa_len t <= max_len tabs)%nat.
Proof.
  unfold max_len. induction tabs as [|u tabs IH]; intros Hin.
  - inversion Hin.
  - cbn. apply elem_of_cons in Hin. destruct Hin as [-> | Hin]; [lia|].
    specialize (IH Hin). lia.
Qed.

(** ** Encoding: the two loops of save_npy *)

Lemma broadcast_to_same (n : nat) (src : list cell) :
  length src = n -> broadcast_to n src = Ok src.
Proof. intros <-. unfold broadcast_to. now rewrite Nat.eqb_refl. Qed.

(** The loop over the property columns fills the scalar fields. *)
Lemma encode_prop_loop (df : DataFrame) (G : list rfield) :
  NoDup (df_columns df) ->
  Forall (fun c => length (c_data c) = df_len df) (df_cols df) ->
  forall rest done,
    df_cols df = done ++ rest ->
    foldM (fun out x => s ← df_getitem df x; ra_set_column out x (s_data s))
      (RecArray (df_len df)
         (map prop_field done
          ++ map (fun c => zero_field (df_len df) (c_name c, F8, Scalar)) rest ++ G))
      (map c_name rest)
    = Ok (RecArray (df_len df) (map prop_field (df_cols df) ++ G)).
Proof.
  intros Hnd Hlen. induction rest as [|c rest IH]; intros done Hsplit.
  - cbn. rewrite Hsplit, app_nil_r. reflexivity.
  - assert (Hin : c ∈ df_cols df).
    { rewrite Hsplit. apply elem_of_app. right. left. }
    assert (Hc : length (c_data c) = df_len df).
    { rewrite Forall_forall in Hlen. now apply Hlen. }
    assert (Hfresh : c_name c ∉ map rf_name (map prop_field done)).
    { rewrite map_map. cbn.
      unfold df_columns in Hnd. rewrite Hsplit, map_app in Hnd. cbn in Hnd.
      apply NoDup_app in Hnd. destruct Hnd as (_ & Hdis & _).
      intros H. apply (Hdis _ H). left. }
    cbn [map foldM]. rewrite (df_getitem_nodup df c Hnd Hin).
    cbn [mbind outcome_bind s_data]. unfold ra_set_column. cbn [ra_fields ra_len app].
    rewrite (set_named_app rf_name (c_name c) _ _ _
               (zero_field (df_len df) (c_name c, F8, Scalar)) (prop_field c)
               Hfresh eq_refl).
    + cbn [mbind outcome_bind].
      replace (map prop_field done ++ prop_field c :: map _ rest ++ G)
        with (map prop_field (done ++ [c])
              ++ map (fun c => zero_field (df_len df) (c_name c, F8, Scalar)) rest ++ G).
      * apply IH. rewrite Hsplit, <- app_assoc. reflexivity.
      * rewrite map_app, <- app_assoc. reflexivity.
    + cbn. rewrite (broadcast_to_same _ _ Hc). reflexivity.
Qed.

Lemma pick_nat {A : Type} (l : list A) (i : nat) (a : A) :
  l !! i = Some a -> pick l (Z.of_nat i) = Ok a.
Proof.
  intros H. pose proof (lookup_lt_Some _ _ _ H) as Hlt. unfold pick, norm_index.
  replace (0 <=? Z.of_nat i) with true by (symmetry; apply Z.leb_le; lia).
  replace (Z.of_nat i <? Z.of_nat (length l)) with true
    by (symmetry; apply Z.ltb_lt; lia).
  cbn. now rewrite Nat2Z.id, H.
Qed.

Lemma gal_table_nat (g : galval) (tabs : list sarray) (i : nat) (t : sarray) :
  gal_tables g = Some tabs -> tabs !! i = Some t ->
  gal_table g (Z.of_nat i) = Ok t.
Proof.
  intros Hg Ht. destruct g; cbn in Hg; try discriminate Hg;
    injection Hg as <-; cbn; try (now apply pick_nat).
  destruct i; discriminate Ht.
Qed.

(** A field of the common layout is found in every table, with its
    type and a full column of typed cells. *)
Lemma valid_table_field (dt : list (string * ntype)) (t : sarray)
  (d : string * ntype) :
  NoDup (map fst dt) -> valid_table dt t -> d ∈ dt ->
  exists c, find_col (fst d) (sa_cols t) = Some c /\
            c_name c = fst d /\ c_type c = snd d /\
            length (c_data c) = sa_len t /\
            forallb (cell_typed (snd d)) (c_data c) = true.
Proof.
  intros Hnd [Hdescr Hlen Hty] Hd. unfold sa_descr in Hdescr.
  rewrite <- Hdescr in Hd. apply list_elem_of_fmap in Hd.
  destruct Hd as (c & -> & Hc). exists c.
  assert (Hnd' : NoDup (map c_name (sa_cols t))).
  { rewrite <- Hdescr, map_map in Hnd. exact Hnd. }
  rewrite Forall_forall in Hlen, Hty. cbn. repeat split; auto.
  exact (find_named_nodup c_name _ _ Hnd' Hc).
Qed.

Lemma sa_getitem_field (dt : list (string * ntype)) (t : sarray)
  (d : string * ntype) :
  NoDup (map fst dt) -> valid_table dt t -> d ∈ dt ->
  sa_getitem t (fst d) = Ok (field_data t (fst d)) /\
  length (field_data t (fst d)) = sa_len t /\
  map (astype (snd d)) (field_data t (fst d)) = field_data t (fst d).
Proof.
  intros Hnd Hv Hd.
  destruct (valid_table_field dt t d Hnd Hv Hd) as (c & Hf & _ & _ & Hl & Hty).
  unfold sa_getitem, field_data. rewrite Hf. cbn.
  repeat split; auto. now apply map_astype_typed.
Qed.

Lemma vector_row_update {A : Type} (rows : list A) (z v : A) (i r : nat) :
  length rows = i -> (0 < r)%nat ->
  (rows ++ repeat z r) !! i = Some z /\
  <[i := v]> (rows ++ repeat z r) = (rows ++ [v]) ++ repeat z (r - 1).
Proof.
  intros <- Hr. destruct r as [|r]; [lia|]. cbn [repeat]. split.
  - rewrite lookup_app_r by lia. now rewrite Nat.sub_diag.
  - rewrite insert_app_r_alt by lia. rewrite Nat.sub_diag. cbn.
    rewrite Nat.sub_0_r, <- app_assoc. reflexivity.
Qed.

Lemma slice_len_nat (m k : nat) : (k <= m)%nat -> slice_len m (Z.of_nat k) = k.
Proof.
  intros H. unfold slice_len.
  replace (Z.of_nat k <? 0) with false by (symmetry; apply Z.ltb_ge; lia).
  lia.
Qed.

Lemma drop_repeat {A : Type} (z : A) (k m : nat) :
  drop k (repeat z m) = repeat z (m - k).
Proof.
  revert m. induction k as [|k IH]; intros m.
  - now rewrite Nat.sub_0_r.
  - destruct m as [|m]; [reflexivity|]. cbn. apply IH.
Qed.

Section GalaxyLoop.

Variables (df : DataFrame) (g : galval) (tabs : list sarray)
  (dt : list (string * ntype)).
Hypothesis Hready : codec_ready df tabs dt.
Hypothesis Hg : gal_tables g = Some tabs.
Hypothesis Hrows : length tabs = df_len df.

Let n := df_len df.
Let m := max_len tabs.
Let P := map prop_field (df_cols df).

(** The body of the loop over the galaxy fields of record [i]. *)
Definition gal_step (g0 : galval) (i : nat) (out : recarray) (f : string)
  : outcome recarray :=
  gi ← gal_table g0 (Z.of_nat i);
  src ← sa_getitem gi f;
  c ← ra_scalar out i "Ngal";
  k ← py_int c;
  ra_set_slice out i (gal_prefix +:+ f) k src.

Lemma ngal_scalar (X : list rfield) (i : nat) (t : sarray) :
  tabs !! i = Some t ->
  exists c, ra_scalar (RecArray n (P ++ X)) i "Ngal" = Ok c /\
            py_int c = Ok (Z.of_nat (sa_len t)).
Proof.
  intros Ht. destruct Hready as [[Hnd _ _] _ (col & Hin & Hname & Hcounts) _ _ Hsmall _ _ _].
  destruct (list_elem_of_split _ _ Hin) as (pre & post & Hsplit).
  assert (Hfind : find_field "Ngal" (RecArray n (P ++ X)) = Some (prop_field col)).
  { unfold find_field, P. cbn [ra_fields]. rewrite Hsplit, map_app. cbn [map].
    rewrite <- app_assoc. cbn [app].
    apply (find_named_app rf_name); [|exact Hname].
    rewrite map_map. cbn. unfold df_columns in Hnd.
    rewrite Hsplit, map_app in Hnd. cbn in Hnd. apply NoDup_app in Hnd.
    destruct Hnd as (_ & Hdis & _). intros H. apply (Hdis _ H).
    rewrite <- Hname. left. }
  destruct (Forall2_lookup_r _ _ _ _ _ Hcounts Ht) as (c & Hc & Hcnt).
  exists (astype F8 c). unfold ra_scalar. rewrite Hfind. cbn.
  rewrite list_lookup_fmap, Hc. cbn. split; [reflexivity|].
  apply py_int_counts; [exact Hcnt|].
  rewrite Forall_forall in Hsmall. apply Hsmall.
  apply list_elem_of_lookup. now exists i.
Qed.

Lemma gal_step_ok (i : nat) (t : sarray) (d : string * ntype)
  (done todo : list (string * ntype)) :
  tabs !! i = Some t -> dt = done ++ d :: todo ->
  gal_step g i
    (RecArray n (P ++ map (gal_field m (take (S i) tabs) (n - S i)) done
                   ++ map (gal_field m (take i tabs) (n - i)) (d :: todo)))
    (fst d)
  = Ok (RecArray n (P ++ map (gal_field m (take (S i) tabs) (n - S i)) (done ++ [d])
                      ++ map (gal_field m (take i tabs) (n - i)) todo)).
Proof.
  intros Ht Hsplit.
  pose proof (lookup_lt_Some _ _ _ Ht) as Hi.
  destruct Hready as [[Hnd _ _] Hunres _ Htabs (_ & Hdtnd & _) _ _].
  assert (Hd : d ∈ dt) by (rewrite Hsplit; apply elem_of_app; right; left).
  assert (Hvt : valid_table dt t).
  { rewrite Forall_forall in Htabs. apply Htabs. apply list_elem_of_lookup. now exists i. }
  destruct (sa_getitem_field dt t d Hdtnd Hvt Hd) as (Hget & Hlen & Hcast).
  assert (Hle : (sa_len t <= m)%nat).
  { apply max_len_ge. apply list_elem_of_lookup. now exists i. }
  unfold gal_step. rewrite (gal_table_nat g tabs i t Hg Ht). cbn [mbind outcome_bind].
  rewrite Hget. cbn [mbind outcome_bind].
  destruct (ngal_scalar (map (gal_field m (take (S i) tabs) (n - S i)) done
                         ++ map (gal_field m (take i tabs) (n - i)) (d :: todo)) i t Ht)
    as (c & Hc & Hk).
  rewrite Hc. cbn [mbind outcome_bind]. rewrite Hk. cbn [mbind outcome_bind].
  unfold ra_set_slice. cbn [ra_fields ra_len map].
  rewrite (app_assoc P).
  assert (Hfresh : gal_prefix +:+ fst d
                   ∉ map rf_name (P ++ map (gal_field m (take (S i) tabs) (n - S i)) done)).
  { unfold P. rewrite map_app, !map_map. cbn. intros H. apply elem_of_app in H.
    destruct H as [H | H].
    - rewrite Forall_forall in Hunres. unfold df_columns in Hunres.
      specialize (Hunres _ H). rewrite is_gal_prefixed in Hunres. discriminate.
    - apply list_elem_of_fmap in H. destruct H as (d' & Heq & Hd').
      apply prefixed_inj in Heq.
      rewrite Hsplit, map_app in Hdtnd. cbn in Hdtnd. apply NoDup_app in Hdtnd.
      destruct Hdtnd as (_ & Hdis & _). apply (Hdis (fst d')).
      + apply list_elem_of_fmap. now exists d'.
      + rewrite <- Heq. left. }
  assert (Htake : length (take i tabs) = i) by (rewrite length_take; lia).
  destruct (vector_row_update
              (map (fun t0 => pad m (snd d) (map (astype (snd d)) (field_data t0 (fst d))))
                 (take i tabs))
              (repeat (zero_of (snd d)) m)
              (map (astype (snd d)) (field_data t (fst d))
               ++ drop (sa_len t) (repeat (zero_of (snd d)) m))
              i (n - i)) as (Hrow & Hupd).
  { now rewrite List.length_map. }
  { unfold n. lia. }
  rewrite (set_named_app rf_name (gal_prefix +:+ fst d) _ _ _
             (gal_field m (take i tabs) (n - i) d)
             (gal_field m (take (S i) tabs) (n - S i) d) Hfresh eq_refl).
  - cbn [mbind outcome_bind]. rewrite map_app. cbn [map].
    rewrite <- !app_assoc. reflexivity.
  - unfold gal_field at 1. cbn [rf_data rf_name rf_type]. rewrite Hrow.
    rewrite repeat_length, (slice_len_nat m (sa_len t) Hle).
    rewrite (broadcast_to_same _ _ Hlen). cbn [mbind outcome_bind].
    change (rf_type (gal_field m (take i tabs) (n - i) d)) with (snd d).
    change (rf_name (gal_field m (take i tabs) (n - i) d)) with (gal_prefix +:+ fst d).
    rewrite Hupd, drop_repeat. unfold gal_field.
    rewrite (take_S_r _ _ _ Ht), map_app. cbn [map].
    unfold pad at 3. rewrite List.length_map, Hlen.
    replace (n - i - 1)%nat with (n - S i)%nat by lia. reflexivity.
Qed.

Lemma gal_inner_loop (i : nat) (t : sarray) :
  tabs !! i = Some t ->
  forall todo done,
    dt = done ++ todo ->
    foldM (gal_step g i)
      (RecArray n (P ++ map (gal_field m (take (S i) tabs) (n - S i)) done
                     ++ map (gal_field m (take i tabs) (n - i)) todo))
      (map fst todo)
    = Ok (RecArray n (P ++ map (gal_field m (take (S i) tabs) (n - S i)) dt)).
Proof.
  intros Ht. induction todo as [|d todo IH]; intros done Hsplit.
  - cbn. rewrite Hsplit, !app_nil_r. reflexivity.
  - change (map fst (d :: todo)) with (fst d :: map fst todo). cbn [foldM].
    rewrite (gal_step_ok i t d done todo Ht Hsplit).
    cbn [mbind outcome_bind]. apply IH. rewrite Hsplit, <- app_assoc. reflexivity.
Qed.

Lemma gal_outer_loop (k : nat) :
  forall i, (i + k = n)%nat ->
    foldM (fun out j => foldM (gal_step g j) out (map fst dt))
      (RecArray n (P ++ map (gal_field m (take i tabs) (n - i)) dt))
      (seq i k)
    = Ok (RecArray n (P ++ map (gal_field m tabs 0) dt)).
Proof.
  induction k as [|k IH]; intros i Hik.
  - assert (Hi : i = length tabs) by (unfold n in Hik; lia). subst i.
    cbn [seq foldM]. rewrite firstn_all.
    replace (n - length tabs)%nat with 0%nat by (unfold n; lia). reflexivity.
  - destruct (lookup_lt_is_Some_2 tabs i) as [t Ht]; [unfold n in Hik; lia|].
    cbn [seq foldM].
    pose proof (gal_inner_loop i t Ht dt [] eq_refl) as Hin.
    cbn [map app] in Hin. rewrite Hin.
    cbn [mbind outcome_bind]. apply IH. lia.
Qed.

End GalaxyLoop.

Lemma imap_id_Forall {A : Type} (f : nat -> A -> A) (l : list A) :
  Forall (fun a => forall i, f i a = a) l -> imap f l = l.
Proof.
  intros H. revert f H. induction l as [|a l IH]; intros f H; [reflexivity|].
  apply Forall_cons in H. destruct H as [Ha Hl]. cbn [imap].
  rewrite Ha. f_equal. apply IH. eapply Forall_impl; [exact Hl|].
  cbn beta. intros x Hx i. apply Hx.
Qed.

(** Fields that are declared with a name keep it. *)
Lemma np_dtype_fields_named (dt : list (string * ntype * fshape)) :
  Forall (fun d => fst (fst d) <> EmptyString) dt -> np_dtype_fields dt = dt.
Proof.
  intros H. unfold np_dtype_fields. apply imap_id_Forall.
  eapply Forall_impl; [exact H|]. cbn beta. intros [[name ty] sh] Hn i. cbn in *.
  destruct name; [congruence | reflexivity].
Qed.

Lemma codec_ready_nonempty (df : DataFrame) (tabs : list sarray)
  (dt : list (string * ntype)) :
  codec_ready df tabs dt -> exists t ts, tabs = t :: ts.
Proof.
  intros H. destruct tabs as [|t ts]; [|now exists t, ts].
  now destruct (cr_nonempty _ _ _ H).
Qed.

Lemma encoded_names_nodup (df : DataFrame) (tabs : list sarray)
  (dt : list (string * ntype)) (sh : fshape) :
  codec_ready df tabs dt ->
  NoDup (map (fun d : string * ntype * fshape => fst (fst d))
           (map (fun x => (x, F8, Scalar)) (df_columns df)
            ++ map (fun d => (gal_prefix +:+ fst d, snd d, sh)) dt)).
Proof.
  intros [[Hnd _ _] Hunres _ _ (_ & Hdt & _) _ _ _ _].
  rewrite map_app, !map_map. cbn. rewrite map_id. apply NoDup_app.
  split; [exact Hnd|]. split.
  - intros x Hx Hg. rewrite Forall_forall in Hunres. specialize (Hunres _ Hx).
    apply list_elem_of_fmap in Hg. destruct Hg as (d & -> & _).
    rewrite is_gal_prefixed in Hunres. discriminate.
  - rewrite <- (map_map fst (fun f => gal_prefix +:+ f)).
    apply NoDup_fmap_2; [|exact Hdt]. intros a b. apply prefixed_inj.
Qed.

(** Encoding a catalog that the codec accepts succeeds, with the
    property columns cast to float64 and every galaxy field padded. *)
Lemma encode_ok (df : DataFrame) (g : galval) (tabs : list sarray)
  (dt : list (string * ntype)) :
  codec_ready df tabs dt -> gal_tables g = Some tabs ->
  length tabs = df_len df ->
  encode (PFrame df) g = Ok (encoded df tabs dt).
Proof.
  intros Hready Hg Hrows.
  destruct (codec_ready_nonempty _ _ _ Hready) as (t0 & ts & Htabs).
  pose proof Hready as [[Hnd Hlen Hty] Hunres (col & Hin & Hname & Hcounts)
                          Hvt (Hdt0 & Hdtnd & _) Hsmall Hnot1 _ Hnamed].
  assert (Hngal : df_getitem df "Ngal"
                  = Ok (MkSeries (df_index df) (c_type col) (c_data col))).
  { rewrite <- Hname. now apply df_getitem_nodup. }
  assert (Hmax : py_int (s_max (MkSeries (df_index df) (c_type col) (c_data col)))
                 = Ok (Z.of_nat (max_len tabs))).
  { apply py_int_s_max; auto.
    - rewrite Forall_forall in Hty. now apply Hty.
    - rewrite Htabs. discriminate. }
  assert (Ht0 : gal_table g 0 = Ok t0).
  { apply (gal_table_nat g tabs 0 t0 Hg). now rewrite Htabs. }
  assert (Hd0 : sa_descr t0 = dt).
  { rewrite Htabs in Hvt. apply Forall_cons in Hvt. destruct Hvt as [[Hd _ _] _].
    exact Hd. }
  assert (Hshape : subarray_shape (Z.of_nat (max_len tabs)) = Ok (Vector (max_len tabs))).
  { unfold subarray_shape.
    replace (Z.of_nat (max_len tabs) <? 0) with false by (symmetry; apply Z.ltb_ge; lia).
    replace (Z.of_nat (max_len tabs) =? 1) with false by (symmetry; apply Z.eqb_neq; lia).
    now rewrite Nat2Z.id. }
  unfold encode. rewrite Hngal. cbn [mbind outcome_bind]. rewrite Ht0.
  cbn [mbind outcome_bind]. rewrite Hd0.
  rewrite (forM_map_ok _ (fun d => (gal_prefix +:+ fst d, snd d, Vector (max_len tabs)))).
  2:{ apply Forall_forall. intros d _. rewrite Hmax. cbn [mbind outcome_bind].
      now rewrite Hshape. }
  cbn [mbind outcome_bind].
  rewrite bool_decide_eq_false_2.
  2:{ destruct dt; [congruence | discriminate]. }
  unfold np_zeros. rewrite np_dtype_fields_named.
  2:{ apply Forall_app. split; rewrite Forall_map; apply Forall_forall.
      - intros x Hx. cbn. intros E. apply Hnamed. now rewrite <- E.
      - intros d _. cbn. discriminate. }
  cbn zeta.
  rewrite (bool_decide_eq_true_2 _ (encoded_names_nodup df tabs dt _ Hready)).
  cbn [mbind outcome_bind].
  rewrite map_app, !map_map.
  pose proof (encode_prop_loop df
                (map (fun d => zero_field (df_len df)
                                 (gal_prefix +:+ fst d, snd d, Vector (max_len tabs))) dt)
                Hnd Hlen (df_cols df) [] eq_refl) as Hloop1.
  cbn [map app] in Hloop1. unfold df_columns at 1. rewrite map_map.
  unfold df_columns. rewrite Hloop1. cbn [mbind outcome_bind].
  replace (sa_names t0) with (map fst dt).
  2:{ rewrite <- Hd0. unfold sa_names, sa_descr. now rewrite map_map. }
  pose proof (gal_outer_loop df g tabs dt Hready Hg Hrows (df_len df) 0%nat eq_refl)
    as Hloop2.
  rewrite Nat.sub_0_r in Hloop2. cbn [take] in Hloop2.
  unfold encoded. rewrite <- Hloop2. reflexivity.
Qed.

(** ** Decoding: the loops of load_npy *)

Lemma table_rebuild (dt : list (string * ntype)) (t : sarray) :
  NoDup (map fst dt) -> valid_table dt t ->
  SArray (sa_len t)
    (map (fun d => Column (fst d) (snd d) (field_data t (fst d))) dt) = t.
Proof.
  intros Hnd [Hdescr _ _]. destruct t as [k cols]. cbn [sa_len]. f_equal.
  unfold sa_descr in Hdescr. cbn [sa_cols] in Hdescr. subst dt.
  rewrite map_map in Hnd. cbn in Hnd. rewrite map_map.
  rewrite <- (map_id cols) at 2. apply map_ext_in. intros c Hc. cbn.
  unfold field_data, find_col. cbn [sa_cols].
  rewrite (find_named_nodup c_name cols c Hnd) by now apply list_elem_of_In.
  now destruct c.
Qed.

Lemma filter_none {A : Type} (p : A -> bool) (l : list A) :
  Forall (fun a => p a = false) l -> List.filter p l = [].
Proof.
  induction 1 as [|a l Ha _ IH]; [reflexivity|]. cbn. now rewrite Ha.
Qed.

Lemma filter_all {A : Type} (p : A -> bool) (l : list A) :
  Forall (fun a => p a = true) l -> List.filter p l = l.
Proof.
  induction 1 as [|a l Ha _ IH]; [reflexivity|]. cbn. now rewrite Ha, IH.
Qed.

Lemma forM_seq_lookup {A B : Type} (f : nat -> outcome B) (h : A -> B)
  (l : list A) :
  (forall i a, l !! i = Some a -> f i = Ok (h a)) ->
  forall k s, (s + k = length l)%nat -> forM f (seq s k) = Ok (map h (drop s l)).
Proof.
  intros Hf. induction k as [|k IH]; intros s Hs.
  - cbn. rewrite drop_ge by lia. reflexivity.
  - destruct (lookup_lt_is_Some_2 l s) as [a Ha]; [lia|].
    cbn [seq forM]. rewrite (Hf s a Ha). cbn [mbind outcome_bind].
    rewrite IH by lia. cbn [mbind outcome_bind].
    rewrite (drop_S l a s Ha). reflexivity.
Qed.

Lemma pad_length (m : nat) (ty : ntype) (vals : list cell) :
  (length vals <= m)%nat -> length (pad m ty vals) = m.
Proof. intros H. unfold pad. rewrite length_app, repeat_length. lia. Qed.

Lemma slice_to_pad (m : nat) (ty : ntype) (vals : list cell) :
  (length vals <= m)%nat ->
  slice_to (pad m ty vals) (Z.of_nat (length vals)) = vals.
Proof.
  intros H. unfold slice_to. rewrite (pad_length m ty vals H), (slice_len_nat _ _ H).
  unfold pad. now rewrite take_app_length.
Qed.

Section DecodeLoop.

Variables (df : DataFrame) (tabs : list sarray) (dt : list (string * ntype)).
Hypothesis Hready : codec_ready df tabs dt.
Hypothesis Hrows : length tabs = df_len df.

Let x := encoded df tabs dt.
Let m := max_len tabs.

(** The body of the loop over the galaxy fields of record [i]. *)
Definition unpad_step (a : recarray) (i : nat) (gals : list sarray)
  (field : string) : outcome (list sarray) :=
  v ← ra_vector a i (gal_prefix +:+ field);
  c ← ra_scalar a i "Ngal";
  k ← py_int c;
  match gals !! i with
  | None => Raise IndexError
  | Some gi => gi' ← sa_setitem gi field (slice_to v k); Ok (<[i := gi']> gals)
  end.

(** Table [t] while it is rebuilt: the fields [done] copied, the fields
    [todo] still at zero. *)
Definition partial_table (t : sarray) (done todo : list (string * ntype))
  : sarray :=
  SArray (sa_len t)
    (map (fun d => Column (fst d) (snd d) (field_data t (fst d))) done
     ++ map (fun d => Column (fst d) (snd d) (repeat (zero_of (snd d)) (sa_len t))) todo).

Lemma encoded_vector (i : nat) (t : sarray) (d : string * ntype) :
  tabs !! i = Some t -> d ∈ dt ->
  ra_vector x i (gal_prefix +:+ fst d)
  = Ok (pad m (snd d) (field_data t (fst d))) /\
  length (field_data t (fst d)) = sa_len t /\ (sa_len t <= m)%nat /\
  map (astype (snd d)) (field_data t (fst d)) = field_data t (fst d).
Proof.
  intros Ht Hd.
  destruct Hready as [_ Hunres _ Htabs (_ & Hdtnd & _) _ _].
  assert (Hvt : valid_table dt t).
  { rewrite Forall_forall in Htabs. apply Htabs. apply list_elem_of_lookup. now exists i. }
  destruct (sa_getitem_field dt t d Hdtnd Hvt Hd) as (_ & Hlen & Hcast).
  assert (Hle : (sa_len t <= m)%nat).
  { apply max_len_ge. apply list_elem_of_lookup. now exists i. }
  repeat split; auto.
  destruct (list_elem_of_split _ _ Hd) as (pre & post & Hsplit).
  assert (Hfind : find_field (gal_prefix +:+ fst d) x = Some (gal_field m tabs 0 d)).
  { unfold find_field, x, encoded. cbn [ra_fields]. rewrite Hsplit, map_app. cbn [map].
    rewrite app_assoc. apply (find_named_app rf_name); [|reflexivity].
    rewrite map_app, !map_map. cbn. intros H. apply elem_of_app in H.
    destruct H as [H | H].
    - rewrite Forall_forall in Hunres. unfold df_columns in Hunres.
      specialize (Hunres _ H). rewrite is_gal_prefixed in Hunres. discriminate.
    - apply list_elem_of_fmap in H. destruct H as (d' & Heq & Hd').
      apply prefixed_inj in Heq.
      rewrite Hsplit, map_app in Hdtnd. cbn in Hdtnd. apply NoDup_app in Hdtnd.
      destruct Hdtnd as (_ & Hdis & _). apply (Hdis (fst d')).
      + apply list_elem_of_fmap. now exists d'.
      + rewrite <- Heq. left. }
  unfold ra_vector. rewrite Hfind. cbn [gal_field rf_data repeat].
  rewrite app_nil_r, list_lookup_fmap, Ht. cbn. now rewrite Hcast.
Qed.

Lemma unpad_step_ok (i : nat) (t : sarray) (d : string * ntype)
  (done todo : list (string * ntype)) (before after : list sarray) :
  tabs !! i = Some t -> dt = done ++ d :: todo -> length before = i ->
  unpad_step x i (before ++ partial_table t done (d :: todo) :: after) (fst d)
  = Ok (before ++ partial_table t (done ++ [d]) todo :: after).
Proof.
  intros Ht Hsplit Hbefore.
  assert (Hd : d ∈ dt) by (rewrite Hsplit; apply elem_of_app; right; left).
  destruct (encoded_vector i t d Ht Hd) as (Hvec & Hlen & Hle & Hcast).
  destruct (ngal_scalar df tabs dt Hready
              (map (gal_field (max_len tabs) tabs 0) dt) i t Ht) as (c & Hc & Hk).
  fold (encoded df tabs dt) in Hc. fold x in Hc.
  unfold unpad_step. rewrite Hvec. cbn [mbind outcome_bind].
  rewrite Hc. cbn [mbind outcome_bind]. rewrite Hk. cbn [mbind outcome_bind].
  rewrite list_lookup_middle by (symmetry; exact Hbefore).
  rewrite <- Hlen at 1. rewrite slice_to_pad by (rewrite Hlen; exact Hle).
  destruct Hready as [_ _ _ _ (_ & Hdtnd & _) _ _].
  assert (Hfresh : fst d ∉ map c_name
            (map (fun d0 : string * ntype => Column (fst d0) (snd d0) (field_data t (fst d0)))
               done)).
  { rewrite map_map. cbn. rewrite Hsplit, map_app in Hdtnd. cbn in Hdtnd.
    apply NoDup_app in Hdtnd. destruct Hdtnd as (_ & Hdis & _).
    intros H. apply (Hdis _ H). left. }
  unfold sa_setitem.
  change (sa_len (partial_table t done (d :: todo))) with (sa_len t).
  change (sa_cols (partial_table t done (d :: todo)))
    with (map (fun d0 : string * ntype => Column (fst d0) (snd d0) (field_data t (fst d0)))
            done
          ++ Column (fst d) (snd d) (repeat (zero_of (snd d)) (sa_len t))
             :: map (fun d0 : string * ntype =>
                       Column (fst d0) (snd d0) (repeat (zero_of (snd d0)) (sa_len t)))
                  todo).
  rewrite (set_named_app c_name (fst d) _ _ _
             (Column (fst d) (snd d) (repeat (zero_of (snd d)) (sa_len t)))
             (Column (fst d) (snd d) (field_data t (fst d))) Hfresh eq_refl).
  - cbn [mbind outcome_bind].
    rewrite insert_app_r_alt by lia. rewrite Hbefore, Nat.sub_diag.
    unfold partial_table. cbn [insert list_insert].
    rewrite map_app. cbn [map]. rewrite <- app_assoc. reflexivity.
  - cbn [c_name c_type]. rewrite (broadcast_to_same _ _ Hlen).
    cbn [mbind outcome_bind]. now rewrite Hcast.
Qed.

Lemma unpad_inner_loop (i : nat) (t : sarray) (before after : list sarray) :
  tabs !! i = Some t -> length before = i ->
  forall todo done,
    dt = done ++ todo ->
    foldM (unpad_step x i) (before ++ partial_table t done todo :: after)
      (map fst todo)
    = Ok (before ++ t :: after).
Proof.
  intros Ht Hbefore. induction todo as [|d todo IH]; intros done Hsplit.
  - cbn [map foldM]. rewrite app_nil_r in Hsplit. subst done.
    unfold partial_table. cbn [map]. rewrite app_nil_r.
    destruct Hready as [_ _ _ Htabs (_ & Hdtnd & _) _ _].
    rewrite table_rebuild; [reflexivity | exact Hdtnd |].
    rewrite Forall_forall in Htabs. apply Htabs. apply list_elem_of_lookup. now exists i.
  - change (map fst (d :: todo)) with (fst d :: map fst todo). cbn [foldM].
    rewrite (unpad_step_ok i t d done todo before after Ht Hsplit Hbefore).
    cbn [mbind outcome_bind]. apply IH. rewrite Hsplit, <- app_assoc. reflexivity.
Qed.

Lemma unpad_outer_loop (k : nat) :
  forall i, (i + k = length tabs)%nat ->
    foldM (fun gals j => foldM (unpad_step x j) gals (map fst dt))
      (take i tabs ++ map (fun t => np_zeros_table (sa_len t) dt) (drop i tabs))
      (seq i k)
    = Ok tabs.
Proof.
  induction k as [|k IH]; intros i Hik.
  - cbn [seq foldM]. rewrite firstn_all2, drop_ge by lia. cbn. now rewrite app_nil_r.
  - destruct (lookup_lt_is_Some_2 tabs i) as [t Ht]; [lia|].
    cbn [seq foldM]. rewrite (drop_S tabs t i Ht). cbn [map].
    pose proof (unpad_inner_loop i t (take i tabs)
                  (map (fun t => np_zeros_table (sa_len t) dt) (drop (S i) tabs))
                  Ht ltac:(rewrite length_take; lia) dt [] eq_refl) as Hin.
    unfold partial_table in Hin. cbn [map app] in Hin.
    unfold np_zeros_table at 1. rewrite Hin. cbn [mbind outcome_bind].
    replace (take i tabs ++ t :: map (fun t => np_zeros_table (sa_len t) dt) (drop (S i) tabs))
      with (take (S i) tabs ++ map (fun t => np_zeros_table (sa_len t) dt) (drop (S i) tabs)).
    + apply IH. lia.
    + rewrite (take_S_r tabs i t Ht), <- app_assoc. reflexivity.
Qed.

End DecodeLoop.

Lemma np_array_tables (dt : list (string * ntype)) (tabs : list sarray) :
  tabs <> [] -> Forall (valid_table dt) tabs ->
  exists g, np_array tabs = Ok g /\ gal_tables g = Some tabs /\
            held_in_array g = true.
Proof.
  intros Hne Hv. destruct tabs as [|t ts]; [congruence|]. unfold np_array.
  destruct (forallb (fun u => same_layout u (sa_descr t) (sa_len t)) (t :: ts)) eqn:E1.
  - eexists. repeat split.
  - destruct (forallb (fun u => Nat.eqb (sa_len u) (sa_len t)) (t :: ts)) eqn:E2.
    + exfalso. rewrite <- not_true_iff_false in E1. apply E1.
      rewrite forallb_forall. intros u Hu.
      rewrite forallb_forall in E2. specialize (E2 u Hu).
      unfold same_layout. rewrite E2, andb_true_r. apply bool_decide_eq_true_2.
      rewrite Forall_forall in Hv.
      destruct (Hv u) as [Hdu _ _]; [now apply list_elem_of_In|].
      destruct (Hv t) as [Hdt _ _]; [left|]. congruence.
    + eexists. repeat split.
Qed.

(** Decoding the array of a catalog gives back its galaxy tables and
    its property table cast to float64. *)
Lemma decode_ok (df : DataFrame) (tabs : list sarray)
  (dt : list (string * ntype)) :
  codec_ready df tabs dt -> length tabs = df_len df ->
  exists g, decode (encoded df tabs dt) = Ok (cast_frame df, g) /\
            gal_tables g = Some tabs /\ held_in_array g = true.
Proof.
  intros Hready Hrows.
  destruct (codec_ready_nonempty _ _ _ Hready) as (t0 & ts & Htabs).
  pose proof Hready as [[Hnd Hlen Hty] Hunres (col & Hin & Hname & Hcounts)
                          Hvt (Hdt0 & Hdtnd & Hnoempty) Hsmall Hnot1 _ Hnamed].
  destruct (np_array_tables dt tabs) as (g & Hg & Hgt & Hga); auto.
  { rewrite Htabs. discriminate. }
  exists g. split; [|now split].
  unfold decode.
  assert (Hdescr : ra_descr (encoded df tabs dt)
                   = map (fun c => (c_name c, F8, Scalar)) (df_cols df)
                     ++ map (fun d => (gal_prefix +:+ fst d, snd d, Vector (max_len tabs))) dt).
  { unfold ra_descr, encoded. cbn [ra_fields]. rewrite map_app, !map_map. reflexivity. }
  assert (Hgd : List.filter (fun d : string * ntype * fshape => is_gal (fst (fst d)))
                  (ra_descr (encoded df tabs dt))
                = map (fun d => (gal_prefix +:+ fst d, snd d, Vector (max_len tabs))) dt).
  { rewrite Hdescr, List.filter_app.
    rewrite filter_none.
    - rewrite filter_all; [reflexivity|].
      rewrite Forall_map. cbn. apply Forall_forall. intros d _. apply is_gal_prefixed.
    - rewrite Forall_map. cbn. apply Forall_forall. intros c Hc.
      rewrite Forall_forall in Hunres.
      apply Hunres. unfold df_columns. now apply list_elem_of_fmap_2. }
  rewrite Hgd.
  rewrite (forM_comp_ok _ _ (fun d => d)).
  2:{ apply Forall_forall. intros [f ty] _. reflexivity. }
  rewrite map_id. cbn [mbind outcome_bind]. unfold np_dtype.
  rewrite (bool_decide_eq_false_2 (dt = [])) by exact Hdt0.
  rewrite (bool_decide_eq_false_2 _ Hnoempty). cbn [orb].
  rewrite (bool_decide_eq_true_2 _ Hdtnd). cbn [mbind outcome_bind].
  change (ra_len (encoded df tabs dt)) with (df_len df). rewrite <- Hrows.
  rewrite (forM_seq_lookup _ (fun t => np_zeros_table (sa_len t) dt) tabs).
  2:{ intros i t Ht.
      destruct (ngal_scalar df tabs dt Hready
                  (map (gal_field (max_len tabs) tabs 0) dt) i t Ht) as (c & Hc & Hk).
      fold (encoded df tabs dt) in Hc. rewrite Hc. cbn [mbind outcome_bind].
      rewrite Hk. cbn [mbind outcome_bind].
      replace (Z.of_nat (sa_len t) <? 0) with false by (symmetry; apply Z.ltb_ge; lia).
      now rewrite Nat2Z.id. }
  2:{ reflexivity. }
  cbn [mbind outcome_bind]. rewrite drop_0.
  pose proof (unpad_outer_loop df tabs dt Hready Hrows (length tabs) 0%nat eq_refl) as Hloop.
  rewrite take_0, drop_0 in Hloop. cbn [app] in Hloop.
  rewrite Hrows in Hloop |- *.
  change (ra_len (encoded df tabs dt)) with (df_len df).
  change (fun (gals : list sarray) (i : nat) =>
            foldM (fun (gals0 : list sarray) (field : string) =>
                     unpad_step (encoded df tabs dt) i gals0 field) gals (map fst dt))
    with (fun (gals : list sarray) (j : nat) =>
            foldM (unpad_step (encoded df tabs dt) j) gals (map fst dt)) in Hloop.
  unfold unpad_step in Hloop. rewrite Hloop. cbn [mbind outcome_bind].
  assert (Hnames : List.filter (fun nm => negb (is_gal nm)) (ra_names (encoded df tabs dt))
                   = df_columns df).
  { unfold ra_names, encoded. cbn [ra_fields]. rewrite map_app, !map_map, List.filter_app. cbn.
    rewrite filter_all.
    2:{ apply Forall_forall. intros nm Hnm. rewrite Forall_forall in Hunres.
        unfold df_columns in Hunres. now rewrite (Hunres nm Hnm). }
    rewrite filter_none; [now rewrite app_nil_r|].
    rewrite Forall_map. apply Forall_forall. intros d _. cbn.
    now rewrite is_gal_prefixed. }
  rewrite Hnames. unfold frame_of.
  rewrite bool_decide_eq_false_2.
  2:{ unfold df_columns. intros Hnil. apply map_eq_nil in Hnil. rewrite Hnil in Hin.
      inversion Hin. }
  unfold df_columns.
  rewrite (forM_comp_ok _ _ cast_col).
  2:{ apply Forall_forall. intros c Hc.
      destruct (list_elem_of_split _ _ Hc) as (pre & post & Hsplit).
      assert (Hfind : find_field (c_name c) (encoded df tabs dt) = Some (prop_field c)).
      { unfold find_field, encoded. cbn [ra_fields]. rewrite Hsplit, map_app. cbn [map].
        rewrite <- app_assoc. cbn [app].
        apply (find_named_app rf_name); [|reflexivity].
        rewrite map_map. cbn. unfold df_columns in Hnd.
        rewrite Hsplit, map_app in Hnd. cbn in Hnd. apply NoDup_app in Hnd.
        destruct Hnd as (_ & Hdis & _). intros H. apply (Hdis _ H). left. }
      rewrite Hfind. reflexivity. }
  cbn [mbind outcome_bind]. rewrite Hg. cbn [mbind outcome_bind].
  reflexivity.
Qed.

(** ** The padded array round trip *)

(** Decidable side conditions on concrete data, by evaluation. *)
Ltac by_decide :=
  match goal with
  | |- ~ ?P => apply (bool_decide_eq_false_1 P); vm_compute; reflexivity
  | |- ?x ∉ ?l => apply (bool_decide_eq_false_1 (x ∈ l)); vm_compute; reflexivity
  | |- ?P => apply (bool_decide_eq_true_1 P); vm_compute; reflexivity
  end.

(** The example catalog is one the codec accepts. *)
Lemma ex_codec_ready : codec_ready ex_frame [ex_v0; ex_v1] [("v", I8)].
Proof.
  split.
  - split; [by_decide | repeat constructor ..].
  - repeat constructor.
  - exists (Column "Ngal" I8 [CInt 3; CInt 1]). split; [|split].
    + right. left.
    + reflexivity.
    + repeat constructor.
  - repeat constructor.
  - split; [discriminate|]. split; by_decide.
  - repeat constructor.
  - cbn. lia.
  - discriminate.
  - by_decide.
Qed.

Lemma npy_roundtrip_result (σ : store) (self target : loc) (filename : string)
  (o o' : CatObj) (df : DataFrame) (tabs : list sarray)
  (dt : list (string * ntype)) :
  st_cats σ !! self = Some o -> st_cats σ !! target = Some o' ->
  prop o = PFrame df -> gal_tables (gal o) = Some tabs ->
  length tabs = df_len df -> codec_ready df tabs dt ->
  save_npy σ self filename
  = Ok (tt, write_file σ (npy_name filename) (NpyFile (encoded df tabs dt))) /\
  forall par,
    exists g,
      load_npy (write_file σ (npy_name filename) (NpyFile (encoded df tabs dt)))
        target (npy_name filename) par
      = Ok (target,
            set_cat (write_file σ (npy_name filename) (NpyFile (encoded df tabs dt)))
              target
              (Cat (default (RDict load_npy_default) par) (PFrame (cast_frame df)) g)) /\
      gal_tables g = Some tabs /\ held_in_array g = true.
Proof.
  intros Hself Htarget Hprop Hgal Hrows Hready. split.
  - unfold save_npy. rewrite (get_cat_some _ _ _ Hself). cbn [mbind outcome_bind].
    rewrite Hprop, (encode_ok df (gal o) tabs dt Hready Hgal Hrows). reflexivity.
  - intros par0. destruct (decode_ok df tabs dt Hready Hrows) as (g & Hdec & Hg & Ha).
    exists g. split; [|now split].
    unfold load_npy, write_file. cbn [st_files]. rewrite lookup_insert_eq.
    rewrite Hdec. cbn [mbind outcome_bind].
    unfold get_cat. cbn [st_cats]. rewrite Htarget. reflexivity.
Qed.

(** A catalog of two clusters with one galaxy each, and a catalog with
    a property column whose name is empty. *)
Definition ex_w0 : sarray := SArray 1 [Column "v" I8 [CInt 11]].
Definition ex_w1 : sarray := SArray 1 [Column "v" I8 [CInt 21]].

Definition ex_single_store : store :=
  Store {[ ex_self := Cat RNone
                        (PFrame (Frame [LInt 0; LInt 1]
                                   [Column "M" I8 [CInt 7; CInt 8];
                                    Column "Ngal" I8 [CInt 1; CInt 1]]))
                        (GObject [ex_w0; ex_w1]) ]}
        {[ load_npy_default := ∅ ]} ∅.

Definition ex_unnamed_store : store :=
  Store {[ ex_self := Cat RNone
                        (PFrame (Frame [LInt 0; LInt 1]
                                   [Column EmptyString I8 [CInt 7; CInt 8];
                                    Column "Ngal" I8 [CInt 3; CInt 1]]))
                        (GObject [ex_v0; ex_v1]) ]}
        {[ load_npy_default := ∅ ]} ∅.




(** The scenario of the specification, evaluated: Ngal = [3, 1] and one
    galaxy field [v]. *)
Example save_npy_pads_scenario :
  save_npy ex_store2 ex_self "cat"
  = Ok (tt, write_file ex_store2 "cat.npy"
              (NpyFile (encoded ex_frame [ex_v0; ex_v1] [("v", I8)]))) /\
  ra_vector (encoded ex_frame [ex_v0; ex_v1] [("v", I8)]) 0 "gal_v"
  = Ok [CInt 11; CInt 12; CInt 13] /\
  ra_vector (encoded ex_frame [ex_v0; ex_v1] [("v", I8)]) 1 "gal_v"
  = Ok [CInt 21; CInt 0; CInt 0] /\
  decode (encoded ex_frame [ex_v0; ex_v1] [("v", I8)])
  = Ok (cast_frame ex_frame, GObject [ex_v0; ex_v1]) /\
  map sa_len [ex_v0; ex_v1] = [3%nat; 1%nat].
Proof.
  repeat split; vm_compute; reflexivity.
Qed.

(** A catalog without clusters, and a catalog with a property column
    whose name starts with the reserved prefix. *)
Definition ex_empty_store : store :=
  Store {[ ex_self := Cat RNone
                        (PFrame (Frame [] [Column "M" I8 []; Column "Ngal" I8 []]))
                        (GObject []) ]}
        {[ load_npy_default := ∅ ]} ∅.

Definition ex_reserved_store : store :=
  Store {[ ex_self := Cat RNone
                        (PFrame (Frame [LInt 0; LInt 1]
                                   [Column "gal_id" I8 [CInt 7; CInt 8];
                                    Column "Ngal" I8 [CInt 3; CInt 1]]))
                        (GObject [ex_v0; ex_v1]) ]}
        {[ load_npy_default := ∅ ]} ∅.

Definition ex_repeated_store : store :=
  Store {[ ex_self := Cat RNone
                        (PFrame (Frame [LInt 0; LInt 1]
                                   [Column "M" I8 [CInt 7; CInt 8];
                                    Column "M" I8 [CInt 5; CInt 6];
                                    Column "Ngal" I8 [CInt 3; CInt 1]]))
                        (GObject [ex_v0; ex_v1]) ]}
        {[ load_npy_default := ∅ ]} ∅.

(** Catalogs that satisfy the data-model invariants and do not come
    back: without clusters and with a largest galaxy count of 1
    [save_npy] raises; so it does with a property column of empty name
    or a column name that occurs twice; a property column named with
    the reserved prefix is written and makes [load_npy] raise; and the
    file written under a name without [.npy] is not found under that
    name. *)
Lemma npy_roundtrip_counterexample :
  save_npy ex_empty_store ex_self "cat.npy" = Raise IndexError /\
  save_npy ex_single_store ex_self "cat.npy" = Raise TypeError /\
  save_npy ex_unnamed_store ex_self "cat.npy" = Raise ValueError /\
  save_npy ex_repeated_store ex_self "cat.npy" = Raise ValueError /\
  (exists x,
     save_npy ex_reserved_store ex_self "cat.npy"
     = Ok (tt, write_file ex_reserved_store "cat.npy" (NpyFile x)) /\
     load_npy (write_file ex_reserved_store "cat.npy" (NpyFile x)) ex_self "cat.npy" None
     = Raise ValueError) /\
  (exists x,
     save_npy ex_store ex_self "cat"
     = Ok (tt, write_file ex_store "cat.npy" (NpyFile x)) /\
     load_npy (write_file ex_store "cat.npy" (NpyFile x)) ex_self "cat" None
     = Raise FileNotFoundError).
Proof.
  split; [vm_compute; reflexivity|].
  split; [vm_compute; reflexivity|].
  split; [vm_compute; reflexivity|].
  split; [vm_compute; reflexivity|]. split.
  - exists (RecArray 2
              [RField "gal_id" F8 (ScalarField [CFlt (f64_of_Z 7); CFlt (f64_of_Z 8)]);
               RField "Ngal" F8 (ScalarField [CFlt (f64_of_Z 3); CFlt (f64_of_Z 1)]);
               RField "gal_v" I8
                 (VectorField 3 [[CInt 11; CInt 12; CInt 13]; [CInt 21; CInt 0; CInt 0]])]).
    split; vm_compute; reflexivity.
  - exists (encoded ex_frame [ex_v0; ex_v1] [("v", I8)]).
    split; vm_compute; reflexivity.
Qed.

(** A catalog whose clusters have no galaxy at all: the padded vectors
    have no slot. *)
Definition ex_z0 : sarray := SArray 0 [Column "v" I8 []].

Definition ex_void_frame : DataFrame :=
  Frame [LInt 0; LInt 1]
    [Column "M" I8 [CInt 7; CInt 8]; Column "Ngal" I8 [CInt 0; CInt 0]].

Definition ex_void_store : store :=
  Store {[ ex_self := Cat RNone (PFrame ex_void_frame) (GObject [ex_z0; ex_z0]) ]}
        {[ load_npy_default := ∅ ]} ∅.

Lemma ex_void_ready : codec_ready ex_void_frame [ex_z0; ex_z0] [("v", I8)].
Proof.
  split.
  - split; [by_decide | repeat constructor ..].
  - repeat constructor.
  - exists (Column "Ngal" I8 [CInt 0; CInt 0]). split; [|split].
    + right. left.
    + reflexivity.
    + repeat constructor.
  - repeat constructor.
  - split; [discriminate|]. split; by_decide.
  - repeat constructor.
  - cbn. lia.
  - discriminate.
  - by_decide.
Qed.

(** C1 (as amended): for a catalog that the codec accepts, [save_npy]
    writes the encoded array to the file name, [.npy] appended when it
    is missing; [load_npy] of that file then puts into the instance it
    is called on, and returns, the property table with every column
    cast to float64 and the rows labelled 0 .. n-1, and a numpy array
    of the galaxy tables, each equal to the table of the saved catalog.
    The metadata of the saved catalog is not written: the loading
    instance gets the reference passed as [par], or else the one
    default dictionary of [load_npy]. *)
Theorem npy_roundtrip (σ : store) (self target : loc) (filename : string)
  (o o' : CatObj) (df : DataFrame) (tabs : list sarray)
  (dt : list (string * ntype))
  (Hself : st_cats σ !! self = Some o)
  (Htarget : st_cats σ !! target = Some o')
  (Hprop : prop o = PFrame df)
  (Hgal : gal_tables (gal o) = Some tabs)
  (Hrows : length tabs = df_len df)
  (Hready : codec_ready df tabs dt) :
  exists σ1,
    save_npy σ self filename = Ok (tt, σ1) /\
    st_cats σ1 = st_cats σ /\ st_dicts σ1 = st_dicts σ /\
    forall par,
      exists g,
        load_npy σ1 target (npy_name filename) par
        = Ok (target,
              set_cat σ1 target
                (Cat (default (RDict load_npy_default) par)
                   (PFrame (cast_frame df)) g)) /\
        gal_tables g = Some tabs /\ held_in_array g = true.
Proof.
  destruct (npy_roundtrip_result σ self target filename o o' df tabs dt
              Hself Htarget Hprop Hgal Hrows Hready) as [Hsave Hload].
  eexists. split; [exact Hsave|]. split; [reflexivity|]. split; [reflexivity|].
  exact Hload.
Qed.

Lemma npy_roundtrip_witness :
  (exists σ1,
     save_npy ex_store2 ex_self "cat" = Ok (tt, σ1) /\
     st_cats σ1 = st_cats ex_store2 /\ st_dicts σ1 = st_dicts ex_store2 /\
     forall par,
       exists g,
         load_npy σ1 ex_target (npy_name "cat") par
         = Ok (ex_target,
               set_cat σ1 ex_target
                 (Cat (default (RDict load_npy_default) par)
                    (PFrame (cast_frame ex_frame)) g)) /\
         gal_tables g = Some [ex_v0; ex_v1] /\ held_in_array g = true) /\
  (exists σ1,
     save_npy ex_void_store ex_self "void.npy" = Ok (tt, σ1) /\
     st_cats σ1 = st_cats ex_void_store /\ st_dicts σ1 = st_dicts ex_void_store /\
     forall par,
       exists g,
         load_npy σ1 ex_self (npy_name "void.npy") par
         = Ok (ex_self,
               set_cat σ1 ex_self
                 (Cat (default (RDict load_npy_default) par)
                    (PFrame (cast_frame ex_void_frame)) g)) /\
         gal_tables g = Some [ex_z0; ex_z0] /\ held_in_array g = true).
Proof.
  split.
  - exact (npy_roundtrip ex_store2 ex_self ex_target "cat"
             (Cat (RDict 5%positive) (PFrame ex_frame) (GObject [ex_v0; ex_v1]))
             (Cat RNone PNone GNone) ex_frame [ex_v0; ex_v1] [("v", I8)]
             eq_refl eq_refl eq_refl eq_refl eq_refl ex_codec_ready).
  - exact (npy_roundtrip ex_void_store ex_self ex_self "void.npy"
             (Cat RNone (PFrame ex_void_frame) (GObject [ex_z0; ex_z0]))
             (Cat RNone (PFrame ex_void_frame) (GObject [ex_z0; ex_z0]))
             ex_void_frame [ex_z0; ex_z0] [("v", I8)]
             eq_refl eq_refl eq_refl eq_refl eq_refl ex_void_ready).
Defined.

(** ** The alignment invariants *)

(** The invariants of the data model for a Catalog instance with
    property table [df] and galaxy tables [tabs]: one table per row,
    and the [Ngal] entry of each row holding the length of its table. *)
Record sound_catalog (o : CatObj) (df : DataFrame) (tabs : list sarray)
  : Prop := {
  sc_prop : prop o = PFrame df;
  sc_gal : gal_tables (gal o) = Some tabs;
  sc_cols : Forall (fun c => length (c_data c) = df_len df) (df_cols df);
  sc_rows : length tabs = df_len df;
  sc_ngal : exists col, col ∈ df_cols df /\ c_name col = "Ngal" /\
                        Forall2 (fun c t => counts c (sa_len t)) (c_data col) tabs
}.

Lemma gal_len_tables (g : galval) (tabs : list sarray) :
  gal_tables g = Some tabs -> gal_len g = Ok (length tabs).
Proof.
  destruct g; cbn; intros H; try discriminate H; injection H as <-; reflexivity.
Qed.

Lemma sel_Forall2 {A B : Type} (R : A -> B -> Prop) (l1 : list A) (l2 : list B)
  (zs : list Z) :
  Forall2 R l1 l2 -> Forall2 R (sel l1 zs) (sel l2 zs).
Proof.
  intros H. pose proof (Forall2_length _ _ _ H) as Hlen. unfold sel.
  rewrite <- Hlen.
  induction zs as [|z zs IH]; [constructor|].
  cbn [omap list_omap].
  destruct (norm_index (length l1) z) as [i|]; cbn; [|exact IH].
  destruct (l1 !! i) as [a|] eqn:Ea.
  - destruct (Forall2_lookup_l _ _ _ _ _ H Ea) as (b & Eb & Hab).
    rewrite Eb. now constructor.
  - assert (Eb : l2 !! i = None).
    { apply lookup_ge_None. apply lookup_ge_None in Ea. lia. }
    now rewrite Eb.
Qed.

Lemma range_index_length (n : nat) : length (range_index n) = n.
Proof. unfold range_index. now rewrite List.length_map, length_seq. Qed.

Lemma sound_selection (o : CatObj) (df : DataFrame) (tabs : list sarray)
  (zs : list Z) (p : pyref) (g : galval) :
  sound_catalog o df tabs ->
  Forall (in_range (df_len df)) zs ->
  gal_tables g = Some (sel tabs zs) ->
  sound_catalog
    (Cat p (PFrame (Frame (range_index (length zs)) (sel_cols (df_cols df) zs))) g)
    (Frame (range_index (length zs)) (sel_cols (df_cols df) zs))
    (sel tabs zs).
Proof.
  intros [Hp Hg Hcols Hrows (col & Hin & Hname & Hcnt)] Hzs Hg'.
  assert (Hlen : df_len (Frame (range_index (length zs)) (sel_cols (df_cols df) zs))
                 = length zs) by apply range_index_length.
  split.
  - reflexivity.
  - exact Hg'.
  - rewrite Hlen. cbn [df_cols]. unfold sel_cols. rewrite Forall_map.
    eapply Forall_impl; [exact Hcols|]. intros c Hc. cbn.
    apply picks_in_range. cbn beta in Hc. now rewrite Hc.
  - rewrite Hlen. apply picks_in_range. now rewrite Hrows.
  - exists (Column (c_name col) (c_type col) (sel (c_data col) zs)).
    split; [|split].
    + cbn [df_cols]. unfold sel_cols.
      apply (list_elem_of_fmap_2
               (fun c => Column (c_name c) (c_type c) (sel (c_data c) zs))). exact Hin.
    + exact Hname.
    + cbn [c_data]. now apply sel_Forall2.
Qed.

Lemma counts_cast (c : cell) (n : nat) : counts c n -> counts (astype F8 c) n.
Proof. intros [-> | ->]; right; reflexivity. Qed.

Lemma sound_cast (o : CatObj) (df : DataFrame) (tabs : list sarray)
  (p : pyref) (g : galval) :
  sound_catalog o df tabs ->
  gal_tables g = Some tabs ->
  sound_catalog (Cat p (PFrame (cast_frame df)) g) (cast_frame df) tabs.
Proof.
  intros [Hp Hg Hcols Hrows (col & Hin & Hname & Hcnt)] Hg'.
  assert (Hlen : df_len (cast_frame df) = df_len df) by apply range_index_length.
  split.
  - reflexivity.
  - exact Hg'.
  - rewrite Hlen. cbn [cast_frame df_cols]. rewrite Forall_map.
    eapply Forall_impl; [exact Hcols|]. intros c Hc. cbn.
    now rewrite List.length_map.
  - now rewrite Hlen.
  - exists (cast_col col). split; [|split].
    + cbn [cast_frame df_cols]. now apply (list_elem_of_fmap_2 cast_col).
    + exact Hname.
    + cbn [cast_col c_data]. apply Forall2_fmap_l.
      eapply Forall2_impl; [exact Hcnt|]. intros c t. apply counts_cast.
Qed.

(** The instance at [l] satisfies the invariants, and its length, the
    length of its property table and the length of its member sequence
    are one number. *)
Definition aligned (σ : store) (l : loc) : Prop :=
  exists o df tabs,
    st_cats σ !! l = Some o /\ sound_catalog o df tabs /\
    len σ l = Ok (df_len df) /\ prop_len (prop o) = Ok (df_len df) /\
    gal_len (gal o) = Ok (df_len df).

Lemma sound_aligned (σ : store) (l : loc) (o : CatObj) (df : DataFrame)
  (tabs : list sarray) :
  st_cats σ !! l = Some o -> sound_catalog o df tabs -> aligned σ l.
Proof.
  intros Hl Hs. exists o, df, tabs. split; [exact Hl|]. split; [exact Hs|].
  destruct Hs as [Hp Hg _ Hrows _].
  unfold len. rewrite (get_cat_some _ _ _ Hl). cbn [mbind outcome_bind].
  rewrite Hp. cbn [prop_len]. split; [reflexivity|]. split; [reflexivity|].
  rewrite (gal_len_tables _ _ Hg). now rewrite Hrows.
Qed.

(** C6 (the code at failing inputs): the equalities
    [len(C) == len(C.properties) == len(C.members)] do not survive the
    operations.  The sum of two catalogs of one cluster each, whose
    members are lists of one table of two galaxies, has length 2 and 4
    members, the galaxy records; the result of indexing the example
    catalog with the integer 0 has length 2, the number of property
    columns, and 3 members, the galaxy records of its first cluster. *)
Theorem invariants_broken :
  (add ex_add_store ex_a ex_b
   = Ok (new_cat ex_add_store
           (Cat (RDict 5%positive)
              (PFrame (Frame [LInt 0; LInt 1]
                         [Column "M" I8 [CInt 7; CInt 9];
                          Column "Ngal" I8 [CInt 2; CInt 2]]))
              (GTable (SArray 4 [Column "v" I8 [CInt 11; CInt 12; CInt 21; CInt 22]])))) /\
   len (new_cat ex_add_store
          (Cat (RDict 5%positive)
             (PFrame (Frame [LInt 0; LInt 1]
                        [Column "M" I8 [CInt 7; CInt 9];
                         Column "Ngal" I8 [CInt 2; CInt 2]]))
             (GTable (SArray 4 [Column "v" I8 [CInt 11; CInt 12; CInt 21; CInt 22]])))).2
       (fresh (dom (st_cats ex_add_store)))
   = Ok 2%nat /\
   gal_len (GTable (SArray 4 [Column "v" I8 [CInt 11; CInt 12; CInt 21; CInt 22]]))
   = Ok 4%nat) /\
  (getitem ex_store ex_self (KInt 0)
   = Ok (new_cat ex_store
           (Cat (RDict 5%positive)
              (PSeries (MkSeries [LInt 0; LInt 1] I8 [CInt 7; CInt 3]))
              (GTable ex_v0))) /\
   len (new_cat ex_store
          (Cat (RDict 5%positive)
             (PSeries (MkSeries [LInt 0; LInt 1] I8 [CInt 7; CInt 3]))
             (GTable ex_v0))).2
       (fresh (dom (st_cats ex_store)))
   = Ok 2%nat /\
   gal_len (GTable ex_v0) = Ok 3%nat).
Proof.
  repeat split; vm_compute; reflexivity.
Qed.

(** Where the invariants are kept: a Catalog that satisfies them has
    [len(C) == len(C.properties) == len(C.members)], and so has the
    Catalog obtained from it by indexing with a list or an array of
    in-range positions (members held in a numpy array), by a pickle
    round trip, or by a padded-array round trip (for a catalog that the
    codec accepts): each result satisfies the invariants again, with
    [len(members[i]) == Ngal[i]] for every [i].  After indexing with a
    single integer the length of the result is the number of property
    columns and its members are one galaxy table. *)
Theorem invariants_kept (σ : store) (self : loc) (o : CatObj)
  (df : DataFrame) (tabs : list sarray)
  (Hself : st_cats σ !! self = Some o)
  (Hsound : sound_catalog o df tabs) :
  aligned σ self /\
  (forall zs key,
     key = KList zs \/ key = KArray zs ->
     held_in_array (gal o) = true ->
     Forall (in_range (df_len df)) zs ->
     exists new σ', getitem σ self key = Ok (new, σ') /\ aligned σ' new) /\
  (forall target o0 filename,
     st_cats σ !! target = Some o0 ->
     par o = RNone \/ (exists l, par o = RDict l /\ is_Some (st_dicts σ !! l)) ->
     exists σ1 σ2,
       save σ self filename = Ok (tt, σ1) /\
       load σ1 target filename = Ok (target, σ2) /\ aligned σ2 target) /\
  (forall target o0 filename dt par,
     st_cats σ !! target = Some o0 ->
     codec_ready df tabs dt ->
     exists σ1 σ2,
       save_npy σ self filename = Ok (tt, σ1) /\
       load_npy σ1 target (npy_name filename) par = Ok (target, σ2) /\
       aligned σ2 target) /\
  (forall z i t,
     norm_index (df_len df) z = Some i -> tabs !! i = Some t ->
     exists new σ' o',
       getitem σ self (KInt z) = Ok (new, σ') /\
       st_cats σ' !! new = Some o' /\
       len σ' new = Ok (length (df_cols df)) /\ gal o' = GTable t).
Proof.
  pose proof Hsound as [Hp Hg Hcols Hrows Hngal].
  split; [now apply (sound_aligned σ self o df tabs)|].
  split; [|split; [|split]].
  - intros zs key Hkey Harr Hzs.
    destruct (getitem_list_result σ self o df tabs zs key
                Hself Hp Hg Hcols Hrows Hkey Harr Hzs) as (g & Hget & Hgt & _).
    eexists _, _. split; [exact Hget|].
    eapply sound_aligned.
    + cbn [set_cat st_cats]. apply lookup_insert_eq.
    + now apply (sound_selection o df tabs zs).
  - intros target o0 filename Htarget Hpar.
    assert (Hgo : gal o <> GOther) by (intros E; rewrite E in Hg; discriminate Hg).
    destruct (pickle_roundtrip σ self target filename o o0 Hself Htarget Hgo Hpar)
      as (σ1 & σ2 & o2 & Hsave & Hload & Ho2 & Hp2 & Hg2 & _).
    exists σ1, σ2. split; [exact Hsave|]. split; [exact Hload|].
    apply (sound_aligned σ2 target o2 df tabs Ho2).
    split; try assumption; congruence.
  - intros target o0 filename dt par0 Htarget Hready.
    destruct (npy_roundtrip_result σ self target filename o o0 df tabs dt
                Hself Htarget Hp Hg Hrows Hready) as [Hsave Hload].
    destruct (Hload par0) as (g & Hl & Hgt & _).
    eexists _, _. split; [exact Hsave|]. split; [exact Hl|].
    eapply sound_aligned.
    + cbn [set_cat st_cats]. apply lookup_insert_eq.
    + now apply (sound_cast o df tabs).
  - intros z i t Hi Ht.
    eexists _, _, _. split; [|split; [|split]].
    + exact (getitem_int_result σ self o df tabs z i t Hself Hp Hg Hcols Hrows Hi Ht).
    + cbn [set_cat st_cats]. apply lookup_insert_eq.
    + unfold len, get_cat. cbn [set_cat st_cats]. rewrite lookup_insert_eq.
      cbn. now rewrite range_index_length.
    + reflexivity.
Qed.

Lemma ex_sound :
  sound_catalog (Cat (RDict 5%positive) (PFrame ex_frame) (GObject [ex_v0; ex_v1]))
    ex_frame [ex_v0; ex_v1].
Proof.
  split; try reflexivity.
  - repeat constructor.
  - exists (Column "Ngal" I8 [CInt 3; CInt 1]). split; [|split].
    + right. left.
    + reflexivity.
    + repeat constructor.
Qed.

Lemma invariants_kept_witness :
  aligned ex_store2 ex_self /\
  (exists new σ', getitem ex_store2 ex_self (KList [1; 0]) = Ok (new, σ') /\
                  aligned σ' new) /\
  (exists σ1 σ2,
     save ex_store2 ex_self "cat.pkl" = Ok (tt, σ1) /\
     load σ1 ex_target "cat.pkl" = Ok (ex_target, σ2) /\ aligned σ2 ex_target) /\
  (exists σ1 σ2,
     save_npy ex_store2 ex_self "cat" = Ok (tt, σ1) /\
     load_npy σ1 ex_target (npy_name "cat") None = Ok (ex_target, σ2) /\
     aligned σ2 ex_target).
Proof.
  destruct (invariants_kept ex_store2 ex_self _ ex_frame [ex_v0; ex_v1]
              eq_refl ex_sound) as (H1 & H2 & H3 & H4 & _).
  split; [exact H1|]. split; [|split].
  - apply (H2 [1; 0] (KList [1; 0]) (or_introl eq_refl) eq_refl).
    repeat constructor; cbn; lia.
  - apply (H3 ex_target (Cat RNone PNone GNone) "cat.pkl" eq_refl).
    right. exists 5%positive. split; [reflexivity|]. eexists. reflexivity.
  - exact (H4 ex_target (Cat RNone PNone GNone) "cat" [("v", I8)] None eq_refl
             ex_codec_ready).
Defined.

(** * Further properties of the Catalog methods *)

(** ** Construction *)

(** [Catalog.__init__]: the three arguments are stored as they are
    given, each defaulting to [None]. *)
Definition init (σ : store) (par0 : option pyref) (prop0 : option propval)
  (gal0 : option galval) : loc * store :=
  new_cat σ (Cat (default RNone par0) (default PNone prop0) (default GNone gal0)).

(** A Catalog created without arguments holds no table: [len], indexing
    with any supported selector, [+] and [save_npy] raise, each with the
    error of the first attribute access on [None], whereas [save]
    writes it and [load] can fill it. *)
Theorem init_empty_instance (σ : store) (l : loc) (σ' : store)
  (Hinit : init σ None None None = (l, σ')) :
  st_cats σ !! l = None /\
  len σ' l = Raise TypeError /\
  (forall key, key_supported key = true -> getitem σ' l key = Raise AttributeError) /\
  (forall other o, st_cats σ' !! other = Some o -> add σ' l other = Raise AttributeError) /\
  (forall filename, save_npy σ' l filename = Raise TypeError) /\
  (forall filename,
     save σ' l filename
     = Ok (tt, write_file σ' filename (PickleFile (Pickled None PNone GNone)))).
Proof.
  unfold init, new_cat in Hinit. injection Hinit as <- <-.
  set (l := fresh (dom (st_cats σ))).
  assert (Hl : st_cats (set_cat σ l (Cat RNone PNone GNone)) !! l
               = Some (Cat RNone PNone GNone)) by apply lookup_insert_eq.
  split; [apply not_elem_of_dom, is_fresh|].
  split; [|split; [|split; [|split]]].
  - unfold len. now rewrite (get_cat_some _ _ _ Hl).
  - intros key Hk. unfold getitem. rewrite (get_cat_some _ _ _ Hl).
    cbn [mbind outcome_bind]. now rewrite Hk.
  - intros other o Ho. unfold add.
    rewrite (get_cat_some _ _ _ Hl), (get_cat_some _ _ _ Ho). reflexivity.
  - intros filename. unfold save_npy. now rewrite (get_cat_some _ _ _ Hl).
  - intros filename. unfold save. now rewrite (get_cat_some _ _ _ Hl).
Qed.

Lemma init_empty_instance_witness :
  st_cats ex_store !! (init ex_store None None None).1 = None /\
  len (init ex_store None None None).2 (init ex_store None None None).1
  = Raise TypeError.
Proof.
  destruct (init_empty_instance ex_store _ _ eq_refl) as (H1 & H2 & _).
  split; [exact H1 | exact H2].
Defined.

(** ** Indexing out of bounds *)

Lemma pick_cases {A : Type} (l : list A) (z : Z) :
  (exists a, pick l z = Ok a) \/ pick l z = Raise IndexError.
Proof.
  unfold pick. destruct (norm_index (length l) z) as [i|]; [|now right].
  destruct (l !! i) as [a|]; [left; now exists a | now right].
Qed.

Lemma pick_out_of_range {A : Type} (l : list A) (z : Z) :
  ~ in_range (length l) z -> pick l z = Raise IndexError.
Proof.
  intros H. unfold pick. rewrite norm_index_none; [reflexivity|].
  unfold in_range in H. lia.
Qed.

Lemma picks_out_of_range {A : Type} (l : list A) (zs : list Z) :
  Exists (fun z => ~ in_range (length l) z) zs -> picks l zs = Raise IndexError.
Proof.
  unfold picks. induction 1 as [z zs Hz | z zs _ IH]; cbn [forM].
  - now rewrite (pick_out_of_range l z Hz).
  - destruct (pick_cases l z) as [[a ->] | ->]; [|reflexivity].
    cbn [mbind outcome_bind]. now rewrite IH.
Qed.

Lemma forallb_false_Exists {A : Type} (p : A -> bool) (l : list A) :
  Exists (fun a => p a = false) l -> forallb p l = false.
Proof.
  induction 1 as [a l Ha | a l _ IH]; cbn [forallb].
  - now rewrite Ha.
  - rewrite IH. apply andb_false_r.
Qed.

Lemma index_kind_int64 (n : nat) (zs : list Z) :
  Forall (fun z => - 2 ^ 63 <= z < 2 ^ 63) zs -> index_kind_of n zs = IdxInt.
Proof.
  intros H. unfold index_kind_of. destruct (forallb (in_axis n) zs); [reflexivity|].
  replace (forallb (fun z => (- 2 ^ 63 <=? z) && (z <? 2 ^ 63)) zs) with true;
    [reflexivity|].
  symmetry. apply forallb_forall. intros z Hz. rewrite Forall_forall in H.
  apply list_elem_of_In, H in Hz.
  apply andb_true_intro. split; [apply Z.leb_le | apply Z.ltb_lt]; lia.
Qed.

Lemma index_kind_object (n : nat) (zs : list Z) :
  Z.of_nat n <= 2 ^ 63 ->
  Exists (fun z => z < - 2 ^ 63 \/ 2 ^ 64 <= z) zs ->
  index_kind_of n zs = IdxObject.
Proof.
  intros Hn H. unfold index_kind_of.
  rewrite !forallb_false_Exists; [reflexivity | | | |];
    (eapply Exists_impl; [exact H|]); cbn beta; intros z Hz;
    unfold in_axis; apply andb_false_iff;
    rewrite ?Z.leb_gt, ?Z.ltb_ge; lia.
Qed.

Lemma wrap_int64_small (zs : list Z) :
  Forall (fun z => z < 2 ^ 63) zs -> map wrap_int64 zs = zs.
Proof.
  intros H. rewrite <- (map_id zs) at 2. apply map_ext_Forall.
  eapply Forall_impl; [exact H|]. cbn beta. intros z Hz. unfold wrap_int64.
  now rewrite (proj2 (Z.ltb_lt z (2 ^ 63)) Hz).
Qed.

Lemma index_kind_uint (n : nat) (zs : list Z) :
  Z.of_nat n <= 2 ^ 63 ->
  Forall (fun z => 0 <= z < 2 ^ 64) zs ->
  (index_kind_of n zs = IdxInt /\ map wrap_int64 zs = zs) \/
  index_kind_of n zs = IdxUint.
Proof.
  intros Hn H. unfold index_kind_of.
  destruct (forallb (in_axis n) zs) eqn:E1.
  { left. split; [reflexivity|]. apply wrap_int64_small, Forall_forall.
    intros z Hz. rewrite forallb_forall in E1. apply list_elem_of_In, E1 in Hz.
    unfold in_axis in Hz. apply andb_prop in Hz. destruct Hz as [_ Hz].
    apply Z.ltb_lt in Hz. lia. }
  destruct (forallb (fun z => (- 2 ^ 63 <=? z) && (z <? 2 ^ 63)) zs) eqn:E2.
  { left. split; [reflexivity|]. apply wrap_int64_small, Forall_forall.
    intros z Hz. rewrite forallb_forall in E2. apply list_elem_of_In, E2 in Hz.
    apply andb_prop in Hz. destruct Hz as [_ Hz]. now apply Z.ltb_lt in Hz. }
  right.
  replace (forallb (fun z => (0 <=? z) && (z <? 2 ^ 64)) zs) with true; [reflexivity|].
  symmetry. apply forallb_forall. intros z Hz. rewrite Forall_forall in H.
  apply list_elem_of_In, H in Hz.
  apply andb_true_intro. split; [apply Z.leb_le | apply Z.ltb_lt]; lia.
Qed.

Lemma wrap_int64_range (zs : list Z) :
  Forall (fun z => 0 <= z < 2 ^ 64) zs ->
  Forall (fun z => - 2 ^ 63 <= z < 2 ^ 63) (map wrap_int64 zs).
Proof.
  intros H. rewrite Forall_map. eapply Forall_impl; [exact H|]. cbn beta.
  intros z Hz. unfold wrap_int64. destruct (z <? 2 ^ 63) eqn:E.
  - apply Z.ltb_lt in E. lia.
  - apply Z.ltb_ge in E. lia.
Qed.

(** Positions that need 64 bits are read modulo 2^64, by pandas and by
    numpy alike. *)
Lemma positions_wrap (n : nat) (zs : list Z) :
  Z.of_nat n <= 2 ^ 63 ->
  Forall (fun z => 0 <= z < 2 ^ 64) zs ->
  pd_positions n zs = Ok (map wrap_int64 zs) /\
  np_positions n zs = Ok (map wrap_int64 zs) /\
  pd_positions n (map wrap_int64 zs) = Ok (map wrap_int64 zs) /\
  np_positions n (map wrap_int64 zs) = Ok (map wrap_int64 zs).
Proof.
  intros Hn H. pose proof (index_kind_int64 n _ (wrap_int64_range zs H)) as Hw.
  unfold pd_positions, np_positions. rewrite Hw.
  destruct (index_kind_uint n zs Hn H) as [[-> ->] | ->]; auto.
Qed.

(** The key [key] with the positions [zs] in place of its own. *)
Definition with_positions (key : pykey) (zs : list Z) : pykey :=
  match key with
  | KArray _ => KArray zs
  | _ => KList zs
  end.

Lemma gal_getitem_wrap (g : galval) (zs : list Z) (key : pykey) :
  key = KList zs \/ key = KArray zs ->
  (forall m, gal_len g = Ok m -> Z.of_nat m <= 2 ^ 63) ->
  Forall (fun z => 0 <= z < 2 ^ 64) zs ->
  gal_getitem g key = gal_getitem g (with_positions key (map wrap_int64 zs)).
Proof.
  intros Hkey Hlen Hzs.
  destruct g as [|tabs|tabs|dt k tabs|t| |].
  - destruct Hkey as [-> | ->]; reflexivity.
  - destruct Hkey as [-> | ->]; [reflexivity|].
    destruct zs as [|z [|z' zs]]; reflexivity.
  - destruct (positions_wrap (length tabs) zs (Hlen _ eq_refl) Hzs)
      as (_ & H1 & _ & H2).
    destruct Hkey as [-> | ->]; cbn [gal_getitem with_positions]; now rewrite H1, H2.
  - destruct (positions_wrap (length tabs) zs (Hlen _ eq_refl) Hzs)
      as (_ & H1 & _ & H2).
    destruct Hkey as [-> | ->]; cbn [gal_getitem with_positions]; now rewrite H1, H2.
  - destruct (positions_wrap (sa_len t) zs (Hlen _ eq_refl) Hzs)
      as (_ & H1 & _ & H2).
    destruct Hkey as [-> | ->]; cbn [gal_getitem with_positions]; unfold table_rows;
      now rewrite H1, H2.
  - destruct Hkey as [-> | ->]; destruct zs; reflexivity.
  - destruct Hkey as [-> | ->]; reflexivity.
Qed.

(** What a list or an array selector does with positions outside the
    table.  Positions that fit a machine integer but lie outside the
    table make indexing fail with [IndexError], wherever they stand in
    the selector and whatever the members are.  A position that fits no
    64-bit integer makes it fail with [OverflowError].  Non-negative
    positions up to 2^64 - 1 are read modulo 2^64, so that [C[[2^64 - 1]]]
    is [C[[-1]]]. *)
Theorem getitem_list_out_of_range (σ : store) (self : loc) (o : CatObj)
  (df : DataFrame) (zs : list Z) (key : pykey)
  (Hself : st_cats σ !! self = Some o)
  (Hprop : prop o = PFrame df)
  (Hkey : key = KList zs \/ key = KArray zs) :
  (Forall (fun z => - 2 ^ 63 <= z < 2 ^ 63) zs ->
   Exists (fun z => ~ in_range (df_len df) z) zs ->
   getitem σ self key = Raise IndexError) /\
  (Z.of_nat (df_len df) <= 2 ^ 63 ->
   Exists (fun z => z < - 2 ^ 63 \/ 2 ^ 64 <= z) zs ->
   getitem σ self key = Raise OverflowError) /\
  (Z.of_nat (df_len df) <= 2 ^ 63 ->
   (forall m, gal_len (gal o) = Ok m -> Z.of_nat m <= 2 ^ 63) ->
   Forall (fun z => 0 <= z < 2 ^ 64) zs ->
   getitem σ self key = getitem σ self (with_positions key (map wrap_int64 zs))).
Proof.
  assert (Hsup : key_supported key = true) by (destruct Hkey as [-> | ->]; reflexivity).
  assert (Hiloc : prop_iloc (prop o) key = d ← df_iloc_list df zs; Ok (IFrame d)).
  { rewrite Hprop. destruct Hkey as [-> | ->]; reflexivity. }
  split; [|split].
  - intros Hfit Hout.
    unfold getitem. rewrite (get_cat_some _ _ _ Hself). cbn [mbind outcome_bind].
    rewrite Hsup, Hiloc. unfold df_iloc_list, pd_positions.
    rewrite (index_kind_int64 _ _ Hfit). cbn [mbind outcome_bind].
    now rewrite (picks_out_of_range (df_index df) zs Hout).
  - intros Hreal Hbig.
    unfold getitem. rewrite (get_cat_some _ _ _ Hself). cbn [mbind outcome_bind].
    rewrite Hsup, Hiloc. unfold df_iloc_list, pd_positions.
    now rewrite (index_kind_object _ _ Hreal Hbig).
  - intros Hreal Hgal Hzs.
    assert (Hsup' : key_supported (with_positions key (map wrap_int64 zs)) = true)
      by (destruct Hkey as [-> | ->]; reflexivity).
    assert (Hiloc' : prop_iloc (prop o) (with_positions key (map wrap_int64 zs))
                     = d ← df_iloc_list df zs; Ok (IFrame d)).
    { rewrite Hprop. destruct (positions_wrap (df_len df) zs Hreal Hzs)
        as (H1 & _ & H2 & _).
      destruct Hkey as [-> | ->]; cbn [prop_iloc with_positions]; unfold df_iloc_list;
        now rewrite H1, H2. }
    unfold getitem. rewrite (get_cat_some _ _ _ Hself). cbn [mbind outcome_bind].
    rewrite Hsup, Hsup', Hiloc, Hiloc'.
    now rewrite (gal_getitem_wrap (gal o) zs key Hkey Hgal Hzs).
Qed.

Lemma getitem_list_out_of_range_witness :
  getitem ex_store ex_self (KList [0; 2]) = Raise IndexError /\
  getitem ex_store ex_self (KList [2 ^ 70]) = Raise OverflowError /\
  getitem ex_store ex_self (KList [2 ^ 64 - 1]) = getitem ex_store ex_self (KList [-1]).
Proof.
  split; [|split].
  - apply (proj1 (getitem_list_out_of_range ex_store ex_self _ ex_frame [0; 2]
                    (KList [0; 2]) eq_refl eq_refl (or_introl eq_refl))).
    + repeat constructor; cbn; lia.
    + apply Exists_cons_tl, Exists_cons_hd. unfold in_range. cbn. lia.
  - apply (proj1 (proj2 (getitem_list_out_of_range ex_store ex_self _ ex_frame
                           [2 ^ 70] (KList [2 ^ 70]) eq_refl eq_refl
                           (or_introl eq_refl)))).
    + cbn. lia.
    + apply Exists_cons_hd. right. lia.
  - apply (proj2 (proj2 (getitem_list_out_of_range ex_store ex_self _ ex_frame
                           [2 ^ 64 - 1] (KList [2 ^ 64 - 1]) eq_refl eq_refl
                           (or_introl eq_refl)))).
    + cbn. lia.
    + intros m Hm. cbn in Hm. injection Hm as <-. cbn. lia.
    + repeat constructor; lia.
Defined.

(** ** Length of a concatenation *)

(** For operands whose properties are tables: whenever [A + B] returns,
    its length is the sum of the lengths of the operands, the operands
    are still what they were, and the result is a new instance carrying
    the metadata reference of [A].  (The result of indexing with a
    single integer holds a series, not a table; pandas appends a series
    as one row, and the rule does not extend to it.) *)
Theorem len_add (σ : store) (a b new : loc) (σ' : store) (oa ob : CatObj)
  (da db : DataFrame)
  (Hoa : st_cats σ !! a = Some oa)
  (Hob : st_cats σ !! b = Some ob)
  (Hpa : prop oa = PFrame da)
  (Hpb : prop ob = PFrame db)
  (Hadd : add σ a b = Ok (new, σ')) :
  len σ a = Ok (df_len da) /\ len σ b = Ok (df_len db) /\
  len σ' new = Ok (df_len da + df_len db)%nat /\
  st_cats σ !! new = None /\
  st_cats σ' !! a = Some oa /\ st_cats σ' !! b = Some ob /\
  exists o', st_cats σ' !! new = Some o' /\ par o' = par oa.
Proof.
  unfold add, len in *.
  rewrite (get_cat_some _ _ _ Hoa), (get_cat_some _ _ _ Hob) in *.
  cbn [mbind outcome_bind] in *. rewrite Hpa, Hpb in *.
  cbn [prop_append prop_len] in *.
  destruct (df_append da db) as [d| |] eqn:Ed; try discriminate Hadd.
  cbn [mbind outcome_bind] in Hadd.
  destruct (np_append (gal oa) (gal ob)) as [g| |]; try discriminate Hadd.
  cbn [mbind outcome_bind] in Hadd. unfold new_cat in Hadd.
  injection Hadd as <- <-.
  set (new := fresh (dom (st_cats σ))).
  assert (Hnew : st_cats σ !! new = None) by (apply not_elem_of_dom, is_fresh).
  assert (new <> a) by congruence. assert (new <> b) by congruence.
  unfold get_cat. cbn [set_cat st_cats].
  rewrite lookup_insert_eq, !lookup_insert_ne by congruence.
  cbn [mbind outcome_bind prop prop_len].
  unfold df_append in Ed.
  destruct (bool_decide (df_columns da = df_columns db) && bool_decide (NoDup (df_columns da)));
    [|discriminate Ed].
  injection Ed as <-. unfold df_reset_index, df_len. cbn [df_index].
  rewrite range_index_length, length_app.
  repeat split; auto. eexists. split; reflexivity.
Qed.

Lemma len_add_witness :
  len (set_cat ex_add_store (fresh (dom (st_cats ex_add_store)))
         (Cat (RDict 5%positive)
            (PFrame (Frame [LInt 0; LInt 1]
                       [Column "M" I8 [CInt 7; CInt 9];
                        Column "Ngal" I8 [CInt 2; CInt 2]]))
            (GTable (SArray 4 [Column "v" I8 [CInt 11; CInt 12; CInt 21; CInt 22]]))))
      (fresh (dom (st_cats ex_add_store)))
  = Ok (1 + 1)%nat.
Proof.
  refine (proj1 (proj2 (proj2
            (len_add ex_add_store ex_a ex_b _ _
               (Cat (RDict 5%positive) (PFrame ex_a_frame) (GList [ex_a_tab]))
               (Cat RNone (PFrame ex_b_frame) (GList [ex_b_tab]))
               ex_a_frame ex_b_frame _ _ eq_refl eq_refl _))));
    vm_compute; reflexivity.
Defined.

(** ** What save_npy refuses *)

Lemma count_col_absent (x : string) (cols : list column) :
  x ∉ map c_name cols -> count_col x cols = 0%nat.
Proof.
  unfold count_col. induction cols as [|c cols IH]; intros H; [reflexivity|].
  cbn. destruct (String.eqb (c_name c) x) eqn:E.
  - apply String.eqb_eq in E. exfalso. apply H. cbn. rewrite E. left.
  - apply IH. intros Hin. apply H. cbn. now right.
Qed.

(** Without a column called [Ngal] nothing is written: [save_npy]
    raises [KeyError], whatever the members are; so does it raise
    [IndexError] for a catalog without clusters, since the galaxy schema
    is read from the first galaxy table. *)
Theorem save_npy_refuses (σ : store) (self : loc) (o : CatObj)
  (df : DataFrame) (filename : string)
  (Hself : st_cats σ !! self = Some o)
  (Hprop : prop o = PFrame df) :
  ("Ngal" ∉ df_columns df -> save_npy σ self filename = Raise KeyError) /\
  (NoDup (df_columns df) -> "Ngal" ∈ df_columns df ->
   gal_tables (gal o) = Some [] -> save_npy σ self filename = Raise IndexError).
Proof.
  unfold save_npy. rewrite (get_cat_some _ _ _ Hself). cbn [mbind outcome_bind].
  rewrite Hprop. split.
  - intros Hno. unfold encode, df_getitem.
    now rewrite (count_col_absent _ _ Hno).
  - intros Hnd Hin Hg. unfold df_columns in Hin.
    apply list_elem_of_fmap in Hin. destruct Hin as (c & Hname & Hc).
    unfold encode. rewrite Hname, (df_getitem_nodup df c Hnd Hc).
    cbn [mbind outcome_bind].
    destruct (gal o); cbn in Hg; try discriminate Hg; try (injection Hg as ->);
      reflexivity.
Qed.

Lemma save_npy_refuses_witness :
  save_npy ex_empty_store ex_self "cat.npy" = Raise IndexError.
Proof.
  apply (proj2 (save_npy_refuses ex_empty_store ex_self _
                  (Frame [] [Column "M" I8 []; Column "Ngal" I8 []]) "cat.npy"
                  eq_refl eq_refl)).
  - by_decide.
  - right. left.
  - reflexivity.
Defined.

(** ** Metadata references *)

(** The metadata that [load] gives the instance is a dictionary of its
    own: a new object with the saved content, different from the
    dictionary of the instance that was saved, which stays in place.
    (Indexing and concatenation pass the reference of the source on.) *)
Theorem load_metadata_is_a_copy (σ : store) (self target : loc)
  (filename : string) (o o' : CatObj) (l : loc) (d : gmap string pyscalar)
  (Hself : st_cats σ !! self = Some o)
  (Htarget : st_cats σ !! target = Some o')
  (Hpar : par o = RDict l)
  (Hd : st_dicts σ !! l = Some d)
  (Hgal : gal o <> GOther) :
  exists σ1 σ2 o2 l',
    save σ self filename = Ok (tt, σ1) /\
    load σ1 target filename = Ok (target, σ2) /\
    st_cats σ2 !! target = Some o2 /\ par o2 = RDict l' /\
    l' <> l /\ st_dicts σ !! l' = None /\
    st_dicts σ2 !! l' = Some d /\ st_dicts σ2 !! l = Some d.
Proof.
  assert (Hdump : pickle_dump σ o = Ok (Pickled (Some d) (prop o) (gal o))).
  { unfold pickle_dump. rewrite Hpar, Hd. cbn [mbind outcome_bind].
    destruct (gal o); congruence. }
  set (σ1 := write_file σ filename (PickleFile (Pickled (Some d) (prop o) (gal o)))).
  set (l' := fresh (dom (st_dicts σ))).
  set (nc := fresh (dom (st_cats σ))).
  assert (Hl' : st_dicts σ !! l' = None) by (apply not_elem_of_dom, is_fresh).
  assert (Hnc : st_cats σ !! nc = None) by (apply not_elem_of_dom, is_fresh).
  assert (Hne : l' <> l) by congruence.
  assert (Hnt : nc <> target) by congruence.
  exists σ1,
    (set_cat (set_cat (Store (st_cats σ1) (<[l' := d]> (st_dicts σ1)) (st_files σ1))
                nc (Cat (RDict l') (prop o) (gal o)))
       target (Cat (RDict l') (prop o) (gal o))),
    (Cat (RDict l') (prop o) (gal o)), l'.
  split; [|split; [|split; [|split; [|split; [|split; [|split]]]]]].
  - unfold save. rewrite (get_cat_some _ _ _ Hself). cbn [mbind outcome_bind].
    now rewrite Hdump.
  - unfold load.
    assert (Hf : st_files σ1 !! filename
                 = Some (PickleFile (Pickled (Some d) (prop o) (gal o))))
      by apply lookup_insert_eq.
    rewrite Hf. unfold pickle_load, new_dict, new_cat.
    cbn [pk_par pk_prop pk_gal st_cats st_dicts st_files σ1 write_file].
    fold l'. fold nc. unfold get_cat, set_cat. cbn [st_cats st_dicts st_files].
    rewrite lookup_insert_eq. cbn [mbind outcome_bind].
    rewrite lookup_insert_ne by congruence. rewrite Htarget. reflexivity.
  - cbn [set_cat st_cats]. apply lookup_insert_eq.
  - reflexivity.
  - exact Hne.
  - exact Hl'.
  - cbn [set_cat st_dicts σ1 write_file]. apply lookup_insert_eq.
  - cbn [set_cat st_dicts σ1 write_file]. rewrite lookup_insert_ne by exact Hne.
    exact Hd.
Qed.

Lemma load_metadata_is_a_copy_witness :
  exists σ1 σ2 o2 l',
    save ex_store2 ex_self "cat.pkl" = Ok (tt, σ1) /\
    load σ1 ex_target "cat.pkl" = Ok (ex_target, σ2) /\
    st_cats σ2 !! ex_target = Some o2 /\ par o2 = RDict l' /\
    l' <> 5%positive /\ st_dicts ex_store2 !! l' = None /\
    st_dicts σ2 !! l' = Some {[ "name" := PStr "mock" ]} /\
    st_dicts σ2 !! 5%positive = Some {[ "name" := PStr "mock" ]}.
Proof.
  apply (load_metadata_is_a_copy ex_store2 ex_self ex_target "cat.pkl"
           (Cat (RDict 5%positive) (PFrame ex_frame) (GObject [ex_v0; ex_v1]))
           (Cat RNone PNone GNone) 5%positive {[ "name" := PStr "mock" ]}).
  - reflexivity.
  - reflexivity.
  - reflexivity.
  - reflexivity.
  - discriminate.
Defined.

(** Two instances filled by [load_npy] without the [par] argument hold
    one and the same metadata dictionary, the default argument of the
    method, and no dictionary is created or changed by the two calls. *)
Theorem load_npy_default_is_shared (σ σ1 σ2 : store) (t1 t2 : loc)
  (f1 f2 : string)
  (H1 : load_npy σ t1 f1 None = Ok (t1, σ1))
  (H2 : load_npy σ1 t2 f2 None = Ok (t2, σ2)) :
  exists o1 o2,
    st_cats σ2 !! t1 = Some o1 /\ st_cats σ2 !! t2 = Some o2 /\
    par o1 = RDict load_npy_default /\ par o2 = RDict load_npy_default /\
    st_dicts σ2 = st_dicts σ.
Proof.
  unfold load_npy in H1, H2.
  destruct (st_files σ !! f1) as [[p1|x1]|]; try discriminate H1.
  destruct (decode x1) as [r1| |]; try discriminate H1.
  cbn [mbind outcome_bind] in H1. unfold get_cat in H1.
  destruct (st_cats σ !! t1) as [c1|]; try discriminate H1.
  cbn [mbind outcome_bind default] in H1. injection H1 as <-.
  destruct (st_files (set_cat σ t1 _) !! f2) as [[p2|x2]|]; try discriminate H2.
  destruct (decode x2) as [r2| |]; try discriminate H2.
  cbn [mbind outcome_bind] in H2. unfold get_cat in H2.
  destruct (st_cats (set_cat σ t1 _) !! t2) as [c2|] eqn:E2; try discriminate H2.
  cbn [mbind outcome_bind default] in H2. injection H2 as <-.
  cbn [set_cat st_cats st_dicts].
  destruct (decide (t1 = t2)) as [<- | Hne].
  - eexists _, _. rewrite lookup_insert_eq. repeat split.
  - eexists _, _. rewrite lookup_insert_ne by congruence.
    rewrite !lookup_insert_eq. repeat split.
Qed.

Definition ex_npy_store : store :=
  write_file ex_store2 "cat.npy" (NpyFile (encoded ex_frame [ex_v0; ex_v1] [("v", I8)])).

Definition ex_loaded : CatObj :=
  Cat (RDict load_npy_default) (PFrame (cast_frame ex_frame)) (GObject [ex_v0; ex_v1]).

Lemma load_npy_default_is_shared_witness :
  exists o1 o2,
    st_cats (set_cat (set_cat ex_npy_store ex_target ex_loaded) ex_self ex_loaded)
      !! ex_target = Some o1 /\
    st_cats (set_cat (set_cat ex_npy_store ex_target ex_loaded) ex_self ex_loaded)
      !! ex_self = Some o2 /\
    par o1 = RDict load_npy_default /\ par o2 = RDict load_npy_default /\
    st_dicts (set_cat (set_cat ex_npy_store ex_target ex_loaded) ex_self ex_loaded)
    = st_dicts ex_npy_store.
Proof.
  apply (load_npy_default_is_shared ex_npy_store
           (set_cat ex_npy_store ex_target ex_loaded)
           (set_cat (set_cat ex_npy_store ex_target ex_loaded) ex_self ex_loaded)
           ex_target ex_self "cat.npy" "cat.npy");
    vm_compute; reflexivity.
Defined.

(** ** Repeated round trips *)

Lemma astype_F8_idem (c : cell) : astype F8 (astype F8 c) = astype F8 c.
Proof. now destruct c. Qed.

Lemma cast_frame_idem (df : DataFrame) : cast_frame (cast_frame df) = cast_frame df.
Proof.
  unfold cast_frame. cbn [df_cols]. f_equal.
  - f_equal. apply range_index_length.
  - rewrite map_map. apply map_ext. intros c. unfold cast_col. cbn. f_equal.
    rewrite map_map. apply map_ext. intros x. apply astype_F8_idem.
Qed.

Lemma codec_ready_cast (df : DataFrame) (tabs : list sarray)
  (dt : list (string * ntype)) :
  codec_ready df tabs dt -> codec_ready (cast_frame df) tabs dt.
Proof.
  intros [[Hnd Hlen Hty] Hunres (col & Hin & Hname & Hcnt) Hvt Hdt Hsmall Hnot1 Hne
            Hnamed].
  assert (Hnames : df_columns (cast_frame df) = df_columns df).
  { unfold df_columns, cast_frame. cbn [df_cols]. now rewrite map_map. }
  assert (Hl : df_len (cast_frame df) = df_len df) by apply range_index_length.
  split; auto.
  - split.
    + now rewrite Hnames.
    + rewrite Hl. cbn [cast_frame df_cols]. rewrite Forall_map.
      eapply Forall_impl; [exact Hlen|]. intros c Hc. cbn. now rewrite List.length_map.
    + cbn [cast_frame df_cols]. rewrite Forall_map. apply Forall_forall.
      intros c _. cbn. apply forallb_forall. intros x Hx.
      apply in_map_iff in Hx. destruct Hx as (y & <- & _). now destruct y.
  - now rewrite Hnames.
  - exists (cast_col col). split; [|split].
    + cbn [cast_frame df_cols]. now apply (list_elem_of_fmap_2 cast_col).
    + exact Hname.
    + cbn [cast_col c_data]. apply Forall2_fmap_l.
      eapply Forall2_impl; [exact Hcnt|]. intros c t. apply counts_cast.
  - now rewrite Hnames.
Qed.

(** A catalog that went through the padded format once goes through it
    unchanged from then on: encoding the decoded property table (all
    float64, rows labelled 0 .. n-1) with the galaxy tables and decoding
    again gives that very table and these very galaxy tables. *)
Theorem second_roundtrip_exact (df : DataFrame) (g : galval)
  (tabs : list sarray) (dt : list (string * ntype))
  (Hready : codec_ready df tabs dt)
  (Hgal : gal_tables g = Some tabs)
  (Hrows : length tabs = df_len df) :
  exists x g',
    encode (PFrame (cast_frame df)) g = Ok x /\
    decode x = Ok (cast_frame df, g') /\
    gal_tables g' = Some tabs /\ held_in_array g' = true.
Proof.
  pose proof (codec_ready_cast df tabs dt Hready) as Hready'.
  assert (Hrows' : length tabs = df_len (cast_frame df)).
  { rewrite Hrows. symmetry. apply range_index_length. }
  destruct (decode_ok (cast_frame df) tabs dt Hready' Hrows') as (g' & Hd & Hg' & Ha).
  exists (encoded (cast_frame df) tabs dt), g'.
  split; [now apply encode_ok|]. rewrite cast_frame_idem in Hd. auto.
Qed.

Lemma second_roundtrip_exact_witness :
  exists x g',
    encode (PFrame (cast_frame ex_frame)) (GObject [ex_v0; ex_v1]) = Ok x /\
    decode x = Ok (cast_frame ex_frame, g') /\
    gal_tables g' = Some [ex_v0; ex_v1] /\ held_in_array g' = true.
Proof.
  exact (second_roundtrip_exact ex_frame (GObject [ex_v0; ex_v1]) [ex_v0; ex_v1]
           [("v", I8)] ex_codec_ready eq_refl eq_refl).
Defined.

(** ** Concatenation that keeps the tables *)

(** The member sequence survives the flattening of [np.append]: it is a
    1-d object array, or a list of tables that do not all have one
    length (which numpy turns into such an array). *)
Definition keeps_tables (g : galval) (tabs : list sarray) : Prop :=
  g = GObject tabs \/
  (g = GList tabs /\ exists t u, t ∈ tabs /\ u ∈ tabs /\ sa_len t <> sa_len u).

Lemma np_ravel_keeps (g : galval) (tabs : list sarray) :
  keeps_tables g tabs -> np_ravel g = Ok (FObj tabs).
Proof.
  intros [-> | (-> & t & u & Ht & Hu & Hne)]; [reflexivity|].
  unfold np_ravel, np_array. destruct tabs as [|t0 ts]; [inversion Ht|].
  assert (Hdiff : exists v, v ∈ t0 :: ts /\ sa_len v <> sa_len t0).
  { destruct (decide (sa_len t = sa_len t0)) as [E|E].
    - exists u. split; [exact Hu | congruence].
    - exists t. split; [exact Ht | exact E]. }
  destruct Hdiff as (v & Hv & Hvne).
  assert (H1 : forallb (fun u0 => same_layout u0 (sa_descr t0) (sa_len t0)) (t0 :: ts)
               = false).
  { apply not_true_is_false. intros H. rewrite forallb_forall in H.
    specialize (H v ltac:(now apply list_elem_of_In)). unfold same_layout in H.
    apply andb_prop in H. destruct H as [_ H]. apply Nat.eqb_eq in H. congruence. }
  assert (H2 : forallb (fun u0 => Nat.eqb (sa_len u0) (sa_len t0)) (t0 :: ts) = false).
  { apply not_true_is_false. intros H. rewrite forallb_forall in H.
    specialize (H v ltac:(now apply list_elem_of_In)). apply Nat.eqb_eq in H. congruence. }
  rewrite H1, H2. reflexivity.
Qed.

Lemma zip_named (ca cb : list column) (a b : column) :
  map c_name ca = map c_name cb -> NoDup (map c_name ca) ->
  a ∈ ca -> b ∈ cb -> c_name a = c_name b ->
  stack_col a b ∈ zip_with stack_col ca cb.
Proof.
  revert cb. induction ca as [|x ca IH]; intros [|y cb] Hn Hnd Ha Hb Hab;
    try (inversion Ha; fail); try discriminate Hn.
  cbn in Hn. injection Hn as Hxy Hn. cbn in Hnd. apply NoDup_cons in Hnd.
  destruct Hnd as [Hx Hnd]. cbn [zip_with].
  apply elem_of_cons in Ha. apply elem_of_cons in Hb.
  destruct Ha as [-> | Ha], Hb as [-> | Hb].
  - left.
  - exfalso. apply Hx. rewrite Hn, Hab. now apply list_elem_of_fmap_2.
  - exfalso. apply Hx. rewrite Hxy, <- Hab. now apply list_elem_of_fmap_2.
  - right. now apply IH.
Qed.

Lemma zip_with_Forall (P Q R : column -> Prop) (ca cb : list column) :
  (forall a b, P a -> Q b -> R (stack_col a b)) ->
  Forall P ca -> Forall Q cb -> Forall R (zip_with stack_col ca cb).
Proof.
  intros H Ha. revert cb. induction Ha as [|a ca Pa _ IH]; intros cb Hb.
  - constructor.
  - destruct Hb as [|b cb Qb Hb]; [constructor|]. cbn. constructor; auto.
Qed.

Lemma counts_astype (ty : ntype) (c : cell) (n : nat) :
  counts c n -> Z.of_nat n < 2 ^ 53 -> counts (astype ty c) n.
Proof.
  intros H Hn. destruct ty; [|now apply counts_cast].
  destruct H as [-> | ->]; [now left|]. left. cbn [astype].
  rewrite f64_trunc_of_Z by lia. unfold int64_min.
  replace ((- 2 ^ 63 <=? Z.of_nat n) && (Z.of_nat n <? 2 ^ 63)) with true; [reflexivity|].
  symmetry. apply andb_true_intro. split; [apply Z.leb_le | apply Z.ltb_lt]; lia.
Qed.

(** When the property tables have the same distinct columns and both
    member sequences survive the flattening, [A + B] is what
    concatenation should be: a new instance with the metadata reference
    of [A], the rows of [A] followed by the rows of [B] labelled
    0 .. n-1 (each column in the common type of the two), the tables of
    [A] followed by the tables of [B], and the invariants hold again. *)
Theorem add_keeps_invariants (σ : store) (a b : loc) (oa ob : CatObj)
  (da db : DataFrame) (ta tb : list sarray)
  (Ha : st_cats σ !! a = Some oa)
  (Hb : st_cats σ !! b = Some ob)
  (Hsa : sound_catalog oa da ta)
  (Hsb : sound_catalog ob db tb)
  (Hcols : df_columns da = df_columns db)
  (Hnd : NoDup (df_columns da))
  (Hka : keeps_tables (gal oa) ta)
  (Hkb : keeps_tables (gal ob) tb)
  (Hsmall : Forall (fun t => Z.of_nat (sa_len t) < 2 ^ 53) (ta ++ tb)) :
  exists new σ',
    add σ a b = Ok (new, σ') /\
    st_cats σ' !! new
    = Some (Cat (par oa)
              (PFrame (Frame (range_index (df_len da + df_len db))
                         (zip_with stack_col (df_cols da) (df_cols db))))
              (GObject (ta ++ tb))) /\
    aligned σ' new /\
    sound_catalog
      (Cat (par oa)
         (PFrame (Frame (range_index (df_len da + df_len db))
                    (zip_with stack_col (df_cols da) (df_cols db))))
         (GObject (ta ++ tb)))
      (Frame (range_index (df_len da + df_len db))
         (zip_with stack_col (df_cols da) (df_cols db)))
      (ta ++ tb).
Proof.
  destruct Hsa as [Hpa Hga Hca Hra (cola & Hina & Hnamea & Hcnta)].
  destruct Hsb as [Hpb Hgb Hcb Hrb (colb & Hinb & Hnameb & Hcntb)].
  assert (Hadd : add σ a b
                 = Ok (new_cat σ
                         (Cat (par oa)
                            (PFrame (Frame (range_index (df_len da + df_len db))
                                       (zip_with stack_col (df_cols da) (df_cols db))))
                            (GObject (ta ++ tb))))).
  { unfold add. rewrite (get_cat_some _ _ _ Ha), (get_cat_some _ _ _ Hb).
    cbn [mbind outcome_bind]. rewrite Hpa, Hpb. cbn [prop_append]. unfold df_append.
    rewrite (bool_decide_eq_true_2 _ Hcols), (bool_decide_eq_true_2 _ Hnd).
    cbn [andb mbind outcome_bind]. unfold np_append.
    rewrite (np_ravel_keeps _ _ Hka), (np_ravel_keeps _ _ Hkb).
    cbn [mbind outcome_bind np_concatenate].
    unfold df_reset_index, df_len. cbn [df_index df_cols]. now rewrite length_app. }
  assert (Hsound : sound_catalog
      (Cat (par oa)
         (PFrame (Frame (range_index (df_len da + df_len db))
                    (zip_with stack_col (df_cols da) (df_cols db))))
         (GObject (ta ++ tb)))
      (Frame (range_index (df_len da + df_len db))
         (zip_with stack_col (df_cols da) (df_cols db)))
      (ta ++ tb)).
  { assert (Hl : df_len (Frame (range_index (df_len da + df_len db))
                           (zip_with stack_col (df_cols da) (df_cols db)))
                 = (df_len da + df_len db)%nat) by apply range_index_length.
    split.
    - reflexivity.
    - reflexivity.
    - rewrite Hl. cbn [df_cols].
      eapply zip_with_Forall; [|exact Hca|exact Hcb].
      intros x y Hx Hy. cbn beta in Hx, Hy |- *. cbn [stack_col c_data].
      rewrite List.length_map, length_app. lia.
    - rewrite Hl, length_app. lia.
    - exists (stack_col cola colb). split; [|split].
      + cbn [df_cols]. apply zip_named; auto. congruence.
      + exact Hnamea.
      + cbn [stack_col c_data]. apply Forall2_fmap_l.
        assert (Hall : Forall2 (fun c t => counts c (sa_len t))
                         (c_data cola ++ c_data colb) (ta ++ tb))
          by now apply Forall2_app.
        clear -Hall Hsmall.
        induction Hall as [|c t cs ts Hc _ IH]; [constructor|].
        apply Forall_cons in Hsmall. destruct Hsmall as [Ht Hs].
        constructor; [now apply counts_astype | now apply IH]. }
  eexists _, _. split; [exact Hadd|]. split; [|split].
  - cbn [set_cat st_cats]. apply lookup_insert_eq.
  - eapply sound_aligned; [|exact Hsound]. cbn [set_cat st_cats]. apply lookup_insert_eq.
  - exact Hsound.
Qed.

Lemma add_keeps_invariants_witness :
  exists new σ',
    add ex_store ex_self ex_self = Ok (new, σ') /\
    st_cats σ' !! new
    = Some (Cat (RDict 5%positive)
              (PFrame (Frame (range_index 4)
                         (zip_with stack_col (df_cols ex_frame) (df_cols ex_frame))))
              (GObject [ex_v0; ex_v1; ex_v0; ex_v1])) /\
    aligned σ' new.
Proof.
  assert (Hnd : NoDup (df_columns ex_frame)).
  { apply (bool_decide_eq_true_1 (NoDup (df_columns ex_frame))). reflexivity. }
  assert (Hsmall : Forall (fun t => Z.of_nat (sa_len t) < 2 ^ 53)
                     ([ex_v0; ex_v1] ++ [ex_v0; ex_v1])).
  { repeat constructor. }
  destruct (add_keeps_invariants ex_store ex_self ex_self _ _ ex_frame ex_frame
              [ex_v0; ex_v1] [ex_v0; ex_v1] eq_refl eq_refl ex_sound ex_sound
              eq_refl Hnd (or_introl eq_refl) (or_introl eq_refl) Hsmall)
    as (new & σ' & H1 & H2 & H3 & _).
  exists new, σ'. split; [exact H1|]. split; [exact H2 | exact H3].
Defined.

(** * Further properties of binned_plot *)

Lemma forM_Forall2 {A B : Type} (f : A -> outcome B) (P : A -> B -> Prop)
  (l : list A) :
  Forall (fun a => exists b, f a = Ok b /\ P a b) l ->
  exists r, forM f l = Ok r /\ Forall2 P l r.
Proof.
  induction 1 as [|a l (b & Hb & Pb) _ (r & Hr & Pr)].
  - exists []. split; [reflexivity | constructor].
  - exists (b :: r). cbn [forM]. rewrite Hb. cbn. rewrite Hr. cbn.
    split; [reflexivity | now constructor].
Qed.


Lemma mask_select_ok {A : Type} (mask : list bool) (Y : list A) :
  length mask = length Y ->
  exists y, mask_select mask Y = Ok y /\
            (y = [] <-> Forall (fun b => b = false) mask).
Proof.
  revert Y. induction mask as [|b mask IH]; intros [|y0 Y] H; try discriminate H.
  - exists []. split; [reflexivity|]. split; [constructor | reflexivity].
  - destruct (IH Y) as (y & Hy & Hnil); [cbn in H; lia|].
    cbn [mask_select]. rewrite Hy. cbn. destruct b.
    + exists (y0 :: y). split; [reflexivity|]. split; [discriminate|].
      intros HF. apply Forall_cons in HF. destruct HF as [HF _]. discriminate HF.
    + exists y. split; [reflexivity|]. split.
      * intros E. constructor; [reflexivity | now apply Hnil].
      * intros HF. apply Forall_cons in HF. now apply Hnil.
Qed.

Lemma mask_select_mismatch {A : Type} (mask : list bool) (Y : list A) :
  length mask <> length Y -> mask_select mask Y = Raise IndexError.
Proof.
  revert Y. induction mask as [|b mask IH]; intros [|y0 Y] H; try reflexivity.
  - now contradiction H.
  - cbn [mask_select]. rewrite IH; [reflexivity|]. cbn in H. lia.
Qed.

(** The point [x] lies in the bin between the edges [lo] and [hi]:
    [lo <= x] and [x < hi] as float64 comparisons. *)
Definition in_bin (lo hi x : float64) : Prop :=
  SFleb lo x = true /\ SFltb x hi = true.

Lemma in_bin_iff (lo hi x : float64) :
  SFleb lo x && SFltb x hi = true <-> in_bin lo hi x.
Proof. unfold in_bin. apply andb_true_iff. Qed.

Lemma levels_nonempty (ps : list pynum) : ps <> [] -> flat_map levels ps <> [].
Proof.
  destruct ps as [|p ps]; [congruence|]. intros _. cbn [flat_map]. unfold levels.
  destruct (num_is_zero p); discriminate.
Qed.

Lemma linspace_length (a b : float64) (n : nat) : length (linspace a b n) = S n.
Proof.
  unfold linspace. destruct n as [|n].
  - now rewrite !List.length_map, List.length_seq.
  - rewrite length_app, length_take. cbn [length].
    destruct (SFeqb _ _); rewrite !List.length_map, List.length_seq; lia.
Qed.

Section BinnedPlotBins.

Variable np_percentile : list float64 -> pynum -> float64.
Variable f32 : float64 -> spec_float.

Lemma mask_empty (X : list float64) (lo hi : float64) :
  Forall (fun b : bool => b = false) (map (fun x => SFleb lo x && SFltb x hi) X)
  <-> Forall (fun x => ~ in_bin lo hi x) X.
Proof.
  rewrite Forall_map. split; intros HF; eapply Forall_impl; try exact HF;
    cbn beta; intros x Hx.
  - intros Hin. apply in_bin_iff in Hin. congruence.
  - apply not_true_is_false. intros E. apply Hx. now apply in_bin_iff.
Qed.

(** What one record of [bin_data] holds when [X] and [Y] have the same
    length and the computed percentiles are all accepted by
    [np.percentile]. *)
Lemma bin_row_ok (X Y : list float64) (cp : list pynum) (lo hi : float64) :
  length Y = length X ->
  forallb level_valid cp = true ->
  exists r, bin_row np_percentile f32 X Y cp lo hi = Ok r /\
    (r = BinMissing <-> Forall (fun x => ~ in_bin lo hi x) X) /\
    (forall vals, r = BinValues vals -> length vals = length cp).
Proof.
  intros HY Hcp. unfold bin_row.
  destruct (mask_select_ok (map (fun x => SFleb lo x && SFltb x hi) X) Y)
    as (y & Hy & Hnil); [rewrite List.length_map; symmetry; exact HY|].
  rewrite Hy. cbn [mbind outcome_bind].
  pose proof (mask_empty X lo hi) as Hmask.
  destruct y as [|y0 y].
  - exists BinMissing. split; [reflexivity|]. split.
    + split; [|reflexivity]. intros _. apply Hmask. now apply Hnil.
    + discriminate.
  - unfold percentile. rewrite Hcp. cbn [mbind outcome_bind].
    eexists. split; [reflexivity|]. split.
    + split; [discriminate|]. intros HF. apply Hmask in HF. apply Hnil in HF.
      discriminate HF.
    + intros vals E. injection E as <-. now rewrite !List.length_map.
Qed.


End BinnedPlotBins.

(** The edges that [binned_plot] computes from [X]. *)
Definition edges_of (X : list float64) (n : nat) : list float64 :=
  match X with
  | [] => []
  | x :: xs =>
      linspace (f64_mul (foldl f64_min2 x xs) f64_0_9999)
               (f64_mul (foldl f64_max2 x xs) f64_1_0001) n
  end.

(** With data of one length, at least one point, and requested levels
    that pass the gate and give percentiles with different names that
    [np.percentile] accepts, [binned_plot] returns: one record per bin
    and one edge more than bins; the record of a bin is missing exactly
    when no point of [X] lies between its two edges, and otherwise
    holds one value per computed percentile. *)
Theorem binned_plot_returns
  (np_percentile : list float64 -> pynum -> float64)
  (f32 : float64 -> spec_float) (X Y : list float64) (n : nat)
  (ps : list pynum)
  (HX : X <> [])
  (HY : length Y = length X)
  (Hps : Forall at_most_50 ps)
  (Hne : ps <> [])
  (Hvalid : forallb level_valid (flat_map levels ps) = true)
  (Hdist : distinct_names (flat_map levels ps) = true) :
  exists data,
    binned_plot np_percentile f32 X Y n ps = Ok (data, edges_of X n) /\
    length data = n /\ length (edges_of X n) = S n /\
    forall i r, data !! i = Some r ->
      (r = BinMissing <->
       Forall (fun x => ~ in_bin (nth i (edges_of X n) f64_zero)
                           (nth (S i) (edges_of X n) f64_zero) x) X) /\
      (forall vals, r = BinValues vals ->
                    length vals = length (flat_map levels ps)).
Proof.
  pose proof (calc_percent_accepts ps Hps) as Hgate.
  destruct X as [|x0 xs]; [congruence|].
  set (X := x0 :: xs) in *.
  destruct (forM_Forall2
              (fun i => bin_row np_percentile f32 X Y (flat_map levels ps)
                          (nth i (edges_of X n) f64_zero)
                          (nth (S i) (edges_of X n) f64_zero))
              (fun i r =>
                 (r = BinMissing <->
                  Forall (fun x => ~ in_bin (nth i (edges_of X n) f64_zero)
                                      (nth (S i) (edges_of X n) f64_zero) x) X) /\
                 (forall vals, r = BinValues vals ->
                               length vals = length (flat_map levels ps)))
              (seq 0 n)) as (data & Hdata & Hrows).
  { apply Forall_forall. intros i _. now apply bin_row_ok. }
  exists data. split; [|split; [|split]].
  - unfold binned_plot. rewrite Hgate. cbn [mbind outcome_bind arr_min arr_max X].
    rewrite (bool_decide_eq_false_2 _ (levels_nonempty ps Hne)), Hdist.
    cbn [negb]. fold X. change (linspace _ _ n) with (edges_of X n).
    rewrite Hdata. reflexivity.
  - apply Forall2_length in Hrows. rewrite <- Hrows. apply List.length_seq.
  - apply linspace_length.
  - intros i r Hi.
    destruct (Forall2_lookup_r _ _ _ _ _ Hrows Hi) as (j & Hj & Hr).
    apply lookup_seq in Hj. destruct Hj as [-> _]. exact Hr.
Qed.

Lemma binned_plot_returns_witness :
  exists data,
    binned_plot (fun _ _ => f64_nan) (fun f => f)
      [f64_of_Z 1; f64_of_Z 2] [f64_of_Z 3; f64_of_Z 4] 2 [NInt 0; NInt 34]
    = Ok (data, edges_of [f64_of_Z 1; f64_of_Z 2] 2) /\
    length data = 2%nat /\ length (edges_of [f64_of_Z 1; f64_of_Z 2] 2) = 3%nat.
Proof.
  assert (Hps : Forall at_most_50 [NInt 0; NInt 34]) by (repeat constructor; cbn; lia).
  destruct (binned_plot_returns (fun _ _ => f64_nan) (fun f => f)
              [f64_of_Z 1; f64_of_Z 2] [f64_of_Z 3; f64_of_Z 4] 2 [NInt 0; NInt 34]
              ltac:(discriminate) eq_refl Hps ltac:(discriminate) eq_refl eq_refl)
    as (data & H1 & H2 & H3 & _).
  exists data. split; [exact H1|]. split; [exact H2 | exact H3].
Defined.



(** What [binned_plot] makes of unusable data once the gate is passed:
    without points there is no minimum, a [ValueError]; with [Y] not as
    long as [X] the first selection of a bin fails with an [IndexError]. *)
Theorem binned_plot_rejects_data
  (np_percentile : list float64 -> pynum -> float64)
  (f32 : float64 -> spec_float) (X Y : list float64) (n : nat)
  (ps : list pynum)
  (Hgate : Forall at_most_50 ps) :
  (X = [] -> binned_plot np_percentile f32 X Y n ps = Raise ValueError) /\
  (X <> [] -> length Y <> length X -> (0 < n)%nat -> ps <> [] ->
   distinct_names (flat_map levels ps) = true ->
   binned_plot np_percentile f32 X Y n ps = Raise IndexError).
Proof.
  pose proof (calc_percent_accepts ps Hgate) as Hcp.
  split.
  - intros ->. unfold binned_plot. now rewrite Hcp.
  - intros HX HY Hn Hne Hdist. unfold binned_plot. rewrite Hcp.
    destruct X as [|x0 xs]; [congruence|]. set (X := x0 :: xs) in *.
    cbn [mbind outcome_bind arr_min arr_max X].
    rewrite (bool_decide_eq_false_2 _ (levels_nonempty ps Hne)), Hdist. cbn [negb].
    fold X.
    assert (Hrow : forall lo hi,
              bin_row np_percentile f32 X Y (flat_map levels ps) lo hi
              = Raise IndexError).
    { intros lo hi. unfold bin_row.
      rewrite mask_select_mismatch; [reflexivity|]. rewrite List.length_map.
      intros E. apply HY. symmetry. exact E. }
    destruct n as [|n]; [lia|]. cbn [seq forM]. now rewrite Hrow.
Qed.

Lemma binned_plot_rejects_data_witness :
  binned_plot (fun _ _ => f64_nan) (fun f => f) [] [] 2 [NInt 0; NInt 34]
  = Raise ValueError /\
  binned_plot (fun _ _ => f64_nan) (fun f => f)
    [f64_of_Z 1; f64_of_Z 2] [f64_of_Z 3] 2 [NInt 0; NInt 34]
  = Raise IndexError.
Proof.
  assert (Hgate : Forall at_most_50 [NInt 0; NInt 34])
    by (repeat constructor; cbn; lia).
  split.
  - exact (proj1 (binned_plot_rejects_data (fun _ _ => f64_nan) (fun f => f)
                    [] [] 2 [NInt 0; NInt 34] Hgate) eq_refl).
  - apply (proj2 (binned_plot_rejects_data (fun _ _ => f64_nan) (fun f => f)
                    [f64_of_Z 1; f64_of_Z 2] [f64_of_Z 3] 2 [NInt 0; NInt 34] Hgate)).
    + discriminate.
    + cbn. lia.
    + lia.
    + discriminate.
    + reflexivity.
Defined.

(** ** Indexing twice *)

Lemma sel_cons {A : Type} (l : list A) (z : Z) (zs : list Z) (a : A) :
  norm_index (length l) z ≫= (l !!.) = Some a ->
  sel l (z :: zs) = a :: sel l zs.
Proof. intros H. unfold sel. cbn [omap list_omap]. now rewrite H. Qed.

Lemma sel_lookup {A : Type} (l : list A) (zs : list Z) (j : nat) (z : Z) :
  Forall (in_range (length l)) zs -> zs !! j = Some z ->
  sel l zs !! j = norm_index (length l) z ≫= (l !!.).
Proof.
  intros H. revert j. induction H as [|z0 zs Hz0 _ IH]; intros j Hj; [discriminate Hj|].
  destruct (pick_in_range l z0 Hz0) as (a & _ & Ha).
  rewrite (sel_cons l z0 zs a Ha). destruct j as [|j].
  - cbn in Hj. injection Hj as <-. now rewrite Ha.
  - cbn in Hj |- *. now apply IH.
Qed.

Lemma sel_in_range (n : nat) (zs ws : list Z) :
  Forall (in_range n) zs -> Forall (in_range n) (sel zs ws).
Proof.
  intros H. apply Forall_forall. intros z Hz. unfold sel in Hz.
  apply list_elem_of_omap in Hz. destruct Hz as (w & _ & Hw).
  destruct (norm_index (length zs) w) as [j|]; [|discriminate Hw]. cbn in Hw.
  rewrite Forall_forall in H. apply H. now apply list_elem_of_lookup_2 in Hw.
Qed.

(** Selecting from a selection is selecting with the selected positions. *)
Lemma sel_sel {A : Type} (l : list A) (zs ws : list Z) :
  Forall (in_range (length l)) zs -> Forall (in_range (length zs)) ws ->
  sel (sel l zs) ws = sel l (sel zs ws).
Proof.
  intros Hzs Hws.
  assert (Hlen : length (sel l zs) = length zs) by now apply picks_in_range.
  induction Hws as [|w ws Hw _ IH]; [reflexivity|].
  destruct (pick_in_range zs w Hw) as (z & _ & Hz).
  rewrite (sel_cons zs w ws z Hz).
  destruct (norm_index (length zs) w) as [j|] eqn:Hj; [|discriminate Hz]. cbn in Hz.
  pose proof (sel_lookup l zs j z Hzs Hz) as Hl.
  assert (Hzr : in_range (length l) z).
  { rewrite Forall_forall in Hzs. apply Hzs. now apply list_elem_of_lookup_2 in Hz. }
  destruct (pick_in_range l z Hzr) as (a & _ & Ha).
  rewrite (sel_cons l z _ a Ha), (sel_cons (sel l zs) w ws a).
  - now rewrite IH.
  - rewrite Hlen, Hj. cbn. now rewrite Hl.
Qed.

Lemma sel_cols_sel_cols (cols : list column) (n : nat) (zs ws : list Z) :
  Forall (fun c => length (c_data c) = n) cols ->
  Forall (in_range n) zs -> Forall (in_range (length zs)) ws ->
  sel_cols (sel_cols cols zs) ws = sel_cols cols (sel zs ws).
Proof.
  intros Hcols Hzs Hws. unfold sel_cols. rewrite map_map. apply map_ext_Forall.
  eapply Forall_impl; [exact Hcols|]. cbn. intros c Hc.
  rewrite sel_sel; [reflexivity | now rewrite Hc | exact Hws].
Qed.

(** [C[zs][ws]] holds what [C[[zs[w] for w in ws]]] holds: the same
    property table, the same galaxy tables and the same metadata
    reference (positions in range, members held in a numpy array). *)
Theorem getitem_twice (σ : store) (self : loc) (o : CatObj)
  (df : DataFrame) (tabs : list sarray) (zs ws : list Z)
  (Hself : st_cats σ !! self = Some o)
  (Hprop : prop o = PFrame df)
  (Htabs : gal_tables (gal o) = Some tabs)
  (Hcols : Forall (fun c => length (c_data c) = df_len df) (df_cols df))
  (Hlen : length tabs = df_len df)
  (Harr : held_in_array (gal o) = true)
  (Hzs : Forall (in_range (df_len df)) zs)
  (Hws : Forall (in_range (length zs)) ws) :
  exists l1 σ1 l2 σ2 l3 σ3 o2 o3,
    getitem σ self (KList zs) = Ok (l1, σ1) /\
    getitem σ1 l1 (KList ws) = Ok (l2, σ2) /\
    getitem σ self (KList (sel zs ws)) = Ok (l3, σ3) /\
    st_cats σ2 !! l2 = Some o2 /\ st_cats σ3 !! l3 = Some o3 /\
    par o2 = par o /\ par o3 = par o /\
    prop o2 = prop o3 /\
    prop o2 = PFrame (Frame (range_index (length ws))
                        (sel_cols (df_cols df) (sel zs ws))) /\
    gal_tables (gal o2) = Some (sel tabs (sel zs ws)) /\
    gal_tables (gal o3) = Some (sel tabs (sel zs ws)).
Proof.
  destruct (getitem_list_result σ self o df tabs zs (KList zs) Hself Hprop Htabs
              Hcols Hlen (or_introl eq_refl) Harr Hzs) as (g1 & H1 & Hg1 & Ha1).
  set (l1 := fresh (dom (st_cats σ))) in *.
  set (df1 := Frame (range_index (length zs)) (sel_cols (df_cols df) zs)) in *.
  set (σ1 := set_cat σ l1 (Cat (par o) (PFrame df1) g1)) in *.
  assert (Hl1 : df_len df1 = length zs) by apply range_index_length.
  assert (Hcols1 : Forall (fun c => length (c_data c) = df_len df1) (df_cols df1)).
  { rewrite Hl1. cbn [df1 df_cols]. unfold sel_cols. rewrite Forall_map.
    eapply Forall_impl; [exact Hcols|]. cbn. intros c Hc.
    apply picks_in_range. now rewrite Hc. }
  assert (Hlen1 : length (sel tabs zs) = df_len df1).
  { rewrite Hl1. apply picks_in_range. now rewrite Hlen. }
  assert (Hws1 : Forall (in_range (df_len df1)) ws) by now rewrite Hl1.
  destruct (getitem_list_result σ1 l1 (Cat (par o) (PFrame df1) g1) df1 (sel tabs zs)
              ws (KList ws) ltac:(apply lookup_insert_eq) eq_refl Hg1 Hcols1 Hlen1
              (or_introl eq_refl) Ha1 Hws1) as (g2 & H2 & Hg2 & _).
  pose proof (sel_in_range (df_len df) zs ws Hzs) as Hzw.
  destruct (getitem_list_result σ self o df tabs (sel zs ws) (KList (sel zs ws))
              Hself Hprop Htabs Hcols Hlen (or_introl eq_refl) Harr Hzw)
    as (g3 & H3 & Hg3 & _).
  assert (Hlw : length (sel zs ws) = length ws) by now apply picks_in_range.
  assert (Hcc : sel_cols (df_cols df1) ws = sel_cols (df_cols df) (sel zs ws)).
  { cbn [df1 df_cols]. now apply (sel_cols_sel_cols _ (df_len df)). }
  assert (Htt : sel (sel tabs zs) ws = sel tabs (sel zs ws)).
  { apply sel_sel; [now rewrite Hlen | exact Hws]. }
  eexists _, _, _, _, _, _, _, _.
  split; [exact H1|]. split; [exact H2|]. split; [exact H3|].
  split; [apply lookup_insert_eq|]. split; [apply lookup_insert_eq|].
  cbn [par prop gal]. rewrite Hcc, Hlw. rewrite Htt in Hg2.
  repeat split; assumption.
Qed.

Lemma getitem_twice_witness :
  exists l1 σ1 l2 σ2 l3 σ3 o2 o3,
    getitem ex_store ex_self (KList [1; 0; 1]) = Ok (l1, σ1) /\
    getitem σ1 l1 (KList [2; -3]) = Ok (l2, σ2) /\
    getitem ex_store ex_self (KList [1; 1]) = Ok (l3, σ3) /\
    st_cats σ2 !! l2 = Some o2 /\ st_cats σ3 !! l3 = Some o3 /\
    prop o2 = prop o3 /\
    gal_tables (gal o2) = Some [ex_v1; ex_v1] /\
    gal_tables (gal o3) = Some [ex_v1; ex_v1].
Proof.
  destruct (getitem_twice ex_store ex_self _ ex_frame [ex_v0; ex_v1] [1; 0; 1] [2; -3]
              eq_refl eq_refl eq_refl ltac:(repeat constructor) eq_refl eq_refl
              ltac:(repeat constructor; cbn; lia) ltac:(repeat constructor; cbn; lia))
    as (l1 & σ1 & l2 & σ2 & l3 & σ3 & o2 & o3 & H1 & H2 & H3 & H4 & H5 & _ & _ & H6
        & _ & H7 & H8).
  exists l1, σ1, l2, σ2, l3, σ3, o2, o3. repeat split; assumption.
Defined.
